(** * utility-for-s3-migration: a shallow embedding of the orchestration engine

    The development follows the Go sources:
    - package [util] ([helper.go]): [IsTerminal], [S3SelectReader.Read],
      [GetJobSuccessThreshold], [GetQueryExpression], [parseFileSchema];
    - package [migration] ([types.go], [s3copy.go]): [objectDateDescending],
      [ensureS3InventoryConfig], [getLatestManifest], [filterManifestCsv],
      [getJobParams], [pollJobResult], [Run].

    Remote calls are modelled by an oracle ([Remote]) that answers every
    request as a function of the history of the run; every call is appended
    to that history, so that orderings and frame properties are statements
    about the final trace.  Loops that Go leaves unbounded take a bound on
    their rounds ([fuel]); running out of it is an outcome of its own. *)

From Stdlib Require Import ZArith QArith String Ascii List Lia Bool.
From Stdlib Require Import DecimalString Permutation Sorted.
From stdpp Require Import base option list strings gmap.

Open Scope string_scope.
Open Scope list_scope.
Open Scope Z_scope.

(** ** Go strings (package [strings]), on ASCII data *)

Module GoStrings.

Definition to_list (s : string) : list ascii := list_ascii_of_string s.
Definition of_list (l : list ascii) : string := string_of_list_ascii l.

Fixpoint is_prefix (p l : list ascii) : bool :=
  match p, l with
  | [], _ => true
  | a :: p', b :: l' => if Ascii.eqb a b then is_prefix p' l' else false
  | _ :: _, [] => false
  end.

(** [strings.HasSuffix]. *)
Definition HasSuffix (s suffix : string) : bool :=
  is_prefix (rev (to_list suffix)) (rev (to_list s)).

(** [strings.TrimSuffix]: [s] without the trailing [suffix], or [s]. *)
Definition TrimSuffix (s suffix : string) : string :=
  if HasSuffix s suffix
  then of_list (take (length (to_list s) - length (to_list suffix))%nat (to_list s))
  else s.

(** White space as [unicode.IsSpace] sees it on one-byte characters. *)
Definition is_space (a : ascii) : bool :=
  let n := nat_of_ascii a in
  ((9 <=? n) && (n <=? 13) || (n =? 32))%nat.

Fixpoint trim_left (l : list ascii) : list ascii :=
  match l with
  | a :: l' => if is_space a then trim_left l' else l
  | [] => []
  end.

(** [strings.TrimSpace]. *)
Definition TrimSpace (s : string) : string :=
  of_list (rev (trim_left (rev (trim_left (to_list s))))).

(** Index of the last occurrence of the one-character separator [c], the
    way [strings.LastIndex] counts it, or [-1]. *)
Fixpoint last_index_from (c : ascii) (l : list ascii) (i : Z) (found : Z) : Z :=
  match l with
  | [] => found
  | a :: l' => last_index_from c l' (i + 1) (if Ascii.eqb a c then i else found)
  end.

Definition LastIndex (s : string) (c : ascii) : Z :=
  last_index_from c (to_list s) 0 (-1).

(** [s[i:]] for [0 <= i <= len(s)]. *)
Definition slice_from (s : string) (i : Z) : string :=
  of_list (drop (Z.to_nat i) (to_list s)).

(** [strings.Split] on a one-character separator. *)
Fixpoint split_acc (c : ascii) (l : list ascii) (cur : list ascii) : list string :=
  match l with
  | [] => [of_list (rev cur)]
  | a :: l' =>
      if Ascii.eqb a c then of_list (rev cur) :: split_acc c l' []
      else split_acc c l' (a :: cur)
  end.

Definition Split (s : string) (c : ascii) : list string :=
  split_acc c (to_list s) [].

(** [strings.Join]. *)
Fixpoint Join (parts : list string) (sep : string) : string :=
  match parts with
  | [] => ""
  | [p] => p
  | p :: rest => p +:+ sep +:+ Join rest sep
  end.

(** [%d] of a non-negative number. *)
Definition itoa (n : nat) : string := NilEmpty.string_of_uint (Nat.to_uint n).

End GoStrings.

Import GoStrings.

(** ** Machine integers *)

(** Conversion [int32(x)] of an [int64]: the low 32 bits, two's complement. *)
Definition int32 (z : Z) : Z :=
  let m := z mod 2 ^ 32 in
  if m <? 2 ^ 31 then m else m - 2 ^ 32.

(** Arithmetic on [int64] wraps around. *)
Definition wrap64 (z : Z) : Z :=
  let m := z mod 2 ^ 64 in
  if m <? 2 ^ 63 then m else m - 2 ^ 64.

(** ** [float32]

    The engine only converts an [int32] to [float32], divides two such
    values and compares with [<].  These operations are an interface here;
    the exact rationals are the instance used to evaluate ratios. *)

Class Float32 (F : Type) := {
  f32_zero : F;
  f32_of_int32 : Z -> F;
  f32_div : F -> F -> F;
  f32_ltb : F -> F -> bool
}.

Definition Qltb (a b : Q) : bool :=
  match Qcompare a b with Lt => true | _ => false end.

#[export] Instance Float32_Q : Float32 Q := {
  f32_zero := 0%Q;
  f32_of_int32 := inject_Z;
  f32_div := Qdiv;
  f32_ltb := Qltb
}.

(** ** Batch jobs ([s3control]) *)

Record JobProgressSummary := {
  NumberOfTasksFailed : Z;
  NumberOfTasksSucceeded : Z;
  TotalNumberOfTasks : Z
}.

Record DescribeJobOutput := {
  JobId : string;
  JobArn : string;
  Status : string;
  ProgressSummary : JobProgressSummary
}.

Definition JobStatusComplete := "Complete".
Definition JobStatusFailed := "Failed".
Definition JobStatusCancelled := "Cancelled".

(** [util.IsTerminal]. *)
Definition IsTerminal (status : string) : bool :=
  String.eqb status JobStatusComplete
  || String.eqb status JobStatusFailed
  || String.eqb status JobStatusCancelled.

(** The loop of [GetJobSuccessThreshold] over its variadic argument; a [nil]
    job is [None].  The state is [(jobSuccessThreshold, totalNumberOfTasks)],
    both [int32]; the two statements of the loop body are assignments
    [x = +int32(...)]. *)
Fixpoint threshold_loop (jobs : list (option DescribeJobOutput)) (acc : Z * Z) : Z * Z :=
  match jobs with
  | [] => acc
  | None :: rest => threshold_loop rest acc
  | Some job :: rest =>
      if TotalNumberOfTasks (ProgressSummary job) <? 1
      then threshold_loop rest acc
      else threshold_loop rest
             (int32 (NumberOfTasksSucceeded (ProgressSummary job)),
              int32 (TotalNumberOfTasks (ProgressSummary job)))
  end.

Definition GetJobSuccessThreshold {F} `{Float32 F}
    (jobs : list (option DescribeJobOutput)) : F :=
  let '(jobSuccessThreshold, totalNumberOfTasks) := threshold_loop jobs (0, 0) in
  if 0 <? totalNumberOfTasks
  then f32_div (f32_of_int32 jobSuccessThreshold) (f32_of_int32 totalNumberOfTasks)
  else f32_zero.

(** The aggregate ratio as the specification words it: sums of succeeded and
    of total task counts over the non-nil jobs that have at least one task. *)
Definition counted (job : option DescribeJobOutput) : bool :=
  match job with
  | Some j => 1 <=? TotalNumberOfTasks (ProgressSummary j)
  | None => false
  end.

Definition sum_succeeded (jobs : list (option DescribeJobOutput)) : Z :=
  foldr (fun job acc =>
           match job with
           | Some j => if counted job then NumberOfTasksSucceeded (ProgressSummary j) + acc else acc
           | None => acc
           end) 0 jobs.

Definition sum_total (jobs : list (option DescribeJobOutput)) : Z :=
  foldr (fun job acc =>
           match job with
           | Some j => if counted job then TotalNumberOfTasks (ProgressSummary j) + acc else acc
           | None => acc
           end) 0 jobs.

Definition aggregate_ratio (jobs : list (option DescribeJobOutput)) : Q :=
  if 0 <? sum_total jobs
  then (inject_Z (sum_succeeded jobs) / inject_Z (sum_total jobs))%Q
  else 0%Q.

Definition mkJob (succeeded total : Z) : option DescribeJobOutput :=
  Some {| JobId := "test"; JobArn := "test"; Status := JobStatusComplete;
          ProgressSummary := {| NumberOfTasksFailed := total - succeeded;
                                NumberOfTasksSucceeded := succeeded;
                                TotalNumberOfTasks := total |} |}.

(** ** Errors and results *)

(** Go errors: [smithy.APIError] values carry an error code, which
    [errors.As] can extract; every other error is plain. *)
Inductive GoError :=
| APIError (code message : string)
| PlainError (message : string).

Inductive Res (A : Type) :=
| Ok (a : A)
| Err (e : GoError).
Arguments Ok {A} a.
Arguments Err {A} e.

(** ** Time

    A [time.Time] is the number of nanoseconds since the zero time of Go
    (January 1, year 1, 00:00 UTC); [time.Duration] is a count of nanoseconds
    in an [int64].  Rendering a time with a layout is left to the runtime. *)
Definition Time := Z.

Class GoTime := {
  Format : string -> Time -> string;
  ParseDuration : string -> Res Z
}.

Definition IsZero (t : Time) : bool := t =? 0.
Definition After (t u : Time) : bool := u <? t.
Definition Hour : Z := 3600 * 1000000000.
Definition Second : Z := 1000000000.

(** [t.Compare(u)]. *)
Definition Compare (t u : Time) : Z :=
  if t <? u then -1 else if u <? t then 1 else 0.

(** ** The select builder ([squirrel]) as far as the engine uses it:
    columns, one table, and string predicates joined by [AND]. *)
Record SelectBuilder := {
  sb_columns : list string;
  sb_from : string;
  sb_where : list string
}.

Definition sq_Select (columns : list string) : SelectBuilder :=
  {| sb_columns := columns; sb_from := ""; sb_where := [] |}.

Definition sq_From (b : SelectBuilder) (from : string) : SelectBuilder :=
  {| sb_columns := sb_columns b; sb_from := from; sb_where := sb_where b |}.

Definition sq_Where (b : SelectBuilder) (pred : string) : SelectBuilder :=
  {| sb_columns := sb_columns b; sb_from := sb_from b; sb_where := sb_where b ++ [pred] |}.

Definition ToSql (b : SelectBuilder) : string * option GoError :=
  match sb_columns b with
  | [] => ("", Some (PlainError "select statements must have at least one result column"))
  | _ =>
      ("SELECT " +:+ Join (sb_columns b) ", "
       +:+ (if String.eqb (sb_from b) "" then "" else " FROM " +:+ sb_from b)
       +:+ (match sb_where b with
            | [] => ""
            | _ => " WHERE " +:+ Join (sb_where b) " AND "
            end),
       None)
  end.

(** ** The filter expression builder ([util.GetQueryExpression]) *)

Definition LastUpdatedColumn := "LastUpdated".
Definition IsLatestColumn := "IsLatest".
Definition IsLatestYes := "Yes".
Definition IsLatestNo := "No".

(** The loop of [parseFileSchema]: column [i] (from 0) is named [s._(i+1)];
    a later column of the same name replaces an earlier one. *)
Fixpoint schema_loop (stringArr : list string) (i : nat) (fileSchemaMap : gmap string string)
    : gmap string string :=
  match stringArr with
  | [] => fileSchemaMap
  | col :: rest =>
      schema_loop rest (S i) (<[TrimSpace col := "s._" +:+ itoa (i + 1)]> fileSchemaMap)
  end.

Definition parseFileSchema (fileSchema : string) : Res (gmap string string) :=
  if LastIndex fileSchema "," <? 1
  then Err (PlainError ("invalid input file schema: '" +:+ fileSchema +:+ "'"))
  else Ok (schema_loop (Split fileSchema ",") 0 ∅).

Definition missingColumn (colName fileSchema : string) : GoError :=
  PlainError ("file schema does not contain field '" +:+ colName
              +:+ "', Provided file schema: '" +:+ fileSchema +:+ "'").

(** The closure [getColumnName] of [GetQueryExpression]. *)
Definition getColumnName (fileSchema : string) (fileSchemaMap : gmap string string)
    (colName : string) : Res string :=
  match fileSchemaMap !! colName with
  | Some col => Ok col
  | None => Err (missingColumn colName fileSchema)
  end.

Definition toISO `{GoTime} (t : Time) : string := Format "2006-01-02T15:04:05" t.

Definition baseQuery : SelectBuilder := sq_From (sq_Select ["s._1"; "s._2"]) "s3object s".

(** The [if len(strings.TrimSpace(latestOnly)) > 0] block. *)
Definition addLatestFilter (fileSchema : string) (fileSchemaMap : gmap string string)
    (latestOnly : string) (sql : SelectBuilder) : Res SelectBuilder :=
  if (0 <? String.length (TrimSpace latestOnly))%nat then
    match getColumnName fileSchema fileSchemaMap IsLatestColumn with
    | Err e => Err e
    | Ok colName =>
        if String.eqb latestOnly IsLatestYes then Ok (sq_Where sql (colName +:+ " = 'true'"))
        else if String.eqb latestOnly IsLatestNo then Ok (sq_Where sql (colName +:+ " = 'false'"))
        else Ok sql
    end
  else Ok sql.

(** The [switch] on the two date bounds; a missing column is only logged. *)
Definition addDateFilter `{GoTime} (fileSchema : string) (fileSchemaMap : gmap string string)
    (startDt endDt : Time) (sql : SelectBuilder) : SelectBuilder :=
  if negb (IsZero startDt) && negb (IsZero endDt) then
    match getColumnName fileSchema fileSchemaMap LastUpdatedColumn with
    | Err _ => sql
    | Ok colName =>
        sq_Where sql (colName +:+ " BETWEEN '" +:+ toISO startDt +:+ "' AND '" +:+ toISO endDt +:+ "'")
    end
  else if negb (IsZero startDt) then
    match getColumnName fileSchema fileSchemaMap LastUpdatedColumn with
    | Err _ => sql
    | Ok colName => sq_Where sql (colName +:+ " < '" +:+ toISO startDt +:+ "'")
    end
  else if negb (IsZero endDt) then
    match getColumnName fileSchema fileSchemaMap LastUpdatedColumn with
    | Err _ => sql
    | Ok colName => sq_Where sql (colName +:+ " > '" +:+ toISO endDt +:+ "'")
    end
  else sql.

Definition GetQueryExpression `{GoTime} (fileSchema : string) (startDt endDt : Time)
    (latestOnly : string) (versioningDisabled : bool) : string * option GoError :=
  let sql := baseQuery in
  if versioningDisabled then (fst (ToSql sql), None)
  else
    match parseFileSchema fileSchema with
    | Err e => ("", Some e)
    | Ok fileSchemaMap =>
        match addLatestFilter fileSchema fileSchemaMap latestOnly sql with
        | Err e => ("", Some e)
        | Ok sql => ToSql (addDateFilter fileSchema fileSchemaMap startDt endDt sql)
        end
    end.

(** The predicates of the decision table of the filter expression builder,
    as data: what the specification says the expression contains. *)
Inductive Predicate :=
| LatestIs (col : string) (latest : bool)
| Between (col : string) (startDt endDt : Time)
| LessThan (col : string) (startDt : Time)
| GreaterThan (col : string) (endDt : Time).

Definition render `{GoTime} (p : Predicate) : string :=
  match p with
  | LatestIs col true => col +:+ " = 'true'"
  | LatestIs col false => col +:+ " = 'false'"
  | Between col s e => col +:+ " BETWEEN '" +:+ toISO s +:+ "' AND '" +:+ toISO e +:+ "'"
  | LessThan col s => col +:+ " < '" +:+ toISO s +:+ "'"
  | GreaterThan col e => col +:+ " > '" +:+ toISO e +:+ "'"
  end.

(** Tri-state reading of the latest-only selector. *)
Definition latest_predicate (latestCol : option string) (latestOnly : string) : list Predicate :=
  match latestCol with
  | Some col =>
      if String.eqb latestOnly IsLatestYes then [LatestIs col true]
      else if String.eqb latestOnly IsLatestNo then [LatestIs col false]
      else []
  | None => []
  end.

Definition date_predicate (updatedCol : option string) (startDt endDt : Time) : list Predicate :=
  match updatedCol with
  | Some col =>
      match IsZero startDt, IsZero endDt with
      | false, false => [Between col startDt endDt]
      | false, true => [LessThan col startDt]
      | true, false => [GreaterThan col endDt]
      | true, true => []
      end
  | None => []
  end.

Definition table_predicates (columns : gmap string string) (startDt endDt : Time)
    (latestOnly : string) : list Predicate :=
  latest_predicate (columns !! IsLatestColumn) latestOnly
  ++ date_predicate (columns !! LastUpdatedColumn) startDt endDt.

Definition expression_of `{GoTime} (preds : list Predicate) : string :=
  fst (ToSql {| sb_columns := ["s._1"; "s._2"]; sb_from := "s3object s";
                sb_where := map render preds |}).

(** Is the latest-only selector set? *)
Definition latest_requested (latestOnly : string) : bool :=
  (0 <? String.length (TrimSpace latestOnly))%nat.

(** ** The streaming record reader ([util.S3SelectReader]) *)

Inductive StreamEvent :=
| Records (payload : list Byte.byte)
| EndEvent
| OtherEvent.

Inductive IOError := ErrClosedPipe | EOF.

(** [Stream] holds the events that the channel will still deliver, in
    order; after the last one the channel is closed. *)
Record S3SelectReader := {
  Stream : list StreamEvent;
  remaining : list Byte.byte;
  closed : bool
}.

(** The [for] loop of [Read]: [lenb] is [len(b)], [out] the bytes copied
    into [b] so far ([totalBytesRead] is its length).  Each round consumes
    one event. *)
Fixpoint read_loop (events : list StreamEvent) (remaining : list Byte.byte)
    (lenb : nat) (out : list Byte.byte) : (list Byte.byte * option IOError) * S3SelectReader :=
  let n := Nat.min (lenb - length out) (length remaining) in
  let out1 := out ++ take n remaining in
  let remaining1 := drop n remaining in
  if (0 <? length remaining)%nat && (length out1 =? lenb)%nat then
    ((out1, None), {| Stream := events; remaining := remaining1; closed := false |})
  else
    match events with
    | [] =>
        let r := {| Stream := []; remaining := remaining1; closed := true |} in
        if (0 <? length out1)%nat then ((out1, None), r) else (([], Some EOF), r)
    | Records payload :: rest =>
        let n := Nat.min (lenb - length out1) (length payload) in
        let out2 := out1 ++ take n payload in
        let remaining2 := if (n <? length payload)%nat then drop n payload else remaining1 in
        if (length out2 =? lenb)%nat then
          ((out2, None), {| Stream := rest; remaining := remaining2; closed := false |})
        else read_loop rest remaining2 lenb out2
    | EndEvent :: rest =>
        let r := {| Stream := rest; remaining := remaining1; closed := false |} in
        if (0 <? length out1)%nat then ((out1, None), r) else (([], Some EOF), r)
    | OtherEvent :: rest => read_loop rest remaining1 lenb out1
    end.

(** [Read(b)] with [len(b) = lenb]: the bytes written to the front of [b]
    (their number is the [n] returned), the error, and the reader after the
    call. *)
Definition Read (r : S3SelectReader) (lenb : nat)
    : (list Byte.byte * option IOError) * S3SelectReader :=
  if closed r then (([], Some ErrClosedPipe), r)
  else read_loop (Stream r) (remaining r) lenb [].

(** ** Remote data *)

(** An inventory configuration as the store returns it and as the engine
    writes it. *)
Record InventoryConfiguration := {
  Id : string;
  IsEnabled : bool;
  Frequency : string;
  S3BucketDestination_Bucket : string;
  S3BucketDestination_Prefix : option string;
  S3BucketDestination_Format : string;
  IncludedObjectVersions : string;
  OptionalFields : list string
}.

Definition InventoryFrequencyDaily := "Daily".
Definition InventoryFrequencyWeekly := "Weekly".

(** A listed object; the store always fills in key and modification time.
    The object that [uploadS3File] builds has no modification time: it is
    the zero time here. *)
Record Object := {
  Key : string;
  LastModified : Time;
  ETag : string
}.

Record inventoryManifestFinderArgs := {
  BucketName : string;
  Prefix : string;
  DateWindow : Z
}.

Record manifestJson := {
  Files : list string;
  FileSchema : string
}.

Class GoJSON := { Unmarshal : string -> Res manifestJson }.

Record batchJobArgs := {
  AccountId : string;
  RoleArn : string;
  SourceBucketName : string;
  TargetBucketName : string;
  ManifestArn : option string;
  ManifestETag : option string;
  VersioningDisabled : bool
}.

Record userFilters := {
  StartDate : Time;
  EndDate : Time;
  LatestOnly : string;
  kmsID : string
}.

Record CreateJobInput := {
  cji_AccountId : string;
  cji_RoleArn : string;
  cji_TargetBucket : string;
  cji_ManifestArn : option string;
  cji_ManifestETag : option string;
  cji_VersioningDisabled : bool;
  cji_CannedAccessControlList : option string
}.

(** Modelled from the spec: [NewCreateJobInput] (its file is not part of the
    sources at hand).  A job specification holds the account, the execution
    role, the target location, the manifest reference and its integrity
    tag, the versioning flag, and no canned-ACL override to begin with. *)
Definition NewCreateJobInput (args : batchJobArgs) : CreateJobInput :=
  {| cji_AccountId := AccountId args;
     cji_RoleArn := RoleArn args;
     cji_TargetBucket := TargetBucketName args;
     cji_ManifestArn := ManifestArn args;
     cji_ManifestETag := ManifestETag args;
     cji_VersioningDisabled := VersioningDisabled args;
     cji_CannedAccessControlList := None |}.

Record jobInputParams := {
  versionJobParam : option CreateJobInput;
  nonVersionJobParam : option CreateJobInput
}.

Record MigrationArgs {F : Type} := {
  SourceRegion : string;
  AccountID : string;
  SourceBucket : string;
  MigrationRoleArn : string;
  DestinationBucket : string;
  RetryInterval : string;
  ConfigName : string;
  StartDt : Time;
  EndDt : Time;
  MigrationLatestOnly : string;
  KmsID : string;
  ReqSuccessThreshold : F
}.
Arguments MigrationArgs F : clear implicits.

(** [util.GetArn]. *)
Definition GetArn (s : string) : string := "arn:aws:s3:::" +:+ s.

(** [objectDateDescending]. *)
Definition objectDateDescending (a b : Object) : Z :=
  Compare (LastModified b) (LastModified a).

(** ** [slices.SortFunc]

    The library sorts in ascending order of [cmp] and promises no
    stability; nothing else is assumed of it.  [cmp] has to be a strict weak
    ordering, which is what [cmp_consistent] and [cmp_transitive] say. *)
Definition cmp_consistent {A} (cmp : A -> A -> Z) : Prop :=
  forall a b, 0 < cmp a b -> cmp b a < 0.
Definition cmp_transitive {A} (cmp : A -> A -> Z) : Prop :=
  forall a b c, cmp a b <= 0 -> cmp b c <= 0 -> cmp a c <= 0.

Class GoSlices := { SortFunc : forall {A}, list A -> (A -> A -> Z) -> list A }.

Definition SortFunc_permutes `{GoSlices} : Prop :=
  forall A (l : list A) cmp, Permutation l (SortFunc l cmp).

Definition SortFunc_sorts `{GoSlices} : Prop :=
  forall A (l : list A) cmp,
    cmp_consistent cmp -> cmp_transitive cmp ->
    StronglySorted (fun a b => cmp a b <= 0) (SortFunc l cmp).

(** Insertion sort, which is also what the library runs on short slices. *)
Fixpoint insert_sorted {A} (cmp : A -> A -> Z) (x : A) (l : list A) : list A :=
  match l with
  | [] => [x]
  | y :: l' => if cmp x y <=? 0 then x :: l else y :: insert_sorted cmp x l'
  end.

Definition insertion_sort {A} (l : list A) (cmp : A -> A -> Z) : list A :=
  foldr (insert_sorted cmp) [] l.

Definition insertionSlices : GoSlices := {| SortFunc := @insertion_sort |}.

(** ** Requests to the remote services and the history of a run *)

Record ListObjectsV2Input := {
  li_Bucket : string;
  li_Prefix : string;
  li_StartAfter : string
}.

Record SelectObjectContentInput := {
  si_Bucket : string;
  si_Key : string;
  si_Expression : string
}.

(** Which field of [jobInputParams] a job was created from. *)
Inductive JobSlot := NonVersionJob | VersionJob.

Inductive Event :=
| EvGetBucketVersioning (bucket : string)
| EvGetBucketInventoryConfiguration (bucket id : string)
| EvPutBucketInventoryConfiguration (bucket id : string) (cfg : InventoryConfiguration)
| EvListObjectsV2 (input : ListObjectsV2Input)
| EvGetObject (bucket key : string)
| EvSelectObjectContent (input : SelectObjectContentInput)
| EvUpload (bucket key : string) (body : S3SelectReader)
| EvHeadObject (bucket key : string)
| EvGetBucketOwnershipControls (bucket : string)
| EvCreateJob (slot : JobSlot) (input : CreateJobInput) (resp : Res string)
| EvDescribeJob (account jobId : string) (resp : Res DescribeJobOutput)
| EvSleep (d : Z).

Definition Trace := list Event.

(** The remote object store, the job-control service, the uploader and the
    clock.  Every answer may depend on everything that happened before. *)
Record Remote := {
  now : Trace -> Time;
  LoadDefaultConfig : string -> option GoError;
  GetBucketVersioning : Trace -> string -> Res string;
  GetBucketInventoryConfiguration :
    Trace -> string -> string -> option InventoryConfiguration * option GoError;
  PutBucketInventoryConfiguration :
    Trace -> string -> string -> InventoryConfiguration -> option GoError;
  ListObjectsV2 : Trace -> ListObjectsV2Input -> Res (list Object);
  (** the answer of [GetObject], and inside it what [io.ReadAll] makes of
      the body *)
  GetObject : Trace -> string -> string -> Res (Res string);
  SelectObjectContent : Trace -> SelectObjectContentInput -> Res (list StreamEvent);
  Upload : Trace -> string -> string -> S3SelectReader -> Res string;
  HeadObject : Trace -> string -> string -> Res string;
  GetBucketOwnershipControls : Trace -> string -> Res (list string);
  CreateJob : Trace -> CreateJobInput -> Res string;
  DescribeJob : Trace -> string -> string -> Res DescribeJobOutput
}.

(** ** Computations: a state monad over the history, with the ways a Go
    process stops early *)

Inductive Outcome (A : Type) :=
| Returned (a : A)
| Exited (message : string)      (* [zap.L().Fatal]: log, then [os.Exit(1)] *)
| Panicked (message : string)    (* run-time panic *)
| OutOfFuel.                     (* the bound on loop rounds was reached *)
Arguments Returned {A} a.
Arguments Exited {A} message.
Arguments Panicked {A} message.
Arguments OutOfFuel {A}.

Definition M (A : Type) : Type := Trace -> Outcome A * Trace.

Definition ret {A} (a : A) : M A := fun tr => (Returned a, tr).

Definition bind {A B} (m : M A) (k : A -> M B) : M B :=
  fun tr =>
    match m tr with
    | (Returned a, tr') => k a tr'
    | (Exited msg, tr') => (Exited msg, tr')
    | (Panicked msg, tr') => (Panicked msg, tr')
    | (OutOfFuel, tr') => (OutOfFuel, tr')
    end.

Declare Scope go_scope.
Delimit Scope go_scope with go.
Notation "'let*' x ':=' m 'in' k" := (bind m (fun x => k))
  (at level 10, x pattern, m at level 100, k at level 200, only parsing) : go_scope.
Notation "m ;;; k" := (bind m (fun _ => k))
  (at level 100, k at level 200, only parsing, right associativity) : go_scope.
Open Scope go_scope.

Definition Fatal {A} (message : string) : M A := fun tr => (Exited message, tr).
Definition panic {A} (message : string) : M A := fun tr => (Panicked message, tr).
Definition out_of_fuel {A} : M A := fun tr => (OutOfFuel, tr).

(** A remote call: ask the oracle, record the event. *)
Definition call {A} (answer : Trace -> A) (ev : A -> Event) : M A :=
  fun tr => let a := answer tr in (Returned a, tr ++ [ev a]).

Definition Sleep (d : Z) : M unit := call (fun _ => tt) (fun _ => EvSleep d).

(** ** The engine ([migration/s3copy.go]) *)

Definition inventoryConfigName := "bulk-copy-inventory".

(** The configuration that the engine creates or enables. *)
Definition defaultInventoryConfiguration (bucket : string) : InventoryConfiguration :=
  {| Id := inventoryConfigName;
     IsEnabled := true;
     Frequency := InventoryFrequencyDaily;
     S3BucketDestination_Bucket := GetArn bucket;
     S3BucketDestination_Prefix := None;
     S3BucketDestination_Format := "CSV";
     IncludedObjectVersions := "All";
     OptionalFields := ["LastModifiedDate"; "ReplicationStatus"; "Size"] |}.

(** The start of the look-back window of [getLatestManifest]:
    [time.Now().Add(time.Duration(DateWindow) * time.Hour * 48)]. *)
Definition windowStartOf (now : Time) (dateWindow : Z) : Time :=
  now + wrap64 (wrap64 (wrap64 dateWindow * Hour) * 48).

(** The candidates that [getLatestManifest] keeps. *)
Definition isCandidate (windowStart : Time) (obj : Object) : bool :=
  HasSuffix (Key obj) "manifest.json" && After (LastModified obj) windowStart.

Definition listFailed := "call to ListObjectsV2 failed".

(** The request that [getLatestManifest] sends: the keys under the prefix,
    after the prefix followed by the date of the window start. *)
Definition listInput `{GoTime} (finderArgs : inventoryManifestFinderArgs) (windowStart : Time)
    : ListObjectsV2Input :=
  let dateString := Format "2006-01-02" windowStart in
  let startAfter := Prefix finderArgs +:+ dateString in
  {| li_Bucket := BucketName finderArgs;
     li_Prefix := Prefix finderArgs;
     li_StartAfter := startAfter |}.

(** The two fatal messages of the threshold checks of [Run]: the one of the
    check between the two jobs, and the one of the final check. *)
Definition thresholdNotMetAtGate :=
  "Job Completed, failled to achieve required success threshold".
Definition thresholdNotMet :=
  "Job Completed, failed to achieve required success threshold".
Definition manifestNotFound :=
  "No inventory manifest found within timeout period, exiting copy process.".

Section Engine.

Context {F : Type} `{Float32 F} `{GoTime} `{GoJSON} `{GoSlices}.
Variable R : Remote.

(** The early returns of [ensureS3InventoryConfig] under [if err != nil]. *)
Definition inventoryLookupFailure (err : option GoError) (shouldUpdate : bool)
    : option GoError :=
  match err with
  | Some (APIError code msg) =>
      if negb (String.eqb code "NoSuchConfiguration") then err
      else if negb shouldUpdate then err
      else None
  | Some (PlainError _) => None
  | None => None
  end.

Definition ensureS3InventoryConfig (bucket configName : string) (shouldUpdate : bool)
    : M (option inventoryManifestFinderArgs * option GoError) :=
  let* (out, err) := call (fun tr => GetBucketInventoryConfiguration R tr bucket configName)
                      (fun _ => EvGetBucketInventoryConfiguration bucket configName) in
  match inventoryLookupFailure err shouldUpdate with
  | Some e => ret (None, Some e)
  | None =>
      let disabledForeign :=
        match out with
        | Some cfg => negb (IsEnabled cfg) && negb shouldUpdate
        | None => false
        end in
      if disabledForeign then
        ret (None, Some (PlainError ("non-default inventory config " +:+ configName
                                     +:+ " is disabled")))
      else
        let prefix := bucket +:+ "/" +:+ configName +:+ "/" in
        let createOrEnable :=
          (let* err := call (fun tr => PutBucketInventoryConfiguration R tr bucket inventoryConfigName
                                   (defaultInventoryConfiguration bucket))
                      (fun _ => EvPutBucketInventoryConfiguration bucket inventoryConfigName
                                   (defaultInventoryConfiguration bucket)) in
           ret (Some {| BucketName := bucket; Prefix := prefix; DateWindow := -1 |}, err)) in
        match out with
        | Some cfg =>
            if IsEnabled cfg then
              let dateWindow :=
                if String.eqb (Frequency cfg) InventoryFrequencyWeekly then -8 else -1 in
              let destinationArn := S3BucketDestination_Bucket cfg in
              let prefix :=
                match S3BucketDestination_Prefix cfg with
                | Some p => p +:+ "/" +:+ prefix
                | None => prefix
                end in
              ret (Some {| BucketName :=
                             slice_from destinationArn (LastIndex destinationArn ":" + 1);
                           Prefix := prefix;
                           DateWindow := dateWindow |}, None)
            else createOrEnable
        | None => createOrEnable
        end
  end.

Definition getLatestManifest (finderArgs : inventoryManifestFinderArgs)
    : M (option Object * option GoError) :=
  fun tr =>
    let windowStart := windowStartOf (now R tr) (DateWindow finderArgs) in
    let input := listInput finderArgs windowStart in
    (let* out := call (fun tr => ListObjectsV2 R tr input) (fun _ => EvListObjectsV2 input) in
     match out with
     | Err _ => Fatal listFailed
     | Ok contents =>
         let manifests := List.filter (isCandidate windowStart) contents in
         match manifests with
         | [] => ret (None, None)
         | _ :: _ =>
             match SortFunc manifests objectDateDescending with
             | first :: _ => ret (Some first, None)
             | [] => panic "index out of range [0] with length 0"
             end
         end
     end) tr.

Definition isVersioningDisabled (bucket : string) : M (bool * option GoError) :=
  let* out := call (fun tr => GetBucketVersioning R tr bucket)
              (fun _ => EvGetBucketVersioning bucket) in
  match out with
  | Err e => ret (false, Some e)
  | Ok status => ret (String.eqb status "", None)
  end.

Definition readInventoryManifest (bucket : string) (manifest : Object)
    : M (manifestJson * option GoError) :=
  let* out := call (fun tr => GetObject R tr bucket (Key manifest))
              (fun _ => EvGetObject bucket (Key manifest)) in
  match out with
  | Err e => ret ({| Files := []; FileSchema := "" |}, Some e)
  | Ok (Err _) => Fatal "error reading inventory manifest.json"
  | Ok (Ok body) =>
      match Unmarshal body with
      | Err _ => Fatal "inventory manifest.json is corrupt or malformed"
      | Ok manifestContent => ret (manifestContent, None)
      end
  end.

Definition filterGzippedCsv (bucket key expression : string) : M S3SelectReader :=
  let input := {| si_Bucket := bucket; si_Key := key; si_Expression := expression |} in
  let* out := call (fun tr => SelectObjectContent R tr input)
              (fun _ => EvSelectObjectContent input) in
  match out with
  | Err _ => Fatal "Error filtering CSV file with S3 Select"
  | Ok stream => ret {| Stream := stream; remaining := []; closed := false |}
  end.

Definition uploadS3File (bucket key : string) (reader : S3SelectReader)
    : M (option Object * option GoError) :=
  let* result := call (fun tr => Upload R tr bucket key reader)
                 (fun _ => EvUpload bucket key reader) in
  match result with
  | Err _ => Fatal "failed to upload filtered inventory file"
  | Ok _ =>
      let* out := call (fun tr => HeadObject R tr bucket key) (fun _ => EvHeadObject bucket key) in
      match out with
      | Err _ => Fatal "failed to get ETag for uploaded file"
      | Ok etag => ret (Some {| Key := key; LastModified := 0; ETag := etag |}, None)
      end
  end.

(** The key under which [filterManifestCsv] uploads the filtered file. *)
Definition filteredKey (csvFile : string) : string := TrimSuffix csvFile ".gz".

Definition filterManifestCsv (args : batchJobArgs) (manifest : Object) (filters : userFilters)
    : M (option Object * option GoError) :=
  let* (manifestJson, err) := readInventoryManifest (SourceBucketName args) manifest in
  match err with
  | Some e => ret (Some {| Key := ""; LastModified := 0; ETag := "" |}, Some e)
  | None =>
      match Files manifestJson with
      | [] => panic "index out of range [0] with length 0"
      | csvFile :: _ =>
          match GetQueryExpression (FileSchema manifestJson) (StartDate filters)
                  (EndDate filters) (LatestOnly filters) (VersioningDisabled args) with
          | (_, Some e) => ret (None, Some e)
          | (bucketAndKeyExpression, None) =>
              let* rdr := filterGzippedCsv (SourceBucketName args) csvFile bucketAndKeyExpression in
              let key := filteredKey csvFile in
              uploadS3File (SourceBucketName args) key rdr
          end
      end
  end.

Definition isOwnershipEnforced (bucket : string) : M (bool * option GoError) :=
  let* out := call (fun tr => GetBucketOwnershipControls R tr bucket)
              (fun _ => EvGetBucketOwnershipControls bucket) in
  match out with
  | Err e => ret (false, Some e)
  | Ok rules => ret (existsb (fun rule => String.eqb rule "BucketOwnerEnforced") rules, None)
  end.

Definition withLatestOnly (filters : userFilters) (latestOnly : string) : userFilters :=
  {| StartDate := StartDate filters; EndDate := EndDate filters;
     LatestOnly := latestOnly; kmsID := kmsID filters |}.

(** The closure [createJobInput] of [getJobParams].  It writes the manifest
    reference into the caller's [jobArgs]; the updated arguments are
    returned next to the job specification. *)
Definition createJobInput (manifestFile : Object) (jobArgs : batchJobArgs)
    (filters : userFilters) : M (CreateJobInput * batchJobArgs) :=
  let* (manifest, err) := filterManifestCsv jobArgs manifestFile filters in
  match err, manifest with
  | Some _, _ => Fatal "Failed to create filtered manifest file"
  | None, None => panic "invalid memory address or nil pointer dereference"
  | None, Some manifest =>
      let manifestObjectArn := GetArn (SourceBucketName jobArgs +:+ "/" +:+ Key manifest) in
      let jobArgs :=
        {| AccountId := AccountId jobArgs; RoleArn := RoleArn jobArgs;
           SourceBucketName := SourceBucketName jobArgs;
           TargetBucketName := TargetBucketName jobArgs;
           ManifestArn := Some manifestObjectArn;
           ManifestETag := Some (ETag manifest);
           VersioningDisabled := VersioningDisabled jobArgs |} in
      let jobInputs := NewCreateJobInput jobArgs in
      let* (enforced, err) := isOwnershipEnforced (TargetBucketName jobArgs) in
      match err with
      | None =>
          if enforced then
            ret ({| cji_AccountId := cji_AccountId jobInputs;
                    cji_RoleArn := cji_RoleArn jobInputs;
                    cji_TargetBucket := cji_TargetBucket jobInputs;
                    cji_ManifestArn := cji_ManifestArn jobInputs;
                    cji_ManifestETag := cji_ManifestETag jobInputs;
                    cji_VersioningDisabled := cji_VersioningDisabled jobInputs;
                    cji_CannedAccessControlList := Some "bucket-owner-full-control" |},
                 jobArgs)
          else ret (jobInputs, jobArgs)
      | Some _ => ret (jobInputs, jobArgs)
      end
  end.

Definition getJobParams (manifestFile : Object) (jobArgs : batchJobArgs)
    (filters : userFilters) : M (jobInputParams * option GoError) :=
  if VersioningDisabled jobArgs then
    let* (p, _) := createJobInput manifestFile jobArgs filters in
    ret ({| versionJobParam := None; nonVersionJobParam := Some p |}, None)
  else if String.eqb (LatestOnly filters) "Yes" then
    let* (p, _) := createJobInput manifestFile jobArgs filters in
    ret ({| versionJobParam := Some p; nonVersionJobParam := None |}, None)
  else
    let* (pv, jobArgs) := createJobInput manifestFile jobArgs (withLatestOnly filters "Yes") in
    let* (pn, _) := createJobInput manifestFile jobArgs (withLatestOnly filters "No") in
    ret ({| versionJobParam := Some pv; nonVersionJobParam := Some pn |}, None).

(** The [for] loop of [pollJobResult]; [fuel] bounds its rounds. *)
Fixpoint poll_loop (fuel : nat) (accountID jobId : string)
    : M (option DescribeJobOutput * option GoError) :=
  match fuel with
  | O => out_of_fuel
  | S fuel' =>
      let* jobStatus := call (fun tr => DescribeJob R tr accountID jobId)
                        (fun resp => EvDescribeJob accountID jobId resp) in
      match jobStatus with
      | Err e => ret (None, Some e)
      | Ok jobStatus =>
          if IsTerminal (Status jobStatus) then ret (Some jobStatus, None)
          else Sleep (60 * Second) ;;; poll_loop fuel' accountID jobId
      end
  end.

Definition pollJobResult (fuel : nat) (accountID jobId : string)
    : M (option DescribeJobOutput * option GoError) :=
  Sleep (15 * Second) ;;; poll_loop fuel accountID jobId.

(** The manifest discovery loop of [Run]; [ctr] is the retry counter, an
    [int16] that never exceeds 24. *)
Fixpoint discover (fuel : nat) (manifestArgs : inventoryManifestFinderArgs)
    (duration : Z) (ctr : Z) : M Object :=
  match fuel with
  | O => out_of_fuel
  | S fuel' =>
      let* (manifestFile, merr) := getLatestManifest manifestArgs in
      match merr, manifestFile with
      | Some _, _ => discover fuel' manifestArgs duration ctr
      | None, Some manifestFile => ret manifestFile
      | None, None =>
          if 23 <? ctr then Fatal manifestNotFound
          else
            let ctr := ctr + 1 in
            Sleep duration ;;; discover fuel' manifestArgs duration ctr
      end
  end.

(** Create one job and poll it to the end. *)
Definition submitAndPoll (fuel : nat) (slot : JobSlot) (accountID : string)
    (param : CreateJobInput) : M (option DescribeJobOutput) :=
  let* jobOutParam := call (fun tr => CreateJob R tr param) (fun resp => EvCreateJob slot param resp) in
  match jobOutParam with
  | Err _ => Fatal "Failed to create batch job"
  | Ok jobId =>
      let* (result, err) := pollJobResult fuel accountID jobId in
      match err with
      | Some _ => Fatal "Failed to get job status"
      | None => ret result
      end
  end.

(** The part of [Run] after the job specifications are built. *)
Definition runJobs (fuel : nat) (accountID : string) (req : F) (jobParams : jobInputParams)
    : M (option GoError) :=
  let* nonVersionJobResult :=
    match nonVersionJobParam jobParams with
    | Some param => submitAndPoll fuel NonVersionJob accountID param
    | None => ret None
    end in
  let* versionJobResult :=
    match versionJobParam jobParams with
    | Some param =>
        match nonVersionJobParam jobParams, nonVersionJobResult with
        | Some _, Some result =>
            let jobSuccessThreshold := GetJobSuccessThreshold [Some result] in
            if f32_ltb jobSuccessThreshold req then Fatal thresholdNotMetAtGate else ret tt
        | _, _ => ret tt
        end ;;;
        submitAndPoll fuel VersionJob accountID param
    | None => ret None
    end in
  let jobSuccessThreshold := GetJobSuccessThreshold [nonVersionJobResult; versionJobResult] in
  if f32_ltb jobSuccessThreshold req then Fatal thresholdNotMet else ret None.

Definition Run (fuel : nat) (args : MigrationArgs F) : M (option GoError) :=
  match LoadDefaultConfig R (SourceRegion args) with
  | Some _ => Fatal "Failed to load AWS client config"
  | None =>
      let* (versioningDisabled, verr) := isVersioningDisabled (SourceBucket args) in
      match verr with
      | Some _ => Fatal "Failed to get versioning status"
      | None =>
          let shouldUpdate := String.eqb (ConfigName args) inventoryConfigName in
          let* (manifestArgs, invErr) :=
            ensureS3InventoryConfig (SourceBucket args) (ConfigName args) shouldUpdate in
          match invErr, manifestArgs with
          | Some _, _ => Fatal "Failed to get inventory config"
          | None, None => panic "invalid memory address or nil pointer dereference"
          | None, Some manifestArgs =>
              let duration :=
                match ParseDuration (RetryInterval args) with
                | Ok d => d
                | Err _ => 0
                end in
              let* manifestFile := discover fuel manifestArgs duration 0 in
              let nonDefaultArgs :=
                {| AccountId := AccountID args; RoleArn := MigrationRoleArn args;
                   SourceBucketName := SourceBucket args;
                   TargetBucketName := DestinationBucket args;
                   ManifestArn := None; ManifestETag := None;
                   VersioningDisabled := versioningDisabled |} in
              let filters :=
                {| StartDate := StartDt args; EndDate := EndDt args;
                   LatestOnly := MigrationLatestOnly args; kmsID := KmsID args |} in
              let* (jobParams, err) := getJobParams manifestFile nonDefaultArgs filters in
              match err with
              | Some _ => Fatal "Failed to create batch parameters"
              | None => runJobs fuel (AccountID args) (ReqSuccessThreshold args) jobParams
              end
          end
      end
  end.

End Engine.

(** ** Observations on a history *)

Definition isPut (ev : Event) : bool :=
  match ev with EvPutBucketInventoryConfiguration _ _ _ => true | _ => false end.

(** The number of create/enable writes of the inventory configuration. *)
Definition puts (tr : Trace) : nat := length (List.filter isPut tr).
Arguments puts !tr /.

Definition isCreateJob (ev : Event) : bool :=
  match ev with EvCreateJob _ _ _ => true | _ => false end.

Definition isJobEvent (ev : Event) : bool :=
  match ev with EvCreateJob _ _ _ | EvDescribeJob _ _ _ => true | _ => false end.

Definition isSleep (ev : Event) : bool :=
  match ev with EvSleep _ => true | _ => false end.

Definition isList (ev : Event) : bool :=
  match ev with EvListObjectsV2 _ => true | _ => false end.

(** The durations of the sleeps, in order. *)
Definition sleeps (tr : Trace) : list Z :=
  omap (fun ev => match ev with EvSleep d => Some d | _ => None end) tr.

(** The expressions of the filtered queries, in order. *)
Definition selectExpressions (tr : Trace) : list string :=
  omap (fun ev => match ev with
                  | EvSelectObjectContent input => Some (si_Expression input)
                  | _ => None
                  end) tr.

(** The keys of the uploads, in order. *)
Definition uploadKeys (tr : Trace) : list string :=
  omap (fun ev => match ev with EvUpload _ key _ => Some key | _ => None end) tr.

(** Neither a write of the inventory configuration nor a job request. *)
Definition quiet (ev : Event) : Prop := isPut ev = false /\ isJobEvent ev = false.

(** A computation that only appends events satisfying [P] to the history. *)
Definition emits {A} (P : Event -> Prop) (m : M A) : Prop :=
  forall tr, exists evs, snd (m tr) = tr ++ evs /\ Forall P evs.

(** *** The shape of the history of a job

    [polling accountID jobId evs]: [evs] are rounds of the polling loop that
    found the job still running, each followed by the sixty seconds of
    sleep. *)
Inductive polling (accountID jobId : string) : list Event -> Prop :=
| polling_done : polling accountID jobId []
| polling_round r evs :
    IsTerminal (Status r) = false ->
    polling accountID jobId evs ->
    polling accountID jobId
      (EvDescribeJob accountID jobId (Ok r) :: EvSleep (60 * Second) :: evs).

(** [job_run slot accountID param out evs]: what creating a job and polling
    it appends to the history, and how it ends. *)
Inductive job_run (slot : JobSlot) (accountID : string) (param : CreateJobInput)
    : Outcome (option DescribeJobOutput) -> list Event -> Prop :=
| job_not_created e :
    job_run slot accountID param (Exited "Failed to create batch job")
      [EvCreateJob slot param (Err e)]
| job_unfinished jobId evs :
    polling accountID jobId evs ->
    job_run slot accountID param OutOfFuel
      (EvCreateJob slot param (Ok jobId) :: EvSleep (15 * Second) :: evs)
| job_poll_failed jobId evs e :
    polling accountID jobId evs ->
    job_run slot accountID param (Exited "Failed to get job status")
      (EvCreateJob slot param (Ok jobId) :: EvSleep (15 * Second)
         :: evs ++ [EvDescribeJob accountID jobId (Err e)])
| job_finished jobId evs r :
    polling accountID jobId evs ->
    IsTerminal (Status r) = true ->
    job_run slot accountID param (Returned (Some r))
      (EvCreateJob slot param (Ok jobId) :: EvSleep (15 * Second)
         :: evs ++ [EvDescribeJob accountID jobId (Ok r)]).

Definition isVersionCreate (ev : Event) : bool :=
  match ev with EvCreateJob VersionJob _ _ => true | _ => false end.

Definition isNonVersionCreate (ev : Event) : bool :=
  match ev with EvCreateJob NonVersionJob _ _ => true | _ => false end.

(** An answer of the job-control service that shows the job in a terminal
    state. *)
Definition isTerminalAnswer (ev : Event) : bool :=
  match ev with
  | EvDescribeJob _ _ (Ok r) => IsTerminal (Status r)
  | _ => false
  end.

(** [dual_run accountID req pv pn out evs]: the histories of the job part
    of a run that has both job specifications, [pn] for the non-latest
    versions and [pv] for the latest ones. *)
Inductive dual_run {F} `{Float32 F} (accountID : string) (req : F) (pv pn : CreateJobInput)
    : Outcome (option GoError) -> list Event -> Prop :=
| dual_nonlatest_stopped o out evs :
    job_run NonVersionJob accountID pn o evs ->
    (forall r, o <> Returned r) ->
    (forall e, out <> Returned e) ->
    dual_run accountID req pv pn out evs
| dual_below_threshold r evs :
    job_run NonVersionJob accountID pn (Returned (Some r)) evs ->
    f32_ltb (GetJobSuccessThreshold [Some r]) req = true ->
    dual_run accountID req pv pn (Exited thresholdNotMetAtGate) evs
| dual_latest_submitted r evs1 o evs2 out :
    job_run NonVersionJob accountID pn (Returned (Some r)) evs1 ->
    f32_ltb (GetJobSuccessThreshold [Some r]) req = false ->
    job_run VersionJob accountID pv o evs2 ->
    dual_run accountID req pv pn out (evs1 ++ evs2).

(** *** The ordering policy of the two jobs, as properties of a history

    [latest_after_nonlatest accountID req tr]: wherever [tr] shows the
    creation of the latest-version job, what precedes it ends with the
    creation of the non-latest-version job, the rounds of its polling, and
    its terminal answer, whose own success ratio is not below [req]. *)
Definition latest_after_nonlatest {F} `{Float32 F} (accountID : string) (req : F)
    (tr : Trace) : Prop :=
  forall pre pv resp post,
    tr = pre ++ EvCreateJob VersionJob pv resp :: post ->
    exists pre0 pn jobId polls r,
      pre = pre0 ++ EvCreateJob NonVersionJob pn (Ok jobId) :: EvSleep (15 * Second)
              :: polls ++ [EvDescribeJob accountID jobId (Ok r)]
      /\ polling accountID jobId polls
      /\ IsTerminal (Status r) = true
      /\ f32_ltb (GetJobSuccessThreshold [Some r]) req = false.

(** [stops_below_threshold req out tr]: if the first terminal answer after
    the creation of the non-latest-version job shows a success ratio below
    [req], the history ends with that answer, the run ends with the
    threshold error of the gate, and the latest-version job is created
    nowhere. *)
Definition stops_below_threshold {F} `{Float32 F} (req : F)
    (out : Outcome (option GoError)) (tr : Trace) : Prop :=
  forall pre pn jobId mid accountID jobId' r post,
    tr = pre ++ EvCreateJob NonVersionJob pn (Ok jobId)
           :: mid ++ EvDescribeJob accountID jobId' (Ok r) :: post ->
    Forall (fun ev => isTerminalAnswer ev = false) mid ->
    IsTerminal (Status r) = true ->
    f32_ltb (GetJobSuccessThreshold [Some r]) req = true ->
    out = Exited thresholdNotMetAtGate
    /\ post = []
    /\ Forall (fun ev => isVersionCreate ev = false) tr.

(** The look-back span as the specification words it: eight days for a
    weekly schedule, and the two-day unit for any other. *)
Definition spec_lookback (frequency : string) : Z :=
  if String.eqb frequency InventoryFrequencyWeekly then 8 * (24 * Hour) else 2 * (24 * Hour).

(** ** Concrete runtimes and remote services, for the examples *)

(** A calendar for [Format] (proleptic Gregorian, UTC) with the two layouts
    the engine uses, and [ParseDuration] for a whole number of hours, minutes
    or seconds. *)
Definition pad2 (n : Z) : string :=
  (if n <? 10 then "0" else "") +:+ itoa (Z.to_nat n).

Definition pad4 (n : Z) : string :=
  (if n <? 10 then "000" else if n <? 100 then "00" else if n <? 1000 then "0" else "")
  +:+ itoa (Z.to_nat n).

Definition civil_of_days (days : Z) : Z * Z * Z :=
  let z := days + 306 in
  let era := z / 146097 in
  let doe := z - era * 146097 in
  let yoe := (doe - doe / 1460 + doe / 36524 - doe / 146096) / 365 in
  let doy := doe - (365 * yoe + yoe / 4 - yoe / 100) in
  let mp := (5 * doy + 2) / 153 in
  let d := doy - (153 * mp + 2) / 5 + 1 in
  let m := if mp <? 10 then mp + 3 else mp - 9 in
  (yoe + era * 400 + (if m <=? 2 then 1 else 0), m, d).

Definition format_date (t : Time) : string :=
  let '(y, m, d) := civil_of_days (t / (24 * Hour)) in
  pad4 y +:+ "-" +:+ pad2 m +:+ "-" +:+ pad2 d.

Definition format_clock (t : Time) : string :=
  let secs := (t / Second) mod 86400 in
  pad2 (secs / 3600) +:+ ":" +:+ pad2 ((secs / 60) mod 60) +:+ ":" +:+ pad2 (secs mod 60).

Definition digit_of (a : ascii) : option Z :=
  let n := Z.of_nat (nat_of_ascii a) in
  if (48 <=? n) && (n <=? 57) then Some (n - 48) else None.

Fixpoint parse_duration (l : list ascii) (acc : Z) (seen : bool) : Res Z :=
  match l with
  | [] => Err (PlainError "time: missing unit in duration")
  | a :: rest =>
      match digit_of a with
      | Some d => parse_duration rest (10 * acc + d) true
      | None =>
          if negb seen then Err (PlainError "time: invalid duration")
          else if String.eqb (of_list l) "h" then Ok (acc * Hour)
          else if String.eqb (of_list l) "m" then Ok (acc * 60 * Second)
          else if String.eqb (of_list l) "s" then Ok (acc * Second)
          else Err (PlainError "time: unknown unit in duration")
      end
  end.

Definition simpleTime : GoTime :=
  {| Format := fun layout t =>
       if String.eqb layout "2006-01-02" then format_date t
       else if String.eqb layout "2006-01-02T15:04:05"
            then format_date t +:+ "T" +:+ format_clock t
            else layout;
     ParseDuration := fun s => parse_duration (to_list s) 0 false |}.

(** A manifest reader that knows one document, the one of the repository's
    mock store. *)
Definition sampleManifestBody : string := "{fileSchema, files}".

Definition sampleManifest : manifestJson :=
  {| Files := ["testsurcebucket/put-bucket-inventory-configuration/data/573a77fc-0397-4005-96d6-13a758a7635a.csv.gz"];
     FileSchema := "Bucket, Key, VersionId, IsLatest, IsDeleteMarker" |}.

Definition sampleJSON : GoJSON :=
  {| Unmarshal := fun body =>
       if String.eqb body sampleManifestBody then Ok sampleManifest
       else Err (PlainError "invalid character") |}.

(** Midday of 2024-04-26, in nanoseconds since the zero time. *)
Definition sampleNow : Time := (739001 * 24 + 12) * Hour.

Definition sampleFinder : inventoryManifestFinderArgs :=
  {| BucketName := "testsurcebucket";
     Prefix := "testsurcebucket/bulk-copy-inventory/";
     DateWindow := -1 |}.

Definition sampleListing : list Object :=
  [ {| Key := "testsurcebucket/bulk-copy-inventory/2024-04-25T01-00Z/manifest.json";
       LastModified := sampleNow - 30 * Hour; ETag := "e1" |};
    {| Key := "testsurcebucket/bulk-copy-inventory/2024-04-26T01-00Z/manifest.checksum";
       LastModified := sampleNow - 1 * Hour; ETag := "e2" |};
    {| Key := "testsurcebucket/bulk-copy-inventory/2024-04-26T01-00Z/manifest.json";
       LastModified := sampleNow - 6 * Hour; ETag := "e3" |};
    {| Key := "testsurcebucket/bulk-copy-inventory/2024-04-20T01-00Z/manifest.json";
       LastModified := sampleNow - 150 * Hour; ETag := "e4" |} ].

Definition sampleJobOutput (jobId : string) (succeeded total : Z) : DescribeJobOutput :=
  {| JobId := jobId; JobArn := "arn:aws:s3:us-east-1:111111111111:job/" +:+ jobId;
     Status := JobStatusComplete;
     ProgressSummary := {| NumberOfTasksFailed := total - succeeded;
                           NumberOfTasksSucceeded := succeeded;
                           TotalNumberOfTasks := total |} |}.

Definition weeklyConfiguration : InventoryConfiguration :=
  {| Id := "weekly-inventory";
     IsEnabled := true;
     Frequency := InventoryFrequencyWeekly;
     S3BucketDestination_Bucket := "arn:aws:s3:::inventorybucket-test1";
     S3BucketDestination_Prefix := None;
     S3BucketDestination_Format := "CSV";
     IncludedObjectVersions := "All";
     OptionalFields := [] |}.

(** A store with a versioned bucket, an enabled weekly inventory, the
    listing above, the sample manifest, and jobs that finish at the first
    poll: the first job created with 1 of 10 tasks succeeded, any later job
    with all of its 10. *)
Definition jobsCreated (tr : Trace) : nat :=
  length (List.filter (fun ev => match ev with EvCreateJob _ _ _ => true | _ => false end) tr).

Definition sampleRemote : Remote :=
  {| now := fun _ => sampleNow;
     LoadDefaultConfig := fun _ => None;
     GetBucketVersioning := fun _ _ => Ok "Enabled";
     GetBucketInventoryConfiguration := fun _ _ _ => (Some weeklyConfiguration, None);
     PutBucketInventoryConfiguration := fun _ _ _ _ => None;
     ListObjectsV2 := fun _ _ => Ok sampleListing;
     GetObject := fun _ _ _ => Ok (Ok sampleManifestBody);
     SelectObjectContent := fun _ _ => Ok [Records []; EndEvent];
     Upload := fun _ _ key _ => Ok key;
     HeadObject := fun _ _ _ => Ok "etag";
     GetBucketOwnershipControls := fun _ _ => Ok [];
     CreateJob := fun tr _ => Ok (if (jobsCreated tr =? 0)%nat then "job-1" else "job-2");
     DescribeJob := fun _ _ jobId =>
       Ok (sampleJobOutput jobId (if String.eqb jobId "job-1" then 1 else 10) 10) |}.

(** The same store when listing fails, and when no manifest has been
    delivered yet. *)
Definition withListing (R : Remote) (listing : Trace -> ListObjectsV2Input -> Res (list Object))
    : Remote :=
  {| now := now R;
     LoadDefaultConfig := LoadDefaultConfig R;
     GetBucketVersioning := GetBucketVersioning R;
     GetBucketInventoryConfiguration := GetBucketInventoryConfiguration R;
     PutBucketInventoryConfiguration := PutBucketInventoryConfiguration R;
     ListObjectsV2 := listing;
     GetObject := GetObject R;
     SelectObjectContent := SelectObjectContent R;
     Upload := Upload R;
     HeadObject := HeadObject R;
     GetBucketOwnershipControls := GetBucketOwnershipControls R;
     CreateJob := CreateJob R;
     DescribeJob := DescribeJob R |}.

Definition unreachableRemote : Remote :=
  withListing sampleRemote (fun _ _ => Err (PlainError "dial tcp: i/o timeout")).

Definition emptyRemote : Remote :=
  withListing sampleRemote (fun _ _ => Ok []).

(** The same store when every job succeeds in full. *)
Definition passingRemote : Remote :=
  {| now := now sampleRemote;
     LoadDefaultConfig := LoadDefaultConfig sampleRemote;
     GetBucketVersioning := GetBucketVersioning sampleRemote;
     GetBucketInventoryConfiguration := GetBucketInventoryConfiguration sampleRemote;
     PutBucketInventoryConfiguration := PutBucketInventoryConfiguration sampleRemote;
     ListObjectsV2 := ListObjectsV2 sampleRemote;
     GetObject := GetObject sampleRemote;
     SelectObjectContent := SelectObjectContent sampleRemote;
     Upload := Upload sampleRemote;
     HeadObject := HeadObject sampleRemote;
     GetBucketOwnershipControls := GetBucketOwnershipControls sampleRemote;
     CreateJob := CreateJob sampleRemote;
     DescribeJob := fun _ _ jobId => Ok (sampleJobOutput jobId 10 10) |}.

Definition sampleJobArgs : batchJobArgs :=
  {| AccountId := "111111111111";
     RoleArn := "arn:aws:iam::111111111111:role/S3BatchCopyAdmin";
     SourceBucketName := "testsurcebucket";
     TargetBucketName := "dummy-target";
     ManifestArn := None;
     ManifestETag := None;
     VersioningDisabled := false |}.

Definition sampleFilters : userFilters :=
  {| StartDate := 0; EndDate := 0; LatestOnly := ""; kmsID := "SSE-S3" |}.

Definition sampleManifestObject : Object :=
  {| Key := "testsurcebucket/bulk-copy-inventory/2024-04-26T01-00Z/manifest.json";
     LastModified := sampleNow - 6 * Hour; ETag := "e3" |}.

Definition sampleJobInput : CreateJobInput :=
  {| cji_AccountId := "111111111111";
     cji_RoleArn := "arn:aws:iam::111111111111:role/S3BatchCopyAdmin";
     cji_TargetBucket := "dummy-target";
     cji_ManifestArn :=
       Some "arn:aws:s3:::testsurcebucket/testsurcebucket/put-bucket-inventory-configuration/data/573a77fc-0397-4005-96d6-13a758a7635a.csv";
     cji_ManifestETag := Some "etag";
     cji_VersioningDisabled := false;
     cji_CannedAccessControlList := None |}.

(** The slots of the jobs created in a history, in order. *)
Definition createdSlots (tr : Trace) : list JobSlot :=
  omap (fun ev => match ev with EvCreateJob slot _ _ => Some slot | _ => None end) tr.

(** The mock store of the repository's tests: no inventory configuration is
    returned (and no error either), versioning reports a status, and the
    listing is the one the test supplies. *)
Definition mockRemote (listObjectsV2Output : list Object) : Remote :=
  {| now := now sampleRemote;
     LoadDefaultConfig := LoadDefaultConfig sampleRemote;
     GetBucketVersioning := fun _ _ => Ok "Disabled";
     GetBucketInventoryConfiguration := fun _ _ _ => (None, None);
     PutBucketInventoryConfiguration := fun _ _ _ _ => None;
     ListObjectsV2 := fun _ _ => Ok listObjectsV2Output;
     GetObject := GetObject sampleRemote;
     SelectObjectContent := SelectObjectContent sampleRemote;
     Upload := Upload sampleRemote;
     HeadObject := HeadObject sampleRemote;
     GetBucketOwnershipControls := GetBucketOwnershipControls sampleRemote;
     CreateJob := CreateJob sampleRemote;
     DescribeJob := DescribeJob sampleRemote |}.

Definition sampleArgs : MigrationArgs Q :=
  {| SourceRegion := "us-east-1";
     AccountID := "111111111111";
     SourceBucket := "testsurcebucket";
     MigrationRoleArn := "arn:aws:iam::111111111111:role/S3BatchCopyAdmin";
     DestinationBucket := "dummy-target";
     RetryInterval := "1h";
     ConfigName := "weekly-inventory";
     StartDt := 0;
     EndDt := 0;
     MigrationLatestOnly := "";
     KmsID := "SSE-S3";
     ReqSuccessThreshold := (8 # 10)%Q |}.

(** ** Further observations: the bytes a reader still owes *)

(** The payloads of the record events of a stream, in order. *)
Definition payloads (events : list StreamEvent) : list Byte.byte :=
  concat (omap (fun ev => match ev with Records payload => Some payload | _ => None end)
               events).

(** Everything a reader has not handed out yet: the buffered remainder and
    the payloads still on the channel. *)
Definition pending (r : S3SelectReader) : list Byte.byte :=
  remaining r ++ payloads (Stream r).

Definition isEnd (ev : StreamEvent) : bool :=
  match ev with EndEvent => true | _ => false end.

(** Successive calls of [Read] on one reader, with buffers of the given
    lengths, whatever each call reports: the bytes handed out, in order,
    and the reader after the last call. *)
Fixpoint reads (r : S3SelectReader) (lens : list nat) : list Byte.byte * S3SelectReader :=
  match lens with
  | [] => ([], r)
  | lenb :: rest =>
      let '((out, _), r1) := Read r lenb in
      let '(more, r2) := reads r1 rest in
      (out ++ more, r2)
  end.

(** A reader as [filterGzippedCsv] builds it: the stream alone. *)
Definition newReader (events : list StreamEvent) : S3SelectReader :=
  {| Stream := events; remaining := []; closed := false |}.

Definition sampleStream : list StreamEvent :=
  [Records [Byte.x61; Byte.x2c; Byte.x62; Byte.x0a; Byte.x63]; OtherEvent;
   Records [Byte.x2c; Byte.x64; Byte.x0a]; OtherEvent].

(** ** Further observations: the job that decides the success ratio *)

(** The last job of the list that the loop of [GetJobSuccessThreshold] does
    not skip: not [nil], with at least one task. *)
Fixpoint last_counted (jobs : list (option DescribeJobOutput)) : option DescribeJobOutput :=
  match jobs with
  | [] => None
  | job :: rest =>
      match last_counted rest with
      | Some j => Some j
      | None => if counted job then job else None
      end
  end.

(** The sample store before the engine has run on a bucket: the inventory
    configuration does not exist, which the store reports as an API
    error. *)
Definition freshRemote : Remote :=
  {| now := now sampleRemote;
     LoadDefaultConfig := LoadDefaultConfig sampleRemote;
     GetBucketVersioning := GetBucketVersioning sampleRemote;
     GetBucketInventoryConfiguration := fun _ _ _ =>
       (None, Some (APIError "NoSuchConfiguration"
                      "The specified configuration does not exist."));
     PutBucketInventoryConfiguration := PutBucketInventoryConfiguration sampleRemote;
     ListObjectsV2 := ListObjectsV2 sampleRemote;
     GetObject := GetObject sampleRemote;
     SelectObjectContent := SelectObjectContent sampleRemote;
     Upload := Upload sampleRemote;
     HeadObject := HeadObject sampleRemote;
     GetBucketOwnershipControls := GetBucketOwnershipControls sampleRemote;
     CreateJob := CreateJob sampleRemote;
     DescribeJob := DescribeJob sampleRemote |}.

(** The same store when the lookup of the configuration fails below the
    API, and when it holds the configuration that the engine writes. *)
Definition withInventory (R : Remote)
    (lookup : Trace -> string -> string -> option InventoryConfiguration * option GoError)
    : Remote :=
  {| now := now R;
     LoadDefaultConfig := LoadDefaultConfig R;
     GetBucketVersioning := GetBucketVersioning R;
     GetBucketInventoryConfiguration := lookup;
     PutBucketInventoryConfiguration := PutBucketInventoryConfiguration R;
     ListObjectsV2 := ListObjectsV2 R;
     GetObject := GetObject R;
     SelectObjectContent := SelectObjectContent R;
     Upload := Upload R;
     HeadObject := HeadObject R;
     GetBucketOwnershipControls := GetBucketOwnershipControls R;
     CreateJob := CreateJob R;
     DescribeJob := DescribeJob R |}.

Definition offlineRemote : Remote :=
  withInventory sampleRemote (fun _ _ _ => (None, Some (PlainError "dial tcp: i/o timeout"))).

Definition preparedRemote : Remote :=
  withInventory sampleRemote
    (fun _ bucket _ => (Some (defaultInventoryConfiguration bucket), None)).

(** The answers that show a job in a terminal state, in order. *)
Definition terminalAnswers (tr : Trace) : list DescribeJobOutput :=
  omap (fun ev => match ev with
                  | EvDescribeJob _ _ (Ok r) => if IsTerminal (Status r) then Some r else None
                  | _ => None
                  end) tr.

(** The jobs that a set of job specifications asks for, in the order in
    which [Run] creates them. *)
Definition slotsOf (jobParams : jobInputParams) : list JobSlot :=
  match nonVersionJobParam jobParams with Some _ => [NonVersionJob] | None => [] end
  ++ match versionJobParam jobParams with Some _ => [VersionJob] | None => [] end.

(** The jobs of a run, by the versioning of the source bucket and the
    latest-only selector, as the branches of [getJobParams] choose them. *)
Definition plannedSlots (versioningDisabled : bool) (latestOnly : string) : list JobSlot :=
  if versioningDisabled then [NonVersionJob]
  else if String.eqb latestOnly "Yes" then [VersionJob]
  else [NonVersionJob; VersionJob].

(** What the sample store makes of the sample manifest: the filtered data
    file, and the job arguments that refer to it. *)
Definition sampleFilteredObject : Object :=
  {| Key := "testsurcebucket/put-bucket-inventory-configuration/data/573a77fc-0397-4005-96d6-13a758a7635a.csv";
     LastModified := 0;
     ETag := "etag" |}.

Definition sampleJobArgsFiltered : batchJobArgs :=
  {| AccountId := "111111111111";
     RoleArn := "arn:aws:iam::111111111111:role/S3BatchCopyAdmin";
     SourceBucketName := "testsurcebucket";
     TargetBucketName := "dummy-target";
     ManifestArn :=
       Some "arn:aws:s3:::testsurcebucket/testsurcebucket/put-bucket-inventory-configuration/data/573a77fc-0397-4005-96d6-13a758a7635a.csv";
     ManifestETag := Some "etag";
     VersioningDisabled := false |}.

(** A manifest of an inventory of current versions only: its schema has no
    version columns. *)
Definition currentOnlyManifest : manifestJson :=
  {| Files := ["testsurcebucket/current-only/data/0f4f1a0e-5a1c-4f6c-9d54-2b8a5a1f3c77.csv.gz"];
     FileSchema := "Bucket, Key, Size, LastModifiedDate" |}.

Definition currentOnlyJSON : GoJSON :=
  {| Unmarshal := fun _ => Ok currentOnlyManifest |}.

(** ** Further observations: the phases of a run *)

(** The requests of the set-up of a run: versioning and inventory
    configuration. *)
Definition isSetupEvent (ev : Event) : bool :=
  match ev with
  | EvGetBucketVersioning _
  | EvGetBucketInventoryConfiguration _ _
  | EvPutBucketInventoryConfiguration _ _ _ => true
  | _ => false
  end.

(** The requests that read the manifest and make and upload the filtered
    data file, and the ownership lookup of a job specification. *)
Definition isFilterEvent (ev : Event) : bool :=
  match ev with
  | EvGetObject _ _
  | EvSelectObjectContent _
  | EvUpload _ _ _
  | EvHeadObject _ _
  | EvGetBucketOwnershipControls _ => true
  | _ => false
  end.

(** The buckets named by the object requests of a history ([GetObject],
    [SelectObjectContent], the upload and [HeadObject]), and by its
    listings, in order. *)
Definition objectBuckets (tr : Trace) : list string :=
  omap (fun ev => match ev with
                  | EvGetObject bucket _ => Some bucket
                  | EvSelectObjectContent input => Some (si_Bucket input)
                  | EvUpload bucket _ _ => Some bucket
                  | EvHeadObject bucket _ => Some bucket
                  | _ => None
                  end) tr.

Definition listBuckets (tr : Trace) : list string :=
  omap (fun ev => match ev with
                  | EvListObjectsV2 input => Some (li_Bucket input)
                  | _ => None
                  end) tr.

(** An event of the filtering phase that names no bucket but [bucket] in
    an object request, and an event of discovery that lists no bucket but
    [bucket]. *)
Definition filtersIn (bucket : string) (ev : Event) : Prop :=
  isFilterEvent ev = true
  /\ match ev with
     | EvGetObject b _ | EvUpload b _ _ | EvHeadObject b _ => b = bucket
     | EvSelectObjectContent input => si_Bucket input = bucket
     | _ => True
     end.

Definition discoversIn (bucket : string) (ev : Event) : Prop :=
  (isList ev || isSleep ev = true)
  /\ match ev with
     | EvListObjectsV2 input => li_Bucket input = bucket
     | _ => True
     end.

(** ** Regular expressions (package [regexp]), as far as the command uses
    them: character classes, sequence, alternative and bounded repetition *)

Module GoRegexp.

Inductive Regex :=
| Eps
| Chr (p : ascii -> bool)
| Seq (a b : Regex)
| Alt (a b : Regex).

(** A literal text. *)
Fixpoint Literal (l : list ascii) : Regex :=
  match l with
  | [] => Eps
  | c :: l' => Seq (Chr (Ascii.eqb c)) (Literal l')
  end.

(** [a{n}]. *)
Fixpoint Times (n : nat) (a : Regex) : Regex :=
  match n with
  | O => Eps
  | S n' => Seq a (Times n' a)
  end.

(** [a{0,n}]. *)
Fixpoint UpTo (n : nat) (a : Regex) : Regex :=
  match n with
  | O => Eps
  | S n' => Alt Eps (Seq a (UpTo n' a))
  end.

(** [a{lo,hi}]. *)
Definition Range (lo hi : nat) (a : Regex) : Regex := Seq (Times lo a) (UpTo (hi - lo) a).

(** Does a prefix of [l] match [re], with a rest that [k] accepts? *)
Fixpoint matchK (re : Regex) (l : list ascii) (k : list ascii -> bool) : bool :=
  match re with
  | Eps => k l
  | Chr p => match l with c :: l' => p c && k l' | [] => false end
  | Seq a b => matchK a l (fun l' => matchK b l' k)
  | Alt a b => matchK a l k || matchK b l k
  end.

Definition isEmpty (l : list ascii) : bool :=
  match l with [] => true | _ :: _ => false end.

(** [regexp.MatchString] of the expression between [^] and [$]: the whole
    text matches. *)
Definition MatchWhole (re : Regex) (s : string) : bool :=
  matchK re (to_list s) isEmpty.

Fixpoint match_from (re : Regex) (l : list ascii) : bool :=
  matchK re l (fun _ => true)
  || match l with [] => false | _ :: l' => match_from re l' end.

(** [regexp.MatchString] of an expression without anchors: the text
    contains a match. *)
Definition MatchString (re : Regex) (s : string) : bool := match_from re (to_list s).

(** The texts that an expression matches. *)
Fixpoint lang (re : Regex) (l : list ascii) : Prop :=
  match re with
  | Eps => l = []
  | Chr p => exists c, l = [c] /\ p c = true
  | Seq a b => exists l1 l2, l = l1 ++ l2 /\ lang a l1 /\ lang b l2
  | Alt a b => lang a l \/ lang b l
  end.

(** [\d]: in Go an ASCII digit. *)
Definition isDigit (c : ascii) : bool :=
  let n := nat_of_ascii c in ((48 <=? n) && (n <=? 57))%nat.

End GoRegexp.

Import GoRegexp.

(** ** The [run] command (package [cmd]) *)

Module cmd.

Definition latestOnlyArgName := "latest-only".
Definition startAtArgName := "start".
Definition endAtArgName := "end".
Definition accountIdArgName := "account".
Definition roleArgName := "role".

(** The package variables that [validateArgs] reads and writes. *)
Record Vars := {
  latestOnly : string;
  startAt : string;
  endAt : string;
  startDt : Time;
  endDt : Time;
  migrationAcctId : string;
  migrationRole : string
}.

(** [\d{12}]. *)
Definition accountPattern : Regex := Times 12 (Chr isDigit).

(** [[0-9A-Za-z\+\.@_,-]]. *)
Definition isRoleNameChar (c : ascii) : bool :=
  let n := nat_of_ascii c in
  (isDigit c
   || ((65 <=? n) && (n <=? 90)) || ((97 <=? n) && (n <=? 122))
   || Ascii.eqb c "+" || Ascii.eqb c "." || Ascii.eqb c "@" || Ascii.eqb c "_"
   || Ascii.eqb c "," || Ascii.eqb c "-")%nat.

(** [(?:\d{12}|(arn:(aws|aws-us-gov|aws-cn):iam::\d{12}(?:|:(?:role\/[0-9A-Za-z\+\.@_,-]{1,64}))))],
    which the command puts between [^] and [$]. *)
Definition rolePattern : Regex :=
  Alt (Times 12 (Chr isDigit))
      (Seq (Literal (to_list "arn:"))
         (Seq (Alt (Literal (to_list "aws"))
                 (Alt (Literal (to_list "aws-us-gov")) (Literal (to_list "aws-cn"))))
            (Seq (Literal (to_list ":iam::"))
               (Seq (Times 12 (Chr isDigit))
                  (Alt Eps
                     (Seq (Literal (to_list ":role/"))
                        (Range 1 64 (Chr isRoleNameChar)))))))).

End cmd.

(** The text functions of the runtime that the command calls:
    [strings.ToUpper] and [time.Parse]. *)
Class GoText := {
  ToUpper : string -> string;
  ParseTime : string -> string -> Res Time
}.

(** [time.DateTime]. *)
Definition DateTime := "2006-01-02 15:04:05".

(** [err.Error()]. *)
Definition errorText (e : GoError) : string :=
  match e with
  | APIError code message => "api error " +:+ code +:+ ": " +:+ message
  | PlainError message => message
  end.

(** [util.ParseDateTime]. *)
Definition ParseDateTime `{GoText} (tstr : string) : Time * option GoError :=
  if (String.length (TrimSpace tstr) <? 1)%nat
  then (0, Some (PlainError "found invalid input date time string"))
  else match ParseTime DateTime tstr with
       | Ok t => (t, None)
       | Err e => (0, Some e)
       end.

(** The closure [validateDateFlag] of [validateArgs]. *)
Definition validateDateFlag `{GoText} (dtstr : string) : Time * option GoError :=
  if negb (String.eqb (TrimSpace dtstr) "") then ParseDateTime dtstr else (0, None).

Definition invalidDate (argName : string) (e : GoError) : GoError :=
  PlainError ("invalid '" +:+ argName +:+ "' date time arg value, '" +:+ errorText e
              +:+ "', valid date time formate is '" +:+ DateTime +:+ "'").

(** [cmd.validateArgs]: the package variables after the call, and the error
    returned. *)
Definition validateArgs `{GoText} (v : cmd.Vars) : cmd.Vars * option GoError :=
  let withLatest (latestOnly : string) :=
    {| cmd.latestOnly := latestOnly; cmd.startAt := cmd.startAt v; cmd.endAt := cmd.endAt v;
       cmd.startDt := cmd.startDt v; cmd.endDt := cmd.endDt v;
       cmd.migrationAcctId := cmd.migrationAcctId v;
       cmd.migrationRole := cmd.migrationRole v |} in
  let selector :=
    if negb (String.eqb (TrimSpace (cmd.latestOnly v)) "") then
      if String.eqb (ToUpper (cmd.latestOnly v)) "YES" then Ok (withLatest IsLatestYes)
      else if String.eqb (ToUpper (cmd.latestOnly v)) "NO" then Ok (withLatest IsLatestNo)
      else Err (PlainError ("input arg '" +:+ cmd.latestOnlyArgName +:+ "' value '"
                            +:+ cmd.latestOnly v +:+ "' is not valid"))
    else Ok v in
  match selector with
  | Err e => (v, Some e)
  | Ok v1 =>
      let '(t, err) := validateDateFlag (cmd.startAt v1) in
      let v2 :=
        {| cmd.latestOnly := cmd.latestOnly v1; cmd.startAt := cmd.startAt v1;
           cmd.endAt := cmd.endAt v1; cmd.startDt := t; cmd.endDt := cmd.endDt v1;
           cmd.migrationAcctId := cmd.migrationAcctId v1;
           cmd.migrationRole := cmd.migrationRole v1 |} in
      match err with
      | Some e => (v2, Some (invalidDate cmd.startAtArgName e))
      | None =>
          let '(t, err) := validateDateFlag (cmd.endAt v2) in
          let v3 :=
            {| cmd.latestOnly := cmd.latestOnly v2; cmd.startAt := cmd.startAt v2;
               cmd.endAt := cmd.endAt v2; cmd.startDt := cmd.startDt v2; cmd.endDt := t;
               cmd.migrationAcctId := cmd.migrationAcctId v2;
               cmd.migrationRole := cmd.migrationRole v2 |} in
          match err with
          | Some e => (v3, Some (invalidDate cmd.endAtArgName e))
          | None =>
              if negb (MatchString cmd.accountPattern (cmd.migrationAcctId v3)) then
                (v3, Some (PlainError ("invalid '" +:+ cmd.accountIdArgName +:+ "' arg value '"
                                       +:+ cmd.migrationAcctId v3
                                       +:+ "', it must be [12] digit number")))
              else if negb (MatchWhole cmd.rolePattern (cmd.migrationRole v3)) then
                (v3, Some (PlainError ("invalid '" +:+ cmd.roleArgName +:+ "' arg value '"
                                       +:+ cmd.migrationRole v3
                                       +:+ "'. it must be an AWS ARN eg. arn:aws:iam::<ACCOUNT_NUM>:role/BatchOperationsCopyRole")))
              else (v3, None)
          end
      end
  end.

(** A runtime for the examples: upper case of the ASCII letters, and times
    written as [time.DateTime] writes them. *)
Definition upper (c : ascii) : ascii :=
  let n := nat_of_ascii c in
  if ((97 <=? n) && (n <=? 122))%nat then ascii_of_nat (n - 32) else c.

Definition days_of_civil (y m d : Z) : Z :=
  let y' := if m <=? 2 then y - 1 else y in
  let era := y' / 400 in
  let yoe := y' - era * 400 in
  let doy := (153 * (if 2 <? m then m - 3 else m + 9) + 2) / 5 + d - 1 in
  era * 146097 + (yoe * 365 + yoe / 4 - yoe / 100 + doy) - 306.

Fixpoint digits_value (l : list ascii) (acc : Z) : option Z :=
  match l with
  | [] => Some acc
  | a :: rest =>
      match digit_of a with
      | Some d => digits_value rest (10 * acc + d)
      | None => None
      end
  end.

Definition number_at (l : list ascii) (from len : nat) : option Z :=
  digits_value (take len (drop from l)) 0.

Definition parse_date_time (s : string) : Res Time :=
  let l := to_list s in
  let separators :=
    String.eqb (of_list (take 1 (drop 4 l))) "-" && String.eqb (of_list (take 1 (drop 7 l))) "-"
    && String.eqb (of_list (take 1 (drop 10 l))) " " && String.eqb (of_list (take 1 (drop 13 l))) ":"
    && String.eqb (of_list (take 1 (drop 16 l))) ":" && (length l =? 19)%nat in
  match number_at l 0 4, number_at l 5 2, number_at l 8 2,
        number_at l 11 2, number_at l 14 2, number_at l 17 2 with
  | Some y, Some m, Some d, Some hh, Some mm, Some ss =>
      if separators && (1 <=? m) && (m <=? 12) && (1 <=? d) && (d <=? 31)
         && (hh <=? 23) && (mm <=? 59) && (ss <=? 59)
      then Ok ((days_of_civil y m d * 86400 + hh * 3600 + mm * 60 + ss) * Second)
      else Err (PlainError ("parsing time '" +:+ s +:+ "': out of range"))
  | _, _, _, _, _, _ => Err (PlainError ("parsing time '" +:+ s +:+ "'"))
  end.

Definition asciiText : GoText :=
  {| ToUpper := fun s => of_list (map upper (to_list s));
     ParseTime := fun _ s => parse_date_time s |}.

Definition sampleVars : cmd.Vars :=
  {| cmd.latestOnly := "yes";
     cmd.startAt := "2023-09-30 12:00:00";
     cmd.endAt := "";
     cmd.startDt := 0;
     cmd.endDt := 0;
     cmd.migrationAcctId := "111111111111";
     cmd.migrationRole := "arn:aws:iam::111111111111:role/S3BatchCopyAdmin" |}.

(** The package variables after the sample flags were validated. *)
Definition sampleVarsValidated : cmd.Vars := fst (@validateArgs asciiText sampleVars).

(** ** The specification's own words, to state the properties with *)

(** *** The filter expression (specification, section 4.3)

    The schema is a list of cells separated by commas; the name of a column
    is its cell without the white space around it, and its index is its
    position in the declared order, from one. *)
Fixpoint spec_position (name : string) (cells : list string) (k : nat) : option nat :=
  match cells with
  | [] => None
  | cell :: rest =>
      if String.eqb (TrimSpace cell) name then Some k else spec_position name rest (S k)
  end.

(** The positional reference of column [k]. *)
Definition spec_column (k : nat) : string := "s._" +:+ itoa k.

(** The tri-state latest-only selector. *)
Inductive Selector := Unset | OnlyLatest | OnlyOthers.

Definition selector_text (selector : Selector) : string :=
  match selector with
  | Unset => ""
  | OnlyLatest => "Yes"
  | OnlyOthers => "No"
  end.

(** The equality predicate on the latest column, if the selector is set
    and the schema has the column. *)
Definition spec_latest_text (selector : Selector) (latestColumn : option nat) : option string :=
  match selector, latestColumn with
  | OnlyLatest, Some k => Some (spec_column k +:+ " = 'true'")
  | OnlyOthers, Some k => Some (spec_column k +:+ " = 'false'")
  | _, _ => None
  end.

(** The predicate on the last-updated column: both bounds present,
    BETWEEN; only the start, less-than; only the end, greater-than.  A bound
    is present when it is not the zero time. *)
Definition spec_date_text `{GoTime} (startDt endDt : Time) (updatedColumn : option nat)
    : option string :=
  match updatedColumn with
  | None => None
  | Some k =>
      match startDt =? 0, endDt =? 0 with
      | false, false =>
          Some (spec_column k +:+ " BETWEEN '" +:+ Format "2006-01-02T15:04:05" startDt
                +:+ "' AND '" +:+ Format "2006-01-02T15:04:05" endDt +:+ "'")
      | false, true =>
          Some (spec_column k +:+ " < '" +:+ Format "2006-01-02T15:04:05" startDt +:+ "'")
      | true, false =>
          Some (spec_column k +:+ " > '" +:+ Format "2006-01-02T15:04:05" endDt +:+ "'")
      | true, true => None
      end
  end.

(** The text of the query: the projection of the two key columns, and the
    predicates, if any, joined by AND. *)
Definition spec_query (latest date : option string) : string :=
  "SELECT s._1, s._2 FROM s3object s"
  +:+ match latest, date with
      | None, None => ""
      | Some p, None => " WHERE " +:+ p
      | None, Some q => " WHERE " +:+ q
      | Some p, Some q => " WHERE " +:+ p +:+ " AND " +:+ q
      end.

(** The expression that the table asks for, or [None] where it asks for an
    error: the selector is set and the schema has no latest column. *)
Definition spec_expression `{GoTime} (cells : list string) (startDt endDt : Time)
    (selector : Selector) (versioningDisabled : bool) : option string :=
  if versioningDisabled then Some (spec_query None None)
  else
    match selector, spec_position "IsLatest" cells 1 with
    | OnlyLatest, None | OnlyOthers, None => None
    | _, latestColumn =>
        Some (spec_query (spec_latest_text selector latestColumn)
                (spec_date_text startDt endDt (spec_position "LastUpdated" cells 1)))
    end.

(** A cell holds no comma. *)
Definition comma_free (cell : string) : bool :=
  negb (existsb (Ascii.eqb ",") (to_list cell)).

(** *** The manifest locator (specification, section 4.2)

    A candidate: the key ends in the manifest suffix, and the object was
    modified strictly after the start of the window. *)
Definition spec_candidate (windowStart : Time) (obj : Object) : Prop :=
  (exists stem, Key obj = stem +:+ "manifest.json") /\ windowStart < LastModified obj.

(** *** The gate between the two jobs (specification, section 3)

    The success ratio of one job by itself: succeeded over total, and zero
    for a job without tasks. *)
Definition own_ratio {F} `{Float32 F} (r : DescribeJobOutput) : F :=
  if 0 <? TotalNumberOfTasks (ProgressSummary r)
  then f32_div (f32_of_int32 (NumberOfTasksSucceeded (ProgressSummary r)))
               (f32_of_int32 (TotalNumberOfTasks (ProgressSummary r)))
  else f32_zero.

(** The task counts of an answer fit a signed 32-bit integer. *)
Definition fits_int32 (r : DescribeJobOutput) : Prop :=
  - 2 ^ 31 <= NumberOfTasksSucceeded (ProgressSummary r) < 2 ^ 31
  /\ TotalNumberOfTasks (ProgressSummary r) < 2 ^ 31.

(** The latest-only value behind each of the two jobs of a dual run: the
    job for the other versions has the manifest filtered with No, the
    latest-version job the one filtered with Yes. *)
Definition dual_selector (slot : JobSlot) : Selector :=
  match slot with
  | NonVersionJob => OnlyOthers
  | VersionJob => OnlyLatest
  end.

(** [filtered_with R args selector p pre]: the job specification [p] was
    built, within the history [pre], from the manifest of the source bucket
    filtered for the run's dates and the latest-only value [selector]:
    [createJobInput] with these filters returned [p] over a stretch of
    [pre], and the one query of that stretch has the expression of
    [GetQueryExpression] for the schema of the manifest read there and
    that value. *)
Definition filtered_with {F} `{GoTime} `{GoJSON} (R : Remote) (args : MigrationArgs F)
    (selector : Selector) (p : CreateJobInput) (pre : Trace) : Prop :=
  exists manifestFile jobArgs jobArgs1 tr0 evs rest body manifestJson,
    pre = tr0 ++ evs ++ rest
    /\ SourceBucketName jobArgs = SourceBucket args
    /\ VersioningDisabled jobArgs = false
    /\ createJobInput R manifestFile jobArgs
         {| StartDate := StartDt args; EndDate := EndDt args;
            LatestOnly := selector_text selector; kmsID := KmsID args |} tr0
       = (Returned (p, jobArgs1), tr0 ++ evs)
    /\ GetObject R tr0 (SourceBucket args) (Key manifestFile) = Ok (Ok body)
    /\ Unmarshal body = Ok manifestJson
    /\ selectExpressions evs
       = [fst (GetQueryExpression (FileSchema manifestJson) (StartDt args) (EndDt args)
                 (selector_text selector) false)].

(** The sample store when the first job reports one of five thousand
    million tasks succeeded, counts that no 32-bit integer holds. *)
Definition hugeRemote : Remote :=
  {| now := now sampleRemote;
     LoadDefaultConfig := LoadDefaultConfig sampleRemote;
     GetBucketVersioning := GetBucketVersioning sampleRemote;
     GetBucketInventoryConfiguration := GetBucketInventoryConfiguration sampleRemote;
     PutBucketInventoryConfiguration := PutBucketInventoryConfiguration sampleRemote;
     ListObjectsV2 := ListObjectsV2 sampleRemote;
     GetObject := GetObject sampleRemote;
     SelectObjectContent := SelectObjectContent sampleRemote;
     Upload := Upload sampleRemote;
     HeadObject := HeadObject sampleRemote;
     GetBucketOwnershipControls := GetBucketOwnershipControls sampleRemote;
     CreateJob := CreateJob sampleRemote;
     DescribeJob := fun _ _ jobId =>
       Ok (if String.eqb jobId "job-1"
           then sampleJobOutput jobId 1000000000 5000000000
           else sampleJobOutput jobId 10 10) |}.

(** The cells of the schema of the repository's test. *)
Definition sampleCells : list string :=
  ["Bucket"; " Key"; " VersionId"; " IsLatest"; " IsDeleteMarker"; "LastUpdated"].

(** * Theorems *)

(** ** The success threshold *)

Lemma threshold_loop_app jobs1 jobs2 acc :
  threshold_loop (jobs1 ++ jobs2) acc = threshold_loop jobs2 (threshold_loop jobs1 acc).
Proof.
  revert acc. induction jobs1 as [|[job|] jobs1 IH]; intros acc; simpl; auto.
  destruct (_ <? 1); apply IH.
Qed.

(** Whatever came before, a last job with at least one task decides the
    two counters alone. *)
Lemma threshold_loop_last jobs job acc :
  1 <= TotalNumberOfTasks (ProgressSummary job) ->
  threshold_loop (jobs ++ [Some job]) acc =
    (int32 (NumberOfTasksSucceeded (ProgressSummary job)),
     int32 (TotalNumberOfTasks (ProgressSummary job))).
Proof.
  intros Htotal. rewrite threshold_loop_app. simpl.
  destruct (Z.ltb_spec (TotalNumberOfTasks (ProgressSummary job)) 1); [lia | reflexivity].
Qed.

Lemma int32_small z : - 2 ^ 31 <= z < 2 ^ 31 -> int32 z = z.
Proof.
  intros Hz. unfold int32.
  destruct (Z.ltb_spec (z mod 2 ^ 32) (2 ^ 31)) as [Hlt|Hge].
  - destruct (Z.le_gt_cases 0 z) as [Hpos|Hneg].
    + apply Z.mod_small. lia.
    + rewrite <- (Z.mod_add z 1 (2 ^ 32)) in Hlt by lia.
      rewrite Z.mod_small in Hlt by lia. lia.
  - destruct (Z.le_gt_cases 0 z) as [Hpos|Hneg].
    + rewrite Z.mod_small in Hge by lia. lia.
    + rewrite <- (Z.mod_add z 1 (2 ^ 32)) by lia.
      rewrite Z.mod_small by lia. lia.
Qed.

(** The ratio of one job alone, for task counts that fit an [int32]. *)
Lemma GetJobSuccessThreshold_single job :
  1 <= TotalNumberOfTasks (ProgressSummary job) < 2 ^ 31 ->
  - 2 ^ 31 <= NumberOfTasksSucceeded (ProgressSummary job) < 2 ^ 31 ->
  GetJobSuccessThreshold [Some job]
  = (inject_Z (NumberOfTasksSucceeded (ProgressSummary job))
     / inject_Z (TotalNumberOfTasks (ProgressSummary job)))%Q.
Proof.
  intros Htotal Hsucceeded. unfold GetJobSuccessThreshold. simpl.
  destruct (Z.ltb_spec (TotalNumberOfTasks (ProgressSummary job)) 1); [lia|].
  rewrite !int32_small by lia.
  destruct (Z.ltb_spec 0 (TotalNumberOfTasks (ProgressSummary job))); [reflexivity | lia].
Qed.

(** The cases of the repository's test of the threshold, with the values
    the test expects. *)
Example GetJobSuccessThreshold_repository_tests :
  GetJobSuccessThreshold (F := Q) [] = 0%Q
  /\ GetJobSuccessThreshold (F := Q) [mkJob 0 0] = 0%Q
  /\ Qeq (GetJobSuccessThreshold [mkJob 10 10]) 1
  /\ Qeq (GetJobSuccessThreshold [mkJob 8 10; mkJob 15 20]) (75 # 100).
Proof. repeat split; reflexivity. Qed.

(** A job without tasks, or no job at all, leaves the counters alone. *)
Example threshold_loop_skips :
  threshold_loop [mkJob 8 10; None; mkJob 0 0] (0, 0) = (8, 10).
Proof. reflexivity. Qed.

(** C1 (evaluation of the code): for the jobs (8,10) and (15,20) the code
    returns 15/20 = 0.75, the ratio of the last job alone, and not the
    aggregate 23/30 of the sums of succeeded and total task counts. *)
Theorem C1_threshold_of_two_jobs_is_last_ratio :
  let jobs := [mkJob 8 10; mkJob 15 20] in
  threshold_loop jobs (0, 0) = (15, 20)
  /\ (sum_succeeded jobs, sum_total jobs) = (23, 30)
  /\ Qeq (GetJobSuccessThreshold jobs) (3 # 4)
  /\ Qeq (aggregate_ratio jobs) (23 # 30)
  /\ ~ Qeq (GetJobSuccessThreshold jobs) (aggregate_ratio jobs).
Proof.
  cbv zeta. repeat split; try reflexivity.
  vm_compute. discriminate.
Qed.

(** ** The filter expression builder *)

Lemma ToSql_columns b :
  sb_columns b <> [] -> ToSql b = (fst (ToSql b), None).
Proof. unfold ToSql. destruct (sb_columns b); [congruence | reflexivity]. Qed.

Lemma getColumnName_lookup fileSchema columns colName :
  getColumnName fileSchema columns colName =
    match columns !! colName with
    | Some col => Ok col
    | None => Err (missingColumn colName fileSchema)
    end.
Proof. reflexivity. Qed.

(** A selector that is blank is neither of the two values. *)
Lemma latest_not_requested latestOnly :
  latest_requested latestOnly = false ->
  String.eqb latestOnly IsLatestYes = false /\ String.eqb latestOnly IsLatestNo = false.
Proof.
  intros Hblank. split.
  - destruct (String.eqb_spec latestOnly IsLatestYes) as [->|]; [discriminate Hblank | reflexivity].
  - destruct (String.eqb_spec latestOnly IsLatestNo) as [->|]; [discriminate Hblank | reflexivity].
Qed.

Section FilterExpression.

Context `{GoTime}.

(** The date [switch] appends exactly the date predicate of the table. *)
Lemma addDateFilter_table fileSchema columns startDt endDt preds :
  addDateFilter fileSchema columns startDt endDt
    {| sb_columns := ["s._1"; "s._2"]; sb_from := "s3object s"; sb_where := map render preds |}
  = {| sb_columns := ["s._1"; "s._2"]; sb_from := "s3object s";
       sb_where := map render (preds ++ date_predicate (columns !! LastUpdatedColumn) startDt endDt) |}.
Proof.
  unfold addDateFilter, date_predicate. rewrite !getColumnName_lookup.
  destruct (columns !! LastUpdatedColumn) as [col|];
    destruct (IsZero startDt), (IsZero endDt); simpl;
    rewrite ?app_nil_r, ?map_app; reflexivity.
Qed.

(** The latest-only block: an error if the column is needed and missing,
    else exactly the latest predicate of the table. *)
Lemma addLatestFilter_table fileSchema columns latestOnly :
  addLatestFilter fileSchema columns latestOnly baseQuery =
    match columns !! IsLatestColumn with
    | None =>
        if latest_requested latestOnly then Err (missingColumn IsLatestColumn fileSchema)
        else Ok baseQuery
    | Some col =>
        Ok {| sb_columns := ["s._1"; "s._2"]; sb_from := "s3object s";
              sb_where := map render (latest_predicate (Some col) latestOnly) |}
    end.
Proof.
  unfold addLatestFilter, latest_predicate. rewrite getColumnName_lookup.
  fold (latest_requested latestOnly).
  destruct (latest_requested latestOnly) eqn:Hreq.
  - destruct (columns !! IsLatestColumn) as [col|]; [|reflexivity].
    destruct (String.eqb latestOnly IsLatestYes); [reflexivity|].
    destruct (String.eqb latestOnly IsLatestNo); reflexivity.
  - destruct (latest_not_requested _ Hreq) as [-> ->].
    destruct (columns !! IsLatestColumn); reflexivity.
Qed.

(** The choice of the predicates, on the columns that [parseFileSchema]
    finds: none when versioning is disabled; else the latest predicate for
    Yes and No and the date predicate chosen by the bounds present, a
    predicate whose column is missing being left out; and an error when the
    selector is set and the latest column is missing. *)
Lemma GetQueryExpression_table
    fileSchema startDt endDt latestOnly versioningDisabled :
  GetQueryExpression fileSchema startDt endDt latestOnly versioningDisabled =
    if versioningDisabled then (expression_of [], None)
    else
      match parseFileSchema fileSchema with
      | Err e => ("", Some e)
      | Ok columns =>
          match columns !! IsLatestColumn with
          | None =>
              if latest_requested latestOnly
              then ("", Some (missingColumn IsLatestColumn fileSchema))
              else (expression_of (table_predicates columns startDt endDt latestOnly), None)
          | Some _ =>
              (expression_of (table_predicates columns startDt endDt latestOnly), None)
          end
      end.
Proof.
  unfold GetQueryExpression. destruct versioningDisabled; [reflexivity|].
  destruct (parseFileSchema fileSchema) as [columns|e]; [|reflexivity].
  rewrite addLatestFilter_table. unfold table_predicates, expression_of.
  destruct (columns !! IsLatestColumn) as [col|] eqn:Hcol.
  - rewrite addDateFilter_table. apply ToSql_columns. discriminate.
  - destruct (latest_requested latestOnly); [reflexivity|].
    change baseQuery with
      {| sb_columns := ["s._1"; "s._2"]; sb_from := "s3object s";
         sb_where := map render [] |}.
    rewrite addDateFilter_table. apply ToSql_columns. discriminate.
Qed.

End FilterExpression.

(** ** The streaming record reader *)

(** A closed reader answers every read with the closed error. *)
Lemma Read_closed r lenb :
  closed r = true -> Read r lenb = (([], Some ErrClosedPipe), r).
Proof. intros Hclosed. unfold Read. rewrite Hclosed. reflexivity. Qed.

(** The path of the closed channel: a read that finds the channel closed
    before any byte closes the reader while it signals the end of data. *)
Lemma Read_channel_closed lenb :
  Read {| Stream := []; remaining := []; closed := false |} lenb =
    (([], Some EOF), {| Stream := []; remaining := []; closed := true |}).
Proof. unfold Read. simpl. rewrite Nat.min_0_r. reflexivity. Qed.

(** C7 (evaluation of the code): a stream that delivers its end marker and
    is then closed.  The first read signals the end of data and leaves the
    reader open; the read after it is not answered with the closed error
    but with the end of data again, and only the third one is. *)
Theorem C7_read_after_end_marker :
  let r0 := {| Stream := [EndEvent]; remaining := []; closed := false |} in
  let r1 := snd (Read r0 4) in
  let r2 := snd (Read r1 4) in
  fst (Read r0 4) = ([], Some EOF)
  /\ closed r1 = false
  /\ fst (Read r1 4) = ([], Some EOF)
  /\ fst (Read r1 4) <> ([], Some ErrClosedPipe)
  /\ closed r2 = true
  /\ fst (Read r2 4) = ([], Some ErrClosedPipe).
Proof. cbv zeta. repeat split; try reflexivity. discriminate. Qed.

(** Data that the channel delivers after the end marker is still read. *)
Example Read_data_after_end_marker :
  let r0 := {| Stream := [EndEvent; Records [Byte.x61; Byte.x62]];
               remaining := []; closed := false |} in
  fst (Read r0 4) = ([], Some EOF)
  /\ fst (Read (snd (Read r0 4)) 4) = ([Byte.x61; Byte.x62], None).
Proof. split; reflexivity. Qed.

(** Events that carry no records leave the buffering alone. *)
Example Read_skips_other_events :
  Read {| Stream := [OtherEvent; Records [Byte.x61; Byte.x62; Byte.x63]; OtherEvent];
          remaining := []; closed := false |} 2
  = (([Byte.x61; Byte.x62], None),
     {| Stream := [OtherEvent]; remaining := [Byte.x63]; closed := false |}).
Proof. reflexivity. Qed.

(** ** Sorting *)

Lemma insert_sorted_perm {A} (cmp : A -> A -> Z) x l :
  Permutation (x :: l) (insert_sorted cmp x l).
Proof.
  induction l as [|y l IH]; simpl; [reflexivity|].
  destruct (cmp x y <=? 0); [reflexivity|].
  rewrite perm_swap. apply perm_skip, IH.
Qed.

Lemma insertion_sort_perm {A} (l : list A) cmp : Permutation l (insertion_sort l cmp).
Proof.
  induction l as [|x l IH]; simpl; [constructor|].
  etransitivity; [apply perm_skip, IH | apply insert_sorted_perm].
Qed.

Lemma insert_sorted_sorted {A} (cmp : A -> A -> Z) x l :
  cmp_consistent cmp -> cmp_transitive cmp ->
  StronglySorted (fun a b => cmp a b <= 0) l ->
  StronglySorted (fun a b => cmp a b <= 0) (insert_sorted cmp x l).
Proof.
  intros Hcons Htrans. induction l as [|y l IH]; intros Hsorted; simpl.
  - repeat constructor.
  - apply StronglySorted_inv in Hsorted as [Hl Hy].
    destruct (Z.leb_spec (cmp x y) 0) as [Hxy|Hxy].
    + constructor; [constructor; assumption|].
      constructor; [assumption|].
      eapply List.Forall_impl; [|exact Hy]. intros z Hyz. simpl in Hyz. eauto.
    + constructor; [auto|].
      assert (Hyx : cmp y x <= 0) by (specialize (Hcons x y); lia).
      eapply Permutation_Forall; [apply insert_sorted_perm|].
      constructor; assumption.
Qed.

Lemma insertion_sort_sorted {A} (l : list A) cmp :
  cmp_consistent cmp -> cmp_transitive cmp ->
  StronglySorted (fun a b => cmp a b <= 0) (insertion_sort l cmp).
Proof.
  intros Hcons Htrans. induction l as [|x l IH]; simpl; [constructor|].
  apply insert_sorted_sorted; assumption.
Qed.

Lemma insertionSlices_permutes : @SortFunc_permutes insertionSlices.
Proof. intros A l cmp. apply insertion_sort_perm. Qed.

Lemma insertionSlices_sorts : @SortFunc_sorts insertionSlices.
Proof. intros A l cmp. apply insertion_sort_sorted. Qed.

Lemma objectDateDescending_consistent : cmp_consistent objectDateDescending.
Proof.
  intros a b. unfold objectDateDescending, Compare.
  repeat match goal with |- context [?x <? ?y] => destruct (Z.ltb_spec x y) end; lia.
Qed.

Lemma objectDateDescending_transitive : cmp_transitive objectDateDescending.
Proof.
  intros a b c. unfold objectDateDescending, Compare.
  repeat match goal with |- context [?x <? ?y] => destruct (Z.ltb_spec x y) end; lia.
Qed.

Lemma objectDateDescending_le a b :
  objectDateDescending a b <= 0 -> LastModified b <= LastModified a.
Proof.
  unfold objectDateDescending, Compare.
  repeat match goal with |- context [?x <? ?y] => destruct (Z.ltb_spec x y) end; lia.
Qed.

(** ** Computations *)

Lemma bind_returned {A B} (m : M A) (k : A -> M B) tr a tr' :
  m tr = (Returned a, tr') -> bind m k tr = k a tr'.
Proof. intros Hm. unfold bind. rewrite Hm. reflexivity. Qed.

Lemma bind_call {A B} (answer : Trace -> A) ev (k : A -> M B) tr :
  bind (call answer ev) k tr = k (answer tr) (tr ++ [ev (answer tr)]).
Proof. reflexivity. Qed.

Lemma bind_ret {A B} (a : A) (k : A -> M B) tr : bind (ret a) k tr = k a tr.
Proof. reflexivity. Qed.

(** ** The manifest locator *)

Section Locator.

Context `{GoTime} `{GoSlices}.
Variable R : Remote.

(** What one invocation of the locator does, case by case: it sends one
    list request; a failed request ends the process. *)
Lemma getLatestManifest_unfold finderArgs tr :
  let windowStart := windowStartOf (now R tr) (DateWindow finderArgs) in
  let input := listInput finderArgs windowStart in
  getLatestManifest R finderArgs tr =
    (match ListObjectsV2 R tr input with
     | Err _ => Exited listFailed
     | Ok contents =>
         match List.filter (isCandidate windowStart) contents with
         | [] => Returned (None, None)
         | _ :: _ =>
             match SortFunc (List.filter (isCandidate windowStart) contents)
                     objectDateDescending with
             | first :: _ => Returned (Some first, None)
             | [] => Panicked "index out of range [0] with length 0"
             end
         end
     end, tr ++ [EvListObjectsV2 input]).
Proof.
  cbv zeta. unfold getLatestManifest. rewrite bind_call.
  destruct (ListObjectsV2 R tr _) as [contents|e]; [|reflexivity].
  destruct (List.filter _ contents); [reflexivity|].
  destruct (SortFunc _ _); reflexivity.
Qed.

Lemma getLatestManifest_trace finderArgs tr :
  snd (getLatestManifest R finderArgs tr) =
    tr ++ [EvListObjectsV2
             (listInput finderArgs (windowStartOf (now R tr) (DateWindow finderArgs)))].
Proof. rewrite getLatestManifest_unfold. reflexivity. Qed.

(** The locator never hands an error to its caller. *)
Lemma getLatestManifest_no_error finderArgs tr o e :
  fst (getLatestManifest R finderArgs tr) <> Returned (o, Some e).
Proof.
  rewrite getLatestManifest_unfold. simpl.
  destruct (ListObjectsV2 R tr _) as [contents|e']; [|discriminate].
  destruct (List.filter _ contents); [discriminate|].
  destruct (SortFunc _ _); discriminate.
Qed.

(** C3 (amended): a failed list request ends the process inside the locator
    with the fatal message of the list call; the locator sends exactly one
    list request, so it does not retry, and in no case does it return an
    error value to its caller. *)
Theorem C3_list_failure_exits finderArgs tr e :
  ListObjectsV2 R tr
    (listInput finderArgs (windowStartOf (now R tr) (DateWindow finderArgs))) = Err e ->
  getLatestManifest R finderArgs tr =
    (Exited listFailed,
     tr ++ [EvListObjectsV2
              (listInput finderArgs (windowStartOf (now R tr) (DateWindow finderArgs)))])
  /\ (forall finderArgs' tr' o e',
        fst (getLatestManifest R finderArgs' tr') <> Returned (o, Some e'))
  /\ (forall finderArgs' tr',
        exists input, snd (getLatestManifest R finderArgs' tr') = tr' ++ [EvListObjectsV2 input]).
Proof.
  intros Hfail. split; [|split].
  - rewrite getLatestManifest_unfold. cbv zeta. rewrite Hfail. reflexivity.
  - intros. apply getLatestManifest_no_error.
  - intros. eexists. apply getLatestManifest_trace.
Qed.

(** On any listing that the store returns, the locator returns one of the
    objects that its filter keeps, with the greatest modification time among
    them, and the nil result when the filter keeps none. *)
Lemma getLatestManifest_newest finderArgs tr contents :
  SortFunc_permutes -> SortFunc_sorts ->
  let windowStart := windowStartOf (now R tr) (DateWindow finderArgs) in
  ListObjectsV2 R tr (listInput finderArgs windowStart) = Ok contents ->
  exists result,
    fst (getLatestManifest R finderArgs tr) = Returned (result, None)
    /\ match result with
       | Some m =>
           In m contents /\ isCandidate windowStart m = true
           /\ forall o, In o contents -> isCandidate windowStart o = true ->
                        LastModified o <= LastModified m
       | None =>
           forall o, In o contents -> isCandidate windowStart o = false
       end.
Proof.
  intros Hperm Hsort windowStart Hlist.
  rewrite getLatestManifest_unfold. cbv zeta. fold windowStart. rewrite Hlist. simpl.
  destruct (List.filter (isCandidate windowStart) contents) as [|c cs] eqn:Hfilter.
  - exists None. split; [reflexivity|].
    intros o Ho. destruct (isCandidate windowStart o) eqn:Hcand; [|reflexivity].
    assert (Hin : In o (List.filter (isCandidate windowStart) contents))
      by (apply filter_In; auto).
    rewrite Hfilter in Hin. destruct Hin.
  - pose proof (Hperm _ (c :: cs) objectDateDescending) as Hp.
    pose proof (Hsort _ (c :: cs) objectDateDescending
                  objectDateDescending_consistent objectDateDescending_transitive) as Hs.
    destruct (SortFunc (c :: cs) objectDateDescending) as [|first rest].
    + apply Permutation_sym, Permutation_nil in Hp. discriminate.
    + exists (Some first). split; [reflexivity|].
      assert (Hfirst : In first (List.filter (isCandidate windowStart) contents)).
      { rewrite Hfilter. eapply Permutation_in; [symmetry; exact Hp | left; reflexivity]. }
      apply filter_In in Hfirst as [Hin Hcand].
      split; [assumption|]. split; [assumption|].
      intros o Ho Hocand.
      assert (Ho' : In o (first :: rest)).
      { eapply Permutation_in; [exact Hp|]. rewrite <- Hfilter. apply filter_In. auto. }
      apply StronglySorted_inv in Hs as [_ Hall].
      destruct Ho' as [->|Ho']; [lia|].
      apply objectDateDescending_le.
      rewrite List.Forall_forall in Hall. apply Hall, Ho'.
Qed.

End Locator.

(** ** Events emitted by a computation *)

Lemma emits_ret {A} P (a : A) : emits P (ret a).
Proof. intros tr. exists []. simpl. rewrite app_nil_r. auto. Qed.

Lemma emits_Fatal {A} P msg : emits P (@Fatal A msg).
Proof. intros tr. exists []. simpl. rewrite app_nil_r. auto. Qed.

Lemma emits_panic {A} P msg : emits P (@panic A msg).
Proof. intros tr. exists []. simpl. rewrite app_nil_r. auto. Qed.

Lemma emits_out_of_fuel {A} P : emits P (@out_of_fuel A).
Proof. intros tr. exists []. simpl. rewrite app_nil_r. auto. Qed.

Lemma emits_call {A} (P : Event -> Prop) (answer : Trace -> A) ev :
  (forall a, P (ev a)) -> emits P (call answer ev).
Proof. intros HP tr. exists [ev (answer tr)]. simpl. auto. Qed.

Lemma emits_bind {A B} P (m : M A) (k : A -> M B) :
  emits P m -> (forall a, emits P (k a)) -> emits P (bind m k).
Proof.
  intros Hm Hk tr. destruct (Hm tr) as (evs1 & Htr1 & HP1). unfold bind.
  destruct (m tr) as [[a| | |] tr1]; simpl in Htr1; subst tr1;
    try solve [exists evs1; simpl; auto].
  destruct (Hk a (tr ++ evs1)) as (evs2 & Htr2 & HP2).
  exists (evs1 ++ evs2). rewrite Htr2, app_assoc. split; [reflexivity|].
  apply List.Forall_app; auto.
Qed.

Lemma emits_impl {A} (P Q : Event -> Prop) (m : M A) :
  (forall ev, P ev -> Q ev) -> emits P m -> emits Q m.
Proof.
  intros HPQ Hm tr. destruct (Hm tr) as (evs & Htr & HP).
  exists evs. split; [assumption|]. eapply List.Forall_impl; eauto.
Qed.

Create HintDb emits.
#[export] Hint Resolve emits_ret emits_Fatal emits_panic emits_out_of_fuel : emits.

(** Break a computation down to its calls; what is left are the side
    conditions on the events of the calls. *)
Ltac emits_step :=
  match goal with
  | |- emits _ (ret _) => apply emits_ret
  | |- emits _ (Fatal _) => apply emits_Fatal
  | |- emits _ (panic _) => apply emits_panic
  | |- emits _ out_of_fuel => apply emits_out_of_fuel
  | |- emits _ (call _ _) => apply emits_call; intros
  | |- emits _ (Sleep _) => apply emits_call; intros
  | |- emits _ (bind _ _) => apply emits_bind; [|intros]
  | |- emits _ (match ?x with _ => _ end) => destruct x
  | |- emits _ (if ?x then _ else _) => destruct x
  | |- emits _ (let _ := _ in _) => cbv zeta
  end.

Ltac emits_tac := repeat emits_step; eauto with emits.

(** Split a [Forall] over a list built from conses and appends. *)
Ltac forall_split :=
  repeat first [ apply List.Forall_nil
               | apply List.Forall_cons; [reflexivity|]
               | apply List.Forall_app; split ].

Lemma puts_app tr evs : puts (tr ++ evs) = (puts tr + puts evs)%nat.
Proof. unfold puts. rewrite List.filter_app, length_app. reflexivity. Qed.

Lemma puts_snoc tr ev : puts (tr ++ [ev]) = (puts tr + if isPut ev then 1 else 0)%nat.
Proof. rewrite puts_app. unfold puts at 2. simpl. destruct (isPut ev); reflexivity. Qed.

Lemma puts_none evs : Forall (fun ev => isPut ev = false) evs -> puts evs = 0%nat.
Proof.
  unfold puts. induction 1 as [|ev evs Hev _ IH]; simpl; [reflexivity|].
  rewrite Hev. exact IH.
Qed.

(** ** The inventory configuration manager *)

Section Manager.

Variable R : Remote.

Lemma ensure_enabled bucket configName shouldUpdate tr cfg err :
  GetBucketInventoryConfiguration R tr bucket configName = (Some cfg, err) ->
  IsEnabled cfg = true ->
  ensureS3InventoryConfig R bucket configName shouldUpdate tr =
    (match inventoryLookupFailure err shouldUpdate with
     | Some e => Returned (None, Some e)
     | None =>
         Returned
           (Some {| BucketName :=
                      slice_from (S3BucketDestination_Bucket cfg)
                        (LastIndex (S3BucketDestination_Bucket cfg) ":" + 1);
                    Prefix :=
                      match S3BucketDestination_Prefix cfg with
                      | Some p => p +:+ "/" +:+ (bucket +:+ "/" +:+ configName +:+ "/")
                      | None => bucket +:+ "/" +:+ configName +:+ "/"
                      end;
                    DateWindow :=
                      if String.eqb (Frequency cfg) InventoryFrequencyWeekly then -8 else -1 |},
            None)
     end,
     tr ++ [EvGetBucketInventoryConfiguration bucket configName]).
Proof.
  intros Hget Henabled. unfold ensureS3InventoryConfig. rewrite bind_call, Hget.
  destruct (inventoryLookupFailure err shouldUpdate); [reflexivity|].
  rewrite Henabled. reflexivity.
Qed.

Lemma ensure_puts_le bucket configName shouldUpdate tr :
  (puts (snd (ensureS3InventoryConfig R bucket configName shouldUpdate tr)) <= puts tr + 1)%nat.
Proof.
  unfold ensureS3InventoryConfig. rewrite bind_call.
  destruct (GetBucketInventoryConfiguration R tr bucket configName) as [out err].
  destruct (inventoryLookupFailure err shouldUpdate);
    [simpl; rewrite puts_snoc; simpl; lia|].
  destruct out as [cfg|]; [destruct (IsEnabled cfg), shouldUpdate|]; simpl;
    rewrite ?bind_call; simpl; rewrite !puts_snoc; simpl; lia.
Qed.

End Manager.

(** The span of [DateWindow] look-back units of forty-eight hours. *)
Lemma windowStartOf_weekly now : windowStartOf now (-8) = now - 16 * (24 * Hour).
Proof.
  unfold windowStartOf.
  assert (E : wrap64 (wrap64 (wrap64 (-8) * Hour) * 48) = - (16 * (24 * Hour)))
    by (vm_compute; reflexivity).
  rewrite E. lia.
Qed.

Lemma windowStartOf_daily now : windowStartOf now (-1) = now - 2 * (24 * Hour).
Proof.
  unfold windowStartOf.
  assert (E : wrap64 (wrap64 (wrap64 (-1) * Hour) * 48) = - (2 * (24 * Hour)))
    by (vm_compute; reflexivity).
  rewrite E. lia.
Qed.

(** C6 (amended): for an enabled configuration the manager derives a window
    of -8 units for a weekly schedule and of -1 unit for any other; a unit is
    forty-eight hours, so that the locator starts its window sixteen days
    before the current time for a weekly schedule and two days before it
    otherwise. *)
Theorem C6_window_of_enabled_configuration `{GoTime} `{GoSlices}
    (R : Remote) bucket configName shouldUpdate tr cfg :
  GetBucketInventoryConfiguration R tr bucket configName = (Some cfg, None) ->
  IsEnabled cfg = true ->
  exists finderArgs,
    fst (ensureS3InventoryConfig R bucket configName shouldUpdate tr)
      = Returned (Some finderArgs, None)
    /\ DateWindow finderArgs
       = (if String.eqb (Frequency cfg) InventoryFrequencyWeekly then -8 else -1)
    /\ forall tr',
         let span := if String.eqb (Frequency cfg) InventoryFrequencyWeekly
                     then 16 * (24 * Hour) else 2 * (24 * Hour) in
         windowStartOf (now R tr') (DateWindow finderArgs) = now R tr' - span
         /\ snd (getLatestManifest R finderArgs tr')
            = tr' ++ [EvListObjectsV2 (listInput finderArgs (now R tr' - span))].
Proof.
  intros Hget Henabled.
  rewrite (ensure_enabled R _ _ shouldUpdate _ _ _ Hget Henabled). simpl.
  eexists. split; [reflexivity|]. split; [reflexivity|].
  intros tr'. cbv zeta. rewrite getLatestManifest_trace. simpl.
  destruct (String.eqb (Frequency cfg) InventoryFrequencyWeekly).
  - rewrite windowStartOf_weekly. split; reflexivity.
  - rewrite windowStartOf_daily. split; reflexivity.
Qed.

(** ** Which events the phases of a run emit *)

Section Phases.

Context {F : Type} `{Float32 F} `{GoTime} `{GoJSON} `{GoSlices}.
Variable R : Remote.

Lemma emits_getLatestManifest (P : Event -> Prop) finderArgs :
  (forall input, P (EvListObjectsV2 input)) -> emits P (getLatestManifest R finderArgs).
Proof.
  intros HP tr. eexists. split; [apply getLatestManifest_trace|]. auto.
Qed.

Lemma emits_discover (P : Event -> Prop) fuel finderArgs duration ctr :
  (forall input, P (EvListObjectsV2 input)) -> (forall d, P (EvSleep d)) ->
  emits P (discover R fuel finderArgs duration ctr).
Proof.
  intros HList HSleep. revert ctr.
  induction fuel as [|fuel IH]; intros ctr; simpl; [emits_tac|].
  apply emits_bind; [apply emits_getLatestManifest, HList|].
  intros [manifestFile merr]. emits_tac.
Qed.

Lemma quiet_isVersioningDisabled bucket : emits quiet (isVersioningDisabled R bucket).
Proof. unfold isVersioningDisabled. emits_tac; split; reflexivity. Qed.

Lemma quiet_filterManifestCsv args manifest filters :
  emits quiet (filterManifestCsv R args manifest filters).
Proof.
  unfold filterManifestCsv, readInventoryManifest, filterGzippedCsv, uploadS3File.
  emits_tac; split; reflexivity.
Qed.

Lemma quiet_createJobInput manifestFile jobArgs filters :
  emits quiet (createJobInput R manifestFile jobArgs filters).
Proof.
  unfold createJobInput. apply emits_bind; [apply quiet_filterManifestCsv|].
  intros [manifest err]. unfold isOwnershipEnforced. emits_tac; split; reflexivity.
Qed.

Lemma quiet_getJobParams manifestFile jobArgs filters :
  emits quiet (getJobParams R manifestFile jobArgs filters).
Proof.
  unfold getJobParams.
  repeat first [ apply quiet_createJobInput | emits_step ]; eauto with emits.
Qed.

Lemma quiet_discover fuel finderArgs duration ctr :
  emits quiet (discover R fuel finderArgs duration ctr).
Proof. apply emits_discover; intros; split; reflexivity. Qed.

Lemma emits_ensure_no_job bucket configName shouldUpdate :
  emits (fun ev => isJobEvent ev = false)
        (ensureS3InventoryConfig R bucket configName shouldUpdate).
Proof. unfold ensureS3InventoryConfig. emits_tac. Qed.

Lemma emits_poll_loop_no_put fuel accountID jobId :
  emits (fun ev => isPut ev = false) (poll_loop R fuel accountID jobId).
Proof. induction fuel as [|fuel IH]; simpl; emits_tac. Qed.

Lemma emits_submitAndPoll_no_put fuel slot accountID param :
  emits (fun ev => isPut ev = false) (submitAndPoll R fuel slot accountID param).
Proof.
  unfold submitAndPoll, pollJobResult.
  repeat first [ apply emits_poll_loop_no_put | emits_step ]; eauto with emits.
Qed.

Lemma emits_runJobs_no_put fuel accountID req jobParams :
  emits (fun ev => isPut ev = false) (runJobs R fuel accountID req jobParams).
Proof.
  unfold runJobs.
  repeat first [ apply emits_submitAndPoll_no_put | emits_step ]; eauto with emits.
Qed.

(** A computation that writes no inventory configuration. *)
Lemma emits_puts {A} (m : M A) tr :
  emits (fun ev => isPut ev = false) m -> puts (snd (m tr)) = puts tr.
Proof.
  intros Hm. destruct (Hm tr) as (evs & -> & Hevs).
  rewrite puts_app, (puts_none _ Hevs). lia.
Qed.

Lemma quiet_no_put {A} (m : M A) : emits quiet m -> emits (fun ev => isPut ev = false) m.
Proof. apply emits_impl. intros ev [Hput _]. exact Hput. Qed.

Lemma quiet_no_job {A} (m : M A) : emits quiet m -> emits (fun ev => isJobEvent ev = false) m.
Proof. apply emits_impl. intros ev [_ Hjob]. exact Hjob. Qed.

(** What follows the inventory configuration manager in [Run] writes no
    inventory configuration. *)
Lemma emits_afterInventory_no_put fuel (args : MigrationArgs F) versioningDisabled manifestArgs :
  emits (fun ev => isPut ev = false)
    (let* manifestFile :=
       discover R fuel manifestArgs
         match ParseDuration (RetryInterval args) with Ok d => d | Err _ => 0 end 0 in
     let* (jobParams, err) :=
       getJobParams R manifestFile
         {| AccountId := AccountID args; RoleArn := MigrationRoleArn args;
            SourceBucketName := SourceBucket args;
            TargetBucketName := DestinationBucket args;
            ManifestArn := None; ManifestETag := None;
            VersioningDisabled := versioningDisabled |}
         {| StartDate := StartDt args; EndDate := EndDt args;
            LatestOnly := MigrationLatestOnly args; kmsID := KmsID args |} in
     match err with
     | Some _ => Fatal "Failed to create batch parameters"
     | None => runJobs R fuel (AccountID args) (ReqSuccessThreshold args) jobParams
     end).
Proof.
  apply emits_bind; [apply quiet_no_put, quiet_discover|]. intros manifestFile.
  apply emits_bind; [apply quiet_no_put, quiet_getJobParams|]. intros [jobParams err].
  destruct err; [emits_tac|]. apply emits_runJobs_no_put.
Qed.

(** The history of a run up to the end of the inventory configuration
    manager, and the rest of the run. *)
Lemma Run_unfold fuel (args : MigrationArgs F) :
  LoadDefaultConfig R (SourceRegion args) = None ->
  Run R fuel args [] =
    match GetBucketVersioning R [] (SourceBucket args) with
    | Err _ => (Exited "Failed to get versioning status", [EvGetBucketVersioning (SourceBucket args)])
    | Ok status =>
        match ensureS3InventoryConfig R (SourceBucket args) (ConfigName args)
                (String.eqb (ConfigName args) inventoryConfigName)
                [EvGetBucketVersioning (SourceBucket args)] with
        | (Returned (_, Some _), tr) => (Exited "Failed to get inventory config", tr)
        | (Returned (None, None), tr) =>
            (Panicked "invalid memory address or nil pointer dereference", tr)
        | (Returned (Some manifestArgs, None), tr) =>
            (let* manifestFile :=
               discover R fuel manifestArgs
                 match ParseDuration (RetryInterval args) with Ok d => d | Err _ => 0 end 0 in
             let* (jobParams, err) :=
               getJobParams R manifestFile
                 {| AccountId := AccountID args; RoleArn := MigrationRoleArn args;
                    SourceBucketName := SourceBucket args;
                    TargetBucketName := DestinationBucket args;
                    ManifestArn := None; ManifestETag := None;
                    VersioningDisabled := String.eqb status "" |}
                 {| StartDate := StartDt args; EndDate := EndDt args;
                    LatestOnly := MigrationLatestOnly args; kmsID := KmsID args |} in
             match err with
             | Some _ => Fatal "Failed to create batch parameters"
             | None => runJobs R fuel (AccountID args) (ReqSuccessThreshold args) jobParams
             end) tr
        | (Exited msg, tr) => (Exited msg, tr)
        | (Panicked msg, tr) => (Panicked msg, tr)
        | (OutOfFuel, tr) => (OutOfFuel, tr)
        end
    end.
Proof.
  intros Hload. unfold Run. rewrite Hload. unfold isVersioningDisabled.
  unfold bind at 1 2. unfold call at 1. simpl app.
  destruct (GetBucketVersioning R [] (SourceBucket args)) as [status|e]; [|reflexivity].
  unfold ret at 1. unfold bind at 1.
  destruct (ensureS3InventoryConfig R _ _ _ _) as [[[[manifestArgs|] [e|]]| | |] tr];
    reflexivity.
Qed.

End Phases.

(** ** Writes of the inventory configuration in a run *)

Section InventoryWrites.

Context {F : Type} `{Float32 F} `{GoTime} `{GoJSON} `{GoSlices}.
Variable R : Remote.

Lemma Run_puts_after_inventory fuel (args : MigrationArgs F) :
  (puts (snd (Run R fuel args []))
   <= puts (snd (ensureS3InventoryConfig R (SourceBucket args) (ConfigName args)
                   (String.eqb (ConfigName args) inventoryConfigName)
                   [EvGetBucketVersioning (SourceBucket args)])))%nat.
Proof.
  destruct (LoadDefaultConfig R (SourceRegion args)) as [e|] eqn:Hload.
  - unfold Run. rewrite Hload. simpl. lia.
  - rewrite (Run_unfold R fuel args Hload).
    destruct (GetBucketVersioning R [] (SourceBucket args)) as [status|e]; [|simpl; lia].
    destruct (ensureS3InventoryConfig R _ _ _ _) as [[[[manifestArgs|] [e|]]| | |] tr];
      simpl; try lia.
    rewrite emits_puts; [lia|]. apply emits_afterInventory_no_put.
Qed.

(** C8: in a run whose fetched inventory configuration exists and is
    enabled, no write of the inventory configuration is issued: the manager
    only reads, and the rest of the run never writes; and any run at all
    issues at most one such write. *)
Theorem C8_inventory_configuration_writes fuel (args : MigrationArgs F) cfg err :
  GetBucketInventoryConfiguration R [EvGetBucketVersioning (SourceBucket args)]
    (SourceBucket args) (ConfigName args) = (Some cfg, err) ->
  IsEnabled cfg = true ->
  snd (ensureS3InventoryConfig R (SourceBucket args) (ConfigName args)
         (String.eqb (ConfigName args) inventoryConfigName)
         [EvGetBucketVersioning (SourceBucket args)])
    = [EvGetBucketVersioning (SourceBucket args);
       EvGetBucketInventoryConfiguration (SourceBucket args) (ConfigName args)]
  /\ puts (snd (Run R fuel args [])) = 0%nat
  /\ forall fuel' (args' : MigrationArgs F), (puts (snd (Run R fuel' args' [])) <= 1)%nat.
Proof.
  intros Hget Henabled. split; [|split].
  - rewrite (ensure_enabled R _ _ _ _ _ _ Hget Henabled). reflexivity.
  - pose proof (Run_puts_after_inventory fuel args) as Hle.
    rewrite (ensure_enabled R _ _ _ _ _ _ Hget Henabled) in Hle. simpl in Hle. lia.
  - intros fuel' args'.
    pose proof (Run_puts_after_inventory fuel' args') as Hle.
    pose proof (ensure_puts_le R (SourceBucket args') (ConfigName args')
                  (String.eqb (ConfigName args') inventoryConfigName)
                  [EvGetBucketVersioning (SourceBucket args')]) as Hens.
    simpl in Hens. lia.
Qed.

End InventoryWrites.

(** ** Manifest discovery *)

Section Discovery.

Context {F : Type} `{Float32 F} `{GoTime} `{GoJSON} `{GoSlices}.
Variable R : Remote.

Lemma sleeps_app tr1 tr2 : sleeps (tr1 ++ tr2) = sleeps tr1 ++ sleeps tr2.
Proof. unfold sleeps. apply omap_app. Qed.

(** From a retry counter of [24 - n] on, the loop sleeps [n] more times,
    lists [n + 1] more times and gives up. *)
Lemma discover_gives_up finderArgs duration n :
  (forall tr, fst (getLatestManifest R finderArgs tr) = Returned (None, None)) ->
  (n <= 24)%nat ->
  forall fuel tr, (n < fuel)%nat ->
  exists evs,
    discover R fuel finderArgs duration (24 - Z.of_nat n) tr = (Exited manifestNotFound, tr ++ evs)
    /\ sleeps evs = replicate n duration
    /\ length (List.filter isList evs) = S n
    /\ Forall (fun ev => isList ev || isSleep ev = true) evs.
Proof.
  intros Hnone. induction n as [|n IH]; intros Hn fuel tr Hfuel;
    (destruct fuel as [|fuel]; [lia|]); simpl discover.
  - pose proof (Hnone tr) as Hfst. pose proof (getLatestManifest_trace R finderArgs tr) as Hsnd.
    unfold bind. destruct (getLatestManifest R finderArgs tr) as [out tr1].
    simpl in Hfst, Hsnd. subst out tr1. simpl.
    eexists. split; [reflexivity|]. repeat split. repeat constructor.
  - pose proof (Hnone tr) as Hfst. pose proof (getLatestManifest_trace R finderArgs tr) as Hsnd.
    unfold bind at 1. destruct (getLatestManifest R finderArgs tr) as [out tr1].
    simpl in Hfst, Hsnd. subst out tr1.
    destruct (Z.ltb_spec 23 (24 - Z.of_nat (S n))) as [Hlt|_]; [lia|].
    unfold Sleep. rewrite bind_call.
    replace (24 - Z.of_nat (S n) + 1) with (24 - Z.of_nat n) by lia.
    destruct (IH ltac:(lia) fuel
                ((tr ++ [EvListObjectsV2
                           (listInput finderArgs
                              (windowStartOf (now R tr) (DateWindow finderArgs)))])
                 ++ [EvSleep duration]) ltac:(lia))
      as (evs & Hrun & Hsleeps & Hlists & Hall).
    rewrite Hrun. eexists. split; [rewrite <- !app_assoc; reflexivity|].
    split; [|split].
    + simpl. rewrite Hsleeps. reflexivity.
    + simpl. rewrite Hlists. reflexivity.
    + repeat constructor. exact Hall.
Qed.

(** C5: in a run that gets as far as manifest discovery, with a locator
    that never finds a manifest and never fails, the loop sleeps exactly 24
    times, each time for the configured interval, asks the locator once
    before the first sleep and once after each (25 list requests), and then
    ends the run with the fatal manifest-not-found message; the bound on the
    rounds only has to allow these 25. *)
Theorem C5_discovery_gives_up_after_24_retries fuel (args : MigrationArgs F) status manifestArgs :
  let duration := match ParseDuration (RetryInterval args) with Ok d => d | Err _ => 0 end in
  let inventory :=
    ensureS3InventoryConfig R (SourceBucket args) (ConfigName args)
      (String.eqb (ConfigName args) inventoryConfigName)
      [EvGetBucketVersioning (SourceBucket args)] in
  LoadDefaultConfig R (SourceRegion args) = None ->
  GetBucketVersioning R [] (SourceBucket args) = Ok status ->
  fst inventory = Returned (Some manifestArgs, None) ->
  (forall tr, fst (getLatestManifest R manifestArgs tr) = Returned (None, None)) ->
  (25 <= fuel)%nat ->
  exists evs,
    Run R fuel args [] = (Exited manifestNotFound, snd inventory ++ evs)
    /\ sleeps evs = replicate 24 duration
    /\ length (List.filter isList evs) = 25%nat
    /\ Forall (fun ev => isList ev || isSleep ev = true) evs.
Proof.
  intros duration inventory Hload Hversioning Hinventory Hnone Hfuel.
  rewrite (Run_unfold R fuel args Hload), Hversioning.
  subst inventory. destruct (ensureS3InventoryConfig R _ _ _ _) as [out tr].
  simpl in Hinventory. subst out. simpl snd.
  destruct (discover_gives_up manifestArgs duration 24 Hnone ltac:(lia) fuel tr ltac:(lia))
    as (evs & Hrun & Hsleeps & Hlists & Hall).
  exists evs. unfold bind at 1. change (24 - Z.of_nat 24) with 0 in Hrun.
  fold duration. rewrite Hrun. auto.
Qed.

End Discovery.

Section FilteredKey.

Context `{GoTime} `{GoJSON}.
Variable R : Remote.

Lemma createJobInput_upload manifestFile jobArgs filters body manifestJson csvFile rest tr :
  (forall tr', GetObject R tr' (SourceBucketName jobArgs) (Key manifestFile) = Ok (Ok body)) ->
  Unmarshal body = Ok manifestJson ->
  Files manifestJson = csvFile :: rest ->
  exists evs,
    snd (createJobInput R manifestFile jobArgs filters tr) = tr ++ evs
    /\ match fst (createJobInput R manifestFile jobArgs filters tr) with
       | Returned (p, jobArgs') =>
           uploadKeys evs = [filteredKey csvFile]
           /\ cji_ManifestArn p
              = Some (GetArn (SourceBucketName jobArgs +:+ "/" +:+ filteredKey csvFile))
           /\ SourceBucketName jobArgs' = SourceBucketName jobArgs
       | _ => True
       end.
Proof.
  intros Hget Hjson Hfiles.
  unfold createJobInput, filterManifestCsv, readInventoryManifest, filterGzippedCsv,
    uploadS3File, isOwnershipEnforced.
  unfold bind, call, ret, Fatal, panic. rewrite Hget, Hjson, Hfiles.
  destruct (GetQueryExpression _ _ _ _ _) as [expression [e|]].
  - eexists. split; [reflexivity|]. exact I.
  - repeat match goal with
           | |- context [match ?x with Ok _ => _ | Err _ => _ end] => destruct x
           | |- context [if ?x then _ else _] => destruct x
           end;
      simpl; rewrite <- !app_assoc;
      (eexists; split; [reflexivity|]); simpl; auto.
Qed.

(** C10: in a dual-job run over a manifest document that stays the same,
    both filtered manifests are uploaded to one and the same key, the first
    data-file key of the document without its [.gz] suffix, whatever the
    latest-only value of the invocation; the two job specifications refer
    to that one object. *)
Theorem C10_filtered_manifests_share_one_key
    manifestFile jobArgs filters body manifestJson csvFile rest tr pv pn :
  VersioningDisabled jobArgs = false ->
  String.eqb (LatestOnly filters) "Yes" = false ->
  (forall tr', GetObject R tr' (SourceBucketName jobArgs) (Key manifestFile) = Ok (Ok body)) ->
  Unmarshal body = Ok manifestJson ->
  Files manifestJson = csvFile :: rest ->
  fst (getJobParams R manifestFile jobArgs filters tr)
    = Returned ({| versionJobParam := pv; nonVersionJobParam := pn |}, None) ->
  exists evs v n,
    snd (getJobParams R manifestFile jobArgs filters tr) = tr ++ evs
    /\ uploadKeys evs = [filteredKey csvFile; filteredKey csvFile]
    /\ filteredKey csvFile = TrimSuffix csvFile ".gz"
    /\ pv = Some v /\ pn = Some n
    /\ cji_ManifestArn v = cji_ManifestArn n
    /\ cji_ManifestArn n
       = Some (GetArn (SourceBucketName jobArgs +:+ "/" +:+ filteredKey csvFile)).
Proof.
  intros Hversioned Hlatest Hget Hjson Hfiles Hret.
  unfold getJobParams in *. rewrite Hversioned, Hlatest in *.
  destruct (createJobInput_upload manifestFile jobArgs (withLatestOnly filters "Yes")
              body manifestJson csvFile rest tr Hget Hjson Hfiles) as (evs1 & Htr1 & Hfst1).
  unfold bind at 1. unfold bind in Hret at 1.
  destruct (createJobInput R manifestFile jobArgs (withLatestOnly filters "Yes") tr)
    as [[[v jobArgs1]| | |] tr1]; try discriminate Hret.
  simpl in Htr1. subst tr1. destruct Hfst1 as (Hkeys1 & Harn1 & Hbucket1).
  assert (Hget1 : forall tr', GetObject R tr' (SourceBucketName jobArgs1) (Key manifestFile)
                              = Ok (Ok body)) by (rewrite Hbucket1; exact Hget).
  destruct (createJobInput_upload manifestFile jobArgs1 (withLatestOnly filters "No")
              body manifestJson csvFile rest (tr ++ evs1) Hget1 Hjson Hfiles)
    as (evs2 & Htr2 & Hfst2).
  unfold bind at 1. unfold bind in Hret at 1.
  destruct (createJobInput R manifestFile jobArgs1 (withLatestOnly filters "No") (tr ++ evs1))
    as [[[n jobArgs2]| | |] tr2]; try discriminate Hret.
  simpl in Htr2. subst tr2. destruct Hfst2 as (Hkeys2 & Harn2 & Hbucket2).
  simpl in Hret. injection Hret as <- <-.
  exists (evs1 ++ evs2), v, n. simpl. rewrite app_assoc.
  unfold uploadKeys in *. rewrite omap_app, Hkeys1, Hkeys2.
  rewrite Harn1, Harn2, Hbucket1. repeat split; reflexivity.
Qed.

End FilteredKey.

(** ** The order of the two jobs of a versioned run *)

Lemma unique_occurrence {A} (P : A -> bool) a x b pre y post :
  a ++ x :: b = pre ++ y :: post ->
  Forall (fun z => P z = false) a -> P x = true -> Forall (fun z => P z = false) b ->
  P y = true ->
  pre = a /\ y = x /\ post = b.
Proof.
  intros Heq Ha Hx Hb. revert pre Heq. induction Ha as [|a0 a Ha0 Ha IH]; intros pre Heq Hy.
  - destruct pre as [|z pre]; simpl in Heq; injection Heq as -> Heq; [auto|].
    subst b. apply List.Forall_app in Hb as [_ Hb].
    apply Forall_inv in Hb. congruence.
  - destruct pre as [|z pre]; simpl in Heq; injection Heq as -> Heq; [congruence|].
    destruct (IH pre Heq Hy) as (-> & -> & ->). auto.
Qed.

Lemma first_occurrence {A} (P : A -> bool) a x b a' x' b' :
  a ++ x :: b = a' ++ x' :: b' ->
  Forall (fun z => P z = false) a -> P x = true ->
  Forall (fun z => P z = false) a' -> P x' = true ->
  a = a' /\ x = x' /\ b = b'.
Proof.
  intros Heq Ha Hx Ha'. revert a Ha Heq.
  induction Ha' as [|a0' a' Ha0' Ha' IH]; intros a Ha Heq Hx'.
  - destruct Ha as [|a0 a Ha0 Ha]; simpl in Heq; injection Heq as -> Heq; [auto|congruence].
  - destruct Ha as [|a0 a Ha0 Ha]; simpl in Heq; injection Heq as -> Heq; [congruence|].
    destruct (IH a Ha Heq Hx') as (-> & -> & ->). auto.
Qed.

Lemma no_occurrence {A} (P : A -> bool) l pre y post :
  l = pre ++ y :: post -> Forall (fun z => P z = false) l -> P y = false.
Proof.
  intros -> Hl. apply List.Forall_app in Hl as [_ Hl]. apply Forall_inv in Hl. exact Hl.
Qed.

Lemma polling_quiet accountID jobId evs :
  polling accountID jobId evs ->
  Forall (fun ev => isTerminalAnswer ev = false) evs
  /\ Forall (fun ev => isCreateJob ev = false) evs.
Proof.
  induction 1 as [|r evs Hr _ [IH1 IH2]]; [split; constructor|].
  split; repeat constructor; assumption.
Qed.

(** A job starts with its creation, and creates no other job. *)
Lemma job_run_events slot accountID param o evs :
  job_run slot accountID param o evs ->
  exists resp rest,
    evs = EvCreateJob slot param resp :: rest
    /\ Forall (fun ev => isCreateJob ev = false) rest.
Proof.
  intros Hrun. destruct Hrun as [e|jobId evs Hp|jobId evs e Hp|jobId evs r Hp Hr];
    try (apply polling_quiet in Hp as [_ Hp]);
    do 2 eexists; (split; [reflexivity|]); repeat constructor; auto;
    apply List.Forall_app; split; auto.
Qed.

(** A job that does not finish leaves no terminal answer in the history. *)
Lemma job_run_stopped slot accountID param o evs :
  job_run slot accountID param o evs -> (forall r, o <> Returned r) ->
  Forall (fun ev => isTerminalAnswer ev = false) evs.
Proof.
  intros Hrun Hstopped. destruct Hrun as [e|jobId evs Hp|jobId evs e Hp|jobId evs r Hp Hr];
    try (apply polling_quiet in Hp as [Hp _]);
    repeat constructor; auto.
  - apply List.Forall_app; split; auto.
  - exfalso. eapply Hstopped. reflexivity.
Qed.

(** A job that finishes: the terminal answer is the last event, and the
    only terminal answer. *)
Lemma job_run_finished slot accountID param r evs :
  job_run slot accountID param (Returned (Some r)) evs ->
  exists jobId polls,
    evs = EvCreateJob slot param (Ok jobId) :: EvSleep (15 * Second)
            :: polls ++ [EvDescribeJob accountID jobId (Ok r)]
    /\ polling accountID jobId polls
    /\ IsTerminal (Status r) = true.
Proof.
  intros Hrun. inversion Hrun; subst. eauto.
Qed.

Section JobOrder.

Context {F : Type} `{Float32 F} `{GoTime} `{GoJSON} `{GoSlices}.
Variable R : Remote.

Lemma poll_loop_shape fuel accountID jobId tr :
  exists evs,
    polling accountID jobId evs
    /\ (poll_loop R fuel accountID jobId tr = (OutOfFuel, tr ++ evs)
        \/ (exists e, poll_loop R fuel accountID jobId tr
                      = (Returned (None, Some e),
                         tr ++ evs ++ [EvDescribeJob accountID jobId (Err e)]))
        \/ (exists r, IsTerminal (Status r) = true
                      /\ poll_loop R fuel accountID jobId tr
                         = (Returned (Some r, None),
                            tr ++ evs ++ [EvDescribeJob accountID jobId (Ok r)]))).
Proof.
  revert tr. induction fuel as [|fuel IH]; intros tr; simpl.
  - exists []. split; [constructor|]. left. rewrite app_nil_r. reflexivity.
  - rewrite bind_call.
    destruct (DescribeJob R tr accountID jobId) as [r|e].
    + destruct (IsTerminal (Status r)) eqn:Hr.
      * exists []. split; [constructor|]. right. right. exists r. auto.
      * unfold Sleep. rewrite bind_call.
        destruct (IH ((tr ++ [EvDescribeJob accountID jobId (Ok r)])
                      ++ [EvSleep (60 * Second)])) as (evs & Hp & Hcases).
        exists (EvDescribeJob accountID jobId (Ok r) :: EvSleep (60 * Second) :: evs).
        split; [constructor; assumption|].
        destruct Hcases as [Hrun|[(e & Hrun)|(r' & Hr' & Hrun)]]; rewrite Hrun;
          [left | right; left; exists e | right; right; exists r'; split; [assumption|]];
          rewrite <- !app_assoc; reflexivity.
    + exists []. split; [constructor|]. right. left. exists e. reflexivity.
Qed.

Lemma submitAndPoll_shape fuel slot accountID param tr :
  exists o evs,
    submitAndPoll R fuel slot accountID param tr = (o, tr ++ evs)
    /\ job_run slot accountID param o evs.
Proof.
  unfold submitAndPoll. rewrite bind_call.
  destruct (CreateJob R tr param) as [jobId|e].
  - unfold pollJobResult, Sleep. unfold bind at 1. rewrite bind_call.
    destruct (poll_loop_shape fuel accountID jobId
                ((tr ++ [EvCreateJob slot param (Ok jobId)]) ++ [EvSleep (15 * Second)]))
      as (evs & Hp & [Hrun|[(e & Hrun)|(r & Hr & Hrun)]]);
      rewrite Hrun; simpl; rewrite <- !app_assoc; simpl;
      (do 2 eexists; split; [reflexivity|]); constructor; assumption.
  - simpl. do 2 eexists. split; [reflexivity|]. constructor.
Qed.

(** The job part of a run that has both job specifications. *)
Lemma runJobs_dual fuel accountID (req : F) pv pn tr :
  exists out evs,
    runJobs R fuel accountID req {| versionJobParam := Some pv; nonVersionJobParam := Some pn |} tr
      = (out, tr ++ evs)
    /\ dual_run accountID req pv pn out evs.
Proof.
  unfold runJobs. simpl versionJobParam. simpl nonVersionJobParam.
  destruct (submitAndPoll_shape fuel NonVersionJob accountID pn tr) as (o1 & evs1 & Hrun1 & Hjob1).
  unfold bind at 1. rewrite Hrun1.
  destruct o1 as [[r|]| msg | msg |];
    try solve [do 2 eexists; split; [reflexivity|];
               eapply dual_nonlatest_stopped; [exact Hjob1 | intros; discriminate | intros; discriminate]].
  - unfold bind at 1. unfold bind at 1.
    destruct (f32_ltb (GetJobSuccessThreshold [Some r]) req) eqn:Hthreshold.
    + simpl. do 2 eexists. split; [reflexivity|]. eapply dual_below_threshold; eassumption.
    + simpl.
      destruct (submitAndPoll_shape fuel VersionJob accountID pv (tr ++ evs1))
        as (o2 & evs2 & Hrun2 & Hjob2).
      rewrite Hrun2. rewrite <- app_assoc.
      destruct o2 as [r2| msg | msg |]; simpl;
        [destruct (f32_ltb (GetJobSuccessThreshold [Some r; r2]) req)| | |];
        (do 2 eexists; split; [reflexivity|]);
        eapply dual_latest_submitted; eassumption.
  - inversion Hjob1.
Qed.

(** Without the latest-only filter, a versioned bucket gets two job
    specifications: the one for the latest versions is built first, the one
    for the other versions second, on the arguments the first one left. *)
Lemma getJobParams_dual_filters manifestFile jobArgs filters :
  VersioningDisabled jobArgs = false ->
  String.eqb (LatestOnly filters) "Yes" = false ->
  getJobParams R manifestFile jobArgs filters =
    (let* (pv, jobArgs1) :=
       createJobInput R manifestFile jobArgs (withLatestOnly filters "Yes") in
     let* (pn, _) := createJobInput R manifestFile jobArgs1 (withLatestOnly filters "No") in
     ret ({| versionJobParam := Some pv; nonVersionJobParam := Some pn |}, None)).
Proof. intros Hversioned Hlatest. unfold getJobParams. rewrite Hversioned, Hlatest. reflexivity. Qed.

Lemma getJobParams_dual manifestFile jobArgs filters tr jobParams err tr' :
  VersioningDisabled jobArgs = false ->
  String.eqb (LatestOnly filters) "Yes" = false ->
  getJobParams R manifestFile jobArgs filters tr = (Returned (jobParams, err), tr') ->
  err = None
  /\ exists pv pn, jobParams = {| versionJobParam := Some pv; nonVersionJobParam := Some pn |}.
Proof.
  intros Hversioned Hlatest. unfold getJobParams. rewrite Hversioned, Hlatest.
  unfold bind at 1.
  destruct (createJobInput R manifestFile jobArgs (withLatestOnly filters "Yes") tr)
    as [[[pv jobArgs1]| | |] tr1]; try discriminate.
  unfold bind at 1.
  destruct (createJobInput R manifestFile jobArgs1 (withLatestOnly filters "No") tr1)
    as [[[pn jobArgs2]| | |] tr2]; try discriminate.
  simpl. intros [= <- <- <-]. eauto.
Qed.

Lemma isJobEvent_isCreateJob ev : isJobEvent ev = false -> isCreateJob ev = false.
Proof. destruct ev; simpl; congruence. Qed.

Lemma isCreateJob_isVersionCreate ev : isCreateJob ev = false -> isVersionCreate ev = false.
Proof. destruct ev as [| | | | | | | | |[] ? ?| |]; simpl; congruence. Qed.

Lemma isCreateJob_isNonVersionCreate ev :
  isCreateJob ev = false -> isNonVersionCreate ev = false.
Proof. destruct ev as [| | | | | | | | |[] ? ?| |]; simpl; congruence. Qed.

(** The history of a versioned run without the latest-only filter: first
    events that concern no job, then nothing at all or the history of the
    two jobs. *)
Lemma Run_dual_shape fuel (args : MigrationArgs F) status :
  GetBucketVersioning R [] (SourceBucket args) = Ok status ->
  String.eqb status "" = false ->
  String.eqb (MigrationLatestOnly args) "Yes" = false ->
  exists out pre evs,
    Run R fuel args [] = (out, pre ++ evs)
    /\ Forall (fun ev => isJobEvent ev = false) pre
    /\ (evs = []
        \/ exists pv pn,
             dual_run (AccountID args) (ReqSuccessThreshold args) pv pn out evs).
Proof.
  intros Hversioning Hstatus Hlatest.
  destruct (LoadDefaultConfig R (SourceRegion args)) as [e|] eqn:Hload.
  { unfold Run. rewrite Hload. eexists _, [], []. simpl. auto. }
  rewrite (Run_unfold R fuel args Hload), Hversioning, Hstatus.
  destruct (emits_ensure_no_job R (SourceBucket args) (ConfigName args)
              (String.eqb (ConfigName args) inventoryConfigName)
              [EvGetBucketVersioning (SourceBucket args)]) as (evsE & HtrE & HallE).
  destruct (ensureS3InventoryConfig R _ _ _ _) as [oE trE]. cbn [snd] in HtrE. subst trE.
  assert (Hpre1 : Forall (fun ev => isJobEvent ev = false)
                    ([EvGetBucketVersioning (SourceBucket args)] ++ evsE))
    by (apply List.Forall_app; split; [repeat constructor | assumption]).
  set (tr1 := [EvGetBucketVersioning (SourceBucket args)] ++ evsE) in *.
  destruct oE as [[[manifestArgs|] [e|]]| | |];
    try solve [eexists _, tr1, []; rewrite app_nil_r; simpl; auto].
  destruct (quiet_no_job _ (quiet_discover R fuel manifestArgs
              match ParseDuration (RetryInterval args) with Ok d => d | Err _ => 0 end 0) tr1)
    as (evsD & HtrD & HallD).
  unfold bind at 1.
  destruct (discover R fuel manifestArgs _ 0 tr1) as [oD trD]. cbn [snd] in HtrD. subst trD.
  assert (Hpre2 : Forall (fun ev => isJobEvent ev = false) (tr1 ++ evsD))
    by (apply List.Forall_app; split; assumption).
  set (tr2 := tr1 ++ evsD) in *.
  destruct oD as [manifestFile| | |];
    try solve [eexists _, tr2, []; rewrite app_nil_r; simpl; auto].
  set (jobArgs := {| AccountId := AccountID args; RoleArn := MigrationRoleArn args;
                     SourceBucketName := SourceBucket args;
                     TargetBucketName := DestinationBucket args;
                     ManifestArn := None; ManifestETag := None;
                     VersioningDisabled := false |}).
  set (filters := {| StartDate := StartDt args; EndDate := EndDt args;
                     LatestOnly := MigrationLatestOnly args; kmsID := KmsID args |}).
  destruct (quiet_no_job _ (quiet_getJobParams R manifestFile jobArgs filters) tr2)
    as (evsG & HtrG & HallG).
  unfold bind at 1.
  destruct (getJobParams R manifestFile jobArgs filters tr2) as [oG trG] eqn:HG.
  cbn [snd] in HtrG. subst trG.
  assert (Hpre3 : Forall (fun ev => isJobEvent ev = false) (tr2 ++ evsG))
    by (apply List.Forall_app; split; assumption).
  set (tr3 := tr2 ++ evsG) in *.
  destruct oG as [[jobParams err]| | |];
    try solve [eexists _, tr3, []; rewrite app_nil_r; simpl; auto].
  destruct (getJobParams_dual manifestFile jobArgs filters tr2 jobParams err _ eq_refl Hlatest HG)
    as (-> & pv & pn & ->).
  destruct (runJobs_dual fuel (AccountID args) (ReqSuccessThreshold args) pv pn tr3)
    as (out & evs & Hrun & Hdual).
  rewrite Hrun. exists out, tr3, evs.
  split; [reflexivity|]. split; [assumption|]. right. eauto.
Qed.

(** In a versioned run without the latest-only filter, the creation of the
    latest-version job comes only after the non-latest-version job was
    created and polled to a terminal answer for which the ratio that the
    engine computes is not below the required threshold; and when that
    ratio is below the threshold, the run ends at once with the threshold
    error and the latest-version job is never created. *)
Lemma Run_gate fuel (args : MigrationArgs F) status :
  GetBucketVersioning R [] (SourceBucket args) = Ok status ->
  String.eqb status "" = false ->
  String.eqb (MigrationLatestOnly args) "Yes" = false ->
  latest_after_nonlatest (AccountID args) (ReqSuccessThreshold args)
    (snd (Run R fuel args []))
  /\ stops_below_threshold (ReqSuccessThreshold args)
       (fst (Run R fuel args [])) (snd (Run R fuel args [])).
Proof.
  unfold latest_after_nonlatest, stops_below_threshold.
  intros Hversioning Hstatus Hlatest.
  destruct (Run_dual_shape fuel args status Hversioning Hstatus Hlatest)
    as (out & pre0 & evs & Hrun & Hpre0 & Hevs).
  rewrite Hrun. cbv zeta. cbn [fst snd].
  assert (HpreC : Forall (fun ev => isCreateJob ev = false) pre0)
    by (eapply List.Forall_impl; [apply isJobEvent_isCreateJob | exact Hpre0]).
  assert (HpreV : Forall (fun ev => isVersionCreate ev = false) pre0)
    by (eapply List.Forall_impl; [apply isCreateJob_isVersionCreate | exact HpreC]).
  assert (HpreN : Forall (fun ev => isNonVersionCreate ev = false) pre0)
    by (eapply List.Forall_impl; [apply isCreateJob_isNonVersionCreate | exact HpreC]).
  assert (HnoV : forall slot pn o evs1,
             slot = NonVersionJob -> job_run slot (AccountID args) pn o evs1 ->
             Forall (fun ev => isVersionCreate ev = false) (pre0 ++ evs1)).
  { intros slot pn o evs1 -> Hjob. apply job_run_events in Hjob as (resp & rest & -> & Hrest).
    apply List.Forall_app. split; [assumption|]. constructor; [reflexivity|].
    eapply List.Forall_impl; [apply isCreateJob_isVersionCreate | exact Hrest]. }
  split.
  - (* the latest-version job is created *)
    intros pre pv resp post Hdec.
    destruct Hevs as [->|(pv' & pn & Hdual)].
    { rewrite app_nil_r in Hdec.
      pose proof (no_occurrence isVersionCreate _ _ _ _ Hdec HpreV). discriminate. }
    destruct Hdual as [o out evs1 Hjob _ _|r evs1 Hjob _|r evs1 o evs2 out Hjob1 Hratio Hjob2].
    + pose proof (no_occurrence isVersionCreate _ _ _ _ Hdec
                    (HnoV _ _ _ _ eq_refl Hjob)). discriminate.
    + pose proof (no_occurrence isVersionCreate _ _ _ _ Hdec
                    (HnoV _ _ _ _ eq_refl Hjob)). discriminate.
    + pose proof (HnoV _ _ _ _ eq_refl Hjob1) as Hbefore.
      apply job_run_finished in Hjob1 as (jobId & polls & -> & Hpolls & Hterminal).
      apply job_run_events in Hjob2 as (resp' & rest2 & -> & Hrest2).
      rewrite app_assoc in Hdec.
      eapply (unique_occurrence isVersionCreate) in Hdec as (-> & _ & _);
        [ | exact Hbefore | reflexivity
          | eapply List.Forall_impl; [apply isCreateJob_isVersionCreate | exact Hrest2]
          | reflexivity ].
      exists pre0, pn, jobId, polls, r. auto.
  - (* the non-latest-version job ends below the threshold *)
    intros pre pn jobId mid accountID jobId' r post Hdec Hmid Hterminal Hratio.
    destruct Hevs as [->|(pv' & pn' & Hdual)].
    { rewrite app_nil_r in Hdec.
      pose proof (no_occurrence isNonVersionCreate _ _ _ _ Hdec HpreN). discriminate. }
    destruct Hdual as [o out evs1 Hjob Hstopped _|r1 evs1 Hjob Hratio1
                      |r1 evs1 o evs2 out Hjob1 Hratio1 Hjob2].
    + pose proof (job_run_stopped _ _ _ _ _ Hjob Hstopped) as Hquiet.
      apply job_run_events in Hjob as (resp & rest & -> & Hrest).
      eapply (unique_occurrence isNonVersionCreate) in Hdec as (_ & _ & Hrest');
        [ | exact HpreN | reflexivity
          | eapply List.Forall_impl; [apply isCreateJob_isNonVersionCreate | exact Hrest]
          | reflexivity ].
      apply Forall_inv_tail in Hquiet. symmetry in Hrest'.
      pose proof (no_occurrence isTerminalAnswer _ _ _ _ Hrest' Hquiet) as Hno.
      simpl in Hno. congruence.
    + pose proof (HnoV _ _ _ _ eq_refl Hjob) as HallV.
      apply job_run_finished in Hjob as (jobId1 & polls & -> & Hpolls & Hterminal1).
      apply polling_quiet in Hpolls as [HpollsT HpollsC].
      eapply (unique_occurrence isNonVersionCreate) in Hdec as (_ & _ & Hrest');
        [ | exact HpreN | reflexivity | | reflexivity ].
      2:{ forall_split;
          eapply List.Forall_impl; try apply isCreateJob_isNonVersionCreate; eassumption. }
      change (EvSleep (15 * Second)
                :: polls ++ [EvDescribeJob (AccountID args) jobId1 (Ok r1)])
        with ((EvSleep (15 * Second) :: polls)
                ++ [EvDescribeJob (AccountID args) jobId1 (Ok r1)]) in Hrest'.
      eapply (first_occurrence isTerminalAnswer) in Hrest' as (_ & _ & ->);
        [ | exact Hmid | exact Hterminal
          | constructor; [reflexivity | exact HpollsT] | exact Hterminal1 ].
      auto.
    + apply job_run_finished in Hjob1 as (jobId1 & polls & -> & Hpolls & Hterminal1).
      apply polling_quiet in Hpolls as [HpollsT HpollsC].
      apply job_run_events in Hjob2 as (resp2 & rest2 & -> & Hrest2).
      eapply (unique_occurrence isNonVersionCreate) in Hdec as (_ & _ & Hrest');
        [ | exact HpreN | reflexivity | | reflexivity ].
      2:{ forall_split;
          eapply List.Forall_impl; try apply isCreateJob_isNonVersionCreate; eassumption. }
      assert (Hnice : (EvSleep (15 * Second)
                         :: polls ++ [EvDescribeJob (AccountID args) jobId1 (Ok r1)])
                      ++ EvCreateJob VersionJob pv' resp2 :: rest2
                      = (EvSleep (15 * Second) :: polls)
                          ++ EvDescribeJob (AccountID args) jobId1 (Ok r1)
                               :: EvCreateJob VersionJob pv' resp2 :: rest2)
        by (simpl; rewrite <- app_assoc; reflexivity).
      pose proof (eq_trans Hrest' Hnice) as Hsplit.
      eapply (first_occurrence isTerminalAnswer) in Hsplit as (_ & Hevent & _);
        [ | exact Hmid | exact Hterminal
          | constructor; [reflexivity | exact HpollsT] | exact Hterminal1 ].
      injection Hevent as _ _ ->. congruence.
Qed.

End JobOrder.

(** ** The theorems at work on the sample store *)

Section Samples.

#[local] Existing Instance simpleTime.
#[local] Existing Instance sampleJSON.
#[local] Existing Instance insertionSlices.

(** The run of the specification's scenario: a versioned bucket, no
    latest-only filter, and a non-latest-version job that ends with 1 of 10
    tasks succeeded. *)
Example sample_run_stops_at_the_gate :
  fst (Run sampleRemote 30 sampleArgs []) = Exited thresholdNotMetAtGate
  /\ createdSlots (snd (Run sampleRemote 30 sampleArgs [])) = [NonVersionJob].
Proof. vm_compute. split; reflexivity. Qed.

Example sample_run_filters_latest_then_others :
  selectExpressions (snd (Run sampleRemote 30 sampleArgs []))
  = ["SELECT s._1, s._2 FROM s3object s WHERE s._4 = 'true'";
     "SELECT s._1, s._2 FROM s3object s WHERE s._4 = 'false'"]
  /\ uploadKeys (snd (Run sampleRemote 30 sampleArgs []))
     = ["testsurcebucket/put-bucket-inventory-configuration/data/573a77fc-0397-4005-96d6-13a758a7635a.csv";
        "testsurcebucket/put-bucket-inventory-configuration/data/573a77fc-0397-4005-96d6-13a758a7635a.csv"].
Proof. vm_compute. split; reflexivity. Qed.

Example passing_run_creates_both_jobs_in_order :
  fst (Run passingRemote 30 sampleArgs []) = Returned None
  /\ createdSlots (snd (Run passingRemote 30 sampleArgs [])) = [NonVersionJob; VersionJob].
Proof. vm_compute. split; reflexivity. Qed.

(** A store whose list call fails: no error value comes back from the
    locator, the process ends. *)
Lemma C3_list_failure_is_not_returned :
  ListObjectsV2 unreachableRemote []
    (listInput sampleFinder (windowStartOf (now unreachableRemote []) (DateWindow sampleFinder)))
    = Err (PlainError "dial tcp: i/o timeout")
  /\ fst (getLatestManifest unreachableRemote sampleFinder []) = Exited listFailed
  /\ (forall o, fst (getLatestManifest unreachableRemote sampleFinder [])
                <> Returned (o, Some (PlainError "dial tcp: i/o timeout"))).
Proof. split; [reflexivity|]. split; [reflexivity|]. intros o. discriminate. Qed.

Lemma C3_sample_list_failure :
  getLatestManifest unreachableRemote sampleFinder [] =
    (Exited listFailed,
     [] ++ [EvListObjectsV2
              (listInput sampleFinder
                 (windowStartOf (now unreachableRemote []) (DateWindow sampleFinder)))])
  /\ (forall finderArgs' tr' o e',
        fst (getLatestManifest unreachableRemote finderArgs' tr') <> Returned (o, Some e'))
  /\ (forall finderArgs' tr',
        exists input,
          snd (getLatestManifest unreachableRemote finderArgs' tr')
          = tr' ++ [EvListObjectsV2 input]).
Proof.
  apply (C3_list_failure_exits unreachableRemote sampleFinder []
           (PlainError "dial tcp: i/o timeout")).
  vm_compute. reflexivity.
Defined.

Lemma C5_sample_discovery_gives_up :
  exists evs,
    Run emptyRemote 25 sampleArgs [] =
      (Exited manifestNotFound,
       snd (ensureS3InventoryConfig emptyRemote (SourceBucket sampleArgs)
              (ConfigName sampleArgs)
              (String.eqb (ConfigName sampleArgs) inventoryConfigName)
              [EvGetBucketVersioning (SourceBucket sampleArgs)]) ++ evs)
    /\ sleeps evs
       = replicate 24 match ParseDuration (RetryInterval sampleArgs) with
                      | Ok d => d
                      | Err _ => 0
                      end
    /\ length (List.filter isList evs) = 25%nat
    /\ Forall (fun ev => isList ev || isSleep ev = true) evs.
Proof.
  apply (C5_discovery_gives_up_after_24_retries emptyRemote 25 sampleArgs "Enabled"
           {| BucketName := "inventorybucket-test1";
              Prefix := "testsurcebucket/weekly-inventory/";
              DateWindow := -8 |});
    [ reflexivity | reflexivity | vm_compute; reflexivity
    | intros tr; reflexivity | apply le_n ].
Defined.

(** The weekly sample configuration: the window does not start eight days
    before the current time, nor eight half-days, but sixteen days. *)
Lemma C6_weekly_window_is_sixteen_days :
  fst (ensureS3InventoryConfig sampleRemote "testsurcebucket" "weekly-inventory" false [])
    = Returned (Some {| BucketName := "inventorybucket-test1";
                        Prefix := "testsurcebucket/weekly-inventory/";
                        DateWindow := -8 |}, None)
  /\ windowStartOf sampleNow (-8) = sampleNow - 16 * (24 * Hour)
  /\ windowStartOf sampleNow (-8) <> sampleNow - spec_lookback (Frequency weeklyConfiguration)
  /\ windowStartOf sampleNow (-8) <> sampleNow - 8 * (12 * Hour).
Proof.
  split; [reflexivity|]. split; [vm_compute; reflexivity|].
  split; vm_compute; discriminate.
Qed.

Lemma C6_sample_window :
  exists finderArgs,
    fst (ensureS3InventoryConfig sampleRemote "testsurcebucket" "weekly-inventory" false [])
      = Returned (Some finderArgs, None)
    /\ DateWindow finderArgs
       = (if String.eqb (Frequency weeklyConfiguration) InventoryFrequencyWeekly
          then -8 else -1)
    /\ forall tr',
         let span := if String.eqb (Frequency weeklyConfiguration) InventoryFrequencyWeekly
                     then 16 * (24 * Hour) else 2 * (24 * Hour) in
         windowStartOf (now sampleRemote tr') (DateWindow finderArgs)
           = now sampleRemote tr' - span
         /\ snd (getLatestManifest sampleRemote finderArgs tr')
            = tr' ++ [EvListObjectsV2 (listInput finderArgs (now sampleRemote tr' - span))].
Proof.
  apply (C6_window_of_enabled_configuration sampleRemote "testsurcebucket" "weekly-inventory"
           false [] weeklyConfiguration); reflexivity.
Defined.

Lemma C8_sample_run_writes_nothing :
  snd (ensureS3InventoryConfig sampleRemote (SourceBucket sampleArgs) (ConfigName sampleArgs)
         (String.eqb (ConfigName sampleArgs) inventoryConfigName)
         [EvGetBucketVersioning (SourceBucket sampleArgs)])
    = [EvGetBucketVersioning (SourceBucket sampleArgs);
       EvGetBucketInventoryConfiguration (SourceBucket sampleArgs) (ConfigName sampleArgs)]
  /\ puts (snd (Run sampleRemote 30 sampleArgs [])) = 0%nat
  /\ forall fuel' (args' : MigrationArgs Q),
       (puts (snd (Run sampleRemote fuel' args' [])) <= 1)%nat.
Proof.
  apply (C8_inventory_configuration_writes sampleRemote 30 sampleArgs weeklyConfiguration None);
    reflexivity.
Defined.

Example sample_retry_interval :
  match ParseDuration (RetryInterval sampleArgs) with Ok d => d | Err _ => 0 end = Hour.
Proof. vm_compute. reflexivity. Qed.

Example sample_listing_newest :
  fst (getLatestManifest sampleRemote sampleFinder []) = Returned (Some sampleManifestObject, None).
Proof. vm_compute. reflexivity. Qed.

Lemma C10_sample_keys :
  exists evs v n,
    snd (getJobParams sampleRemote sampleManifestObject sampleJobArgs sampleFilters [])
      = [] ++ evs
    /\ uploadKeys evs
       = [filteredKey "testsurcebucket/put-bucket-inventory-configuration/data/573a77fc-0397-4005-96d6-13a758a7635a.csv.gz";
          filteredKey "testsurcebucket/put-bucket-inventory-configuration/data/573a77fc-0397-4005-96d6-13a758a7635a.csv.gz"]
    /\ filteredKey "testsurcebucket/put-bucket-inventory-configuration/data/573a77fc-0397-4005-96d6-13a758a7635a.csv.gz"
       = TrimSuffix "testsurcebucket/put-bucket-inventory-configuration/data/573a77fc-0397-4005-96d6-13a758a7635a.csv.gz" ".gz"
    /\ Some sampleJobInput = Some v /\ Some sampleJobInput = Some n
    /\ cji_ManifestArn v = cji_ManifestArn n
    /\ cji_ManifestArn n
       = Some (GetArn (SourceBucketName sampleJobArgs +:+ "/"
                       +:+ filteredKey "testsurcebucket/put-bucket-inventory-configuration/data/573a77fc-0397-4005-96d6-13a758a7635a.csv.gz")).
Proof.
  exact (C10_filtered_manifests_share_one_key sampleRemote sampleManifestObject sampleJobArgs
           sampleFilters sampleManifestBody sampleManifest
           "testsurcebucket/put-bucket-inventory-configuration/data/573a77fc-0397-4005-96d6-13a758a7635a.csv.gz"
           [] [] (Some sampleJobInput) (Some sampleJobInput)
           eq_refl eq_refl (fun tr' => eq_refl) eq_refl eq_refl
           ltac:(vm_compute; reflexivity)).
Defined.

(** The repository's tests of the engine against its mock store. *)
Example isVersioningDisabled_repository_test :
  fst (isVersioningDisabled (mockRemote []) "testbucket" []) = Returned (false, None).
Proof. reflexivity. Qed.

Example ensureS3InventoryConfig_repository_test :
  ensureS3InventoryConfig (mockRemote []) "testbucket" "testconfig" false [] =
    (Returned (Some {| BucketName := "testbucket"; Prefix := "testbucket/testconfig/";
                       DateWindow := -1 |}, None),
     [EvGetBucketInventoryConfiguration "testbucket" "testconfig";
      EvPutBucketInventoryConfiguration "testbucket" "bulk-copy-inventory"
        (defaultInventoryConfiguration "testbucket")]).
Proof. reflexivity. Qed.

Example getLatestManifest_repository_tests :
  fst (getLatestManifest
         (mockRemote [{| Key := "/inventorybucket/manifest.json";
                         LastModified := sampleNow - 1; ETag := "/testetag/" |}])
         sampleFinder [])
  = Returned (Some {| Key := "/inventorybucket/manifest.json";
                      LastModified := sampleNow - 1; ETag := "/testetag/" |}, None)
  /\ fst (getLatestManifest (mockRemote [])
            {| BucketName := "test-bucket"; Prefix := "prefix/"; DateWindow := 24 |} [])
     = Returned (None, None).
Proof. split; vm_compute; reflexivity. Qed.

(** The cases of the repository's test of the filter expression. *)
Example GetQueryExpression_repository_tests :
  GetQueryExpression "Bucket, Key, VersionId, IsLatest, IsDeleteMarker,LastUpdated"
    (sampleNow + 24 * Hour) sampleNow "Yes" false
  = ("SELECT s._1, s._2 FROM s3object s WHERE s._4 = 'true' AND s._6 BETWEEN '2024-04-27T12:00:00' AND '2024-04-26T12:00:00'", None)
  /\ GetQueryExpression "Bucket, Key, VersionId, IsLatest, IsDeleteMarker"
       (sampleNow + 24 * Hour) sampleNow "No" false
     = ("SELECT s._1, s._2 FROM s3object s WHERE s._4 = 'false'", None)
  /\ GetQueryExpression "Bucket, Key, VersionId, IsLatest, IsDeleteMarker"
       (sampleNow + 24 * Hour) sampleNow "No" true
     = ("SELECT s._1, s._2 FROM s3object s", None)
  /\ GetQueryExpression "Bucket, Key, VersionId, IsLatest, IsDeleteMarker, LastUpdated"
       0 sampleNow "No" false
     = ("SELECT s._1, s._2 FROM s3object s WHERE s._4 = 'false' AND s._6 > '2024-04-26T12:00:00'", None)
  /\ GetQueryExpression "Bucket, Key, VersionId, IsLatest, IsDeleteMarker, LastUpdated"
       (sampleNow + 24 * Hour) 0 "No" false
     = ("SELECT s._1, s._2 FROM s3object s WHERE s._4 = 'false' AND s._6 < '2024-04-27T12:00:00'", None).
Proof. repeat split; vm_compute; reflexivity. Qed.

(** A selector that is set fails the call when the schema has no latest
    column; a schema of one column fails it in any case. *)
Example GetQueryExpression_errors :
  GetQueryExpression "Bucket, Key, LastUpdated" 0 0 "Yes" false
  = ("", Some (missingColumn "IsLatest" "Bucket, Key, LastUpdated"))
  /\ GetQueryExpression "Bucket" 0 0 "" false
     = ("", Some (PlainError "invalid input file schema: 'Bucket'")).
Proof. split; vm_compute; reflexivity. Qed.

End Samples.

(** * Further properties of the code *)

(** ** The streaming record reader: what a read hands out *)

Lemma payloads_cons_records payload events :
  payloads (Records payload :: events) = payload ++ payloads events.
Proof. reflexivity. Qed.

(** The first step of a round of the loop of [Read]: what is copied from
    the buffered remainder, and what stays buffered. *)
Lemma drain_step (remaining0 out : list Byte.byte) lenb :
  (length out <= lenb)%nat ->
  let n := Nat.min (lenb - length out) (length remaining0) in
  (out ++ take n remaining0) ++ drop n remaining0 = out ++ remaining0
  /\ (length (out ++ take n remaining0) <= lenb)%nat
  /\ ((0 <? length remaining0)%nat && (length (out ++ take n remaining0) =? lenb)%nat = false ->
      drop n remaining0 = []).
Proof.
  intros Hout n. split; [|split].
  - rewrite <- app_assoc, take_drop. reflexivity.
  - rewrite length_app, length_take. lia.
  - intros Hgo. apply drop_ge. apply andb_false_iff in Hgo as [Hempty|Hroom].
    + apply Nat.ltb_ge in Hempty. lia.
    + apply Nat.eqb_neq in Hroom. rewrite length_app, length_take in Hroom. lia.
Qed.

(** One run of the loop of [Read], from a buffer filled no further than its
    length. *)
Lemma read_loop_spec events : forall remaining0 lenb out,
  (length out <= lenb)%nat ->
  forall out' err r',
  read_loop events remaining0 lenb out = ((out', err), r') ->
  out' ++ pending r' = out ++ remaining0 ++ payloads events
  /\ (length out' <= lenb)%nat
  /\ (err = None \/ (err = Some EOF /\ out' = []))
  /\ (err = None -> (0 < lenb)%nat -> out' <> [])
  /\ (remaining r' <> [] -> length out' = lenb)
  /\ (closed r' = true -> pending r' = [])
  /\ (err = Some EOF -> Forall (fun ev => isEnd ev = false) events -> closed r' = true).
Proof.
  induction events as [|ev events IH]; intros remaining0 lenb out Hout out' err r' Hrun;
    simpl in Hrun;
    destruct (drain_step remaining0 out lenb Hout) as (Hsplit & Hlen1 & Hdrained);
    cbv zeta in Hsplit, Hlen1, Hdrained;
    set (n := Nat.min (lenb - length out) (length remaining0)) in *;
    set (out1 := out ++ take n remaining0) in *;
    destruct ((0 <? length remaining0)%nat && (length out1 =? lenb)%nat) eqn:Hret.
  - (* the buffer is full after the remainder *)
    injection Hrun as <- <- <-. apply andb_true_iff in Hret as [_ Hfull].
    apply Nat.eqb_eq in Hfull. unfold pending. simpl.
    repeat split; auto; try congruence.
    + rewrite app_assoc, Hsplit, <- app_assoc. reflexivity.
    + intros _ Hpos Hnil. rewrite Hnil in Hfull. simpl in Hfull. lia.
  - (* the channel is closed *)
    rewrite (Hdrained eq_refl) in *. rewrite app_nil_r in Hsplit.
    destruct (0 <? length out1)%nat eqn:Hany; injection Hrun as <- <- <-;
      unfold pending; simpl; rewrite ?app_nil_r.
    + apply Nat.ltb_lt in Hany. repeat split; auto; try congruence.
      intros _ _ Hnil. rewrite Hnil in Hany. simpl in Hany. lia.
    + apply Nat.ltb_ge in Hany.
      assert (out1 = []) as Hnil by (destruct out1; [reflexivity | simpl in Hany; lia]).
      rewrite Hnil in Hsplit. repeat split; auto; try congruence; try lia.
  - (* the buffer is full after the remainder *)
    injection Hrun as <- <- <-. apply andb_true_iff in Hret as [_ Hfull].
    apply Nat.eqb_eq in Hfull. unfold pending. simpl.
    repeat split; auto; try congruence.
    + rewrite app_assoc, Hsplit, <- app_assoc. reflexivity.
    + intros _ Hpos Hnil. rewrite Hnil in Hfull. simpl in Hfull. lia.
  - rewrite (Hdrained eq_refl) in *. rewrite app_nil_r in Hsplit.
    destruct ev as [payload| |].
    + (* records *)
      set (m := Nat.min (lenb - length out1) (length payload)) in *.
      assert (Hlen2 : (length (out1 ++ take m payload) <= lenb)%nat)
        by (rewrite length_app, length_take; lia).
      assert (Hrest : (out1 ++ take m payload)
                      ++ (if (m <? length payload)%nat then drop m payload else [])
                      = out1 ++ payload).
      { rewrite <- app_assoc. f_equal. destruct (m <? length payload)%nat eqn:Hm.
        - apply take_drop.
        - apply Nat.ltb_ge in Hm. rewrite take_ge by lia. apply app_nil_r. }
      destruct (length (out1 ++ take m payload) =? lenb)%nat eqn:Hfull.
      * injection Hrun as <- <- <-. apply Nat.eqb_eq in Hfull.
        unfold pending. simpl Stream. simpl remaining. simpl closed.
        rewrite payloads_cons_records.
        repeat split; auto; try congruence.
        -- rewrite app_assoc, Hrest, Hsplit, <- !app_assoc. reflexivity.
        -- intros _ Hpos Hnil. rewrite Hnil in Hfull. simpl in Hfull. lia.
      * destruct (IH _ _ _ Hlen2 _ _ _ Hrun) as (Hc & Hl & He & Hp & Hr & Hs & Hcl).
        rewrite payloads_cons_records.
        repeat split; auto.
        -- rewrite Hc. rewrite app_assoc, Hrest, Hsplit, <- !app_assoc. reflexivity.
        -- intros Heof Hev. apply Hcl; [assumption|]. apply Forall_inv_tail in Hev. exact Hev.
    + (* the end marker *)
      destruct (0 <? length out1)%nat eqn:Hany; injection Hrun as <- <- <-;
        unfold pending; simpl.
      * apply Nat.ltb_lt in Hany. repeat split; auto; try congruence.
        -- rewrite Hsplit, <- app_assoc. reflexivity.
        -- intros _ _ Hnil. rewrite Hnil in Hany. simpl in Hany. lia.
      * apply Nat.ltb_ge in Hany.
        assert (out1 = []) as Hnil by (destruct out1; [reflexivity | simpl in Hany; lia]).
        rewrite Hnil in Hsplit. repeat split; auto; try congruence; try lia.
        -- rewrite app_assoc, <- Hsplit. reflexivity.
        -- intros _ Hev. apply Forall_inv in Hev. discriminate Hev.
    + (* any other event *)
      destruct (IH _ _ _ Hlen1 _ _ _ Hrun) as (Hc & Hl & He & Hp & Hr & Hs & Hcl).
      repeat split; auto.
      * rewrite Hc, app_nil_l, Hsplit, <- app_assoc. reflexivity.
      * intros Heof Hev. apply Hcl; [assumption|]. apply Forall_inv_tail in Hev. exact Hev.
Qed.

(** The events that a run of the loop leaves are a tail of the stream. *)
Lemma read_loop_stream events : forall remaining0 lenb out,
  exists received, events = received ++ Stream (snd (read_loop events remaining0 lenb out)).
Proof.
  induction events as [|ev events IH]; intros remaining0 lenb out; simpl;
    set (n := Nat.min (lenb - length out) (length remaining0));
    set (out1 := out ++ take n remaining0);
    destruct ((0 <? length remaining0)%nat && (length out1 =? lenb)%nat).
  - exists []. reflexivity.
  - exists []. destruct (0 <? length out1)%nat; reflexivity.
  - exists []. reflexivity.
  - destruct ev as [payload| |].
    + destruct (length (out1 ++ take _ payload) =? lenb)%nat.
      * exists [Records payload]. reflexivity.
      * destruct (IH (if (Nat.min (lenb - length out1) (length payload) <? length payload)%nat
                      then drop (Nat.min (lenb - length out1) (length payload)) payload
                      else drop n remaining0) lenb
                     (out1 ++ take (Nat.min (lenb - length out1) (length payload)) payload))
          as (received & Hreceived).
        exists (Records payload :: received). simpl. f_equal. exact Hreceived.
    + exists [EndEvent]. destruct (0 <? length out1)%nat; reflexivity.
    + destruct (IH (drop n remaining0) lenb out1) as (received & Hreceived).
      exists (OtherEvent :: received). simpl. f_equal. exact Hreceived.
Qed.

Lemma Read_stream r lenb :
  exists received, Stream r = received ++ Stream (snd (Read r lenb)).
Proof.
  unfold Read. destruct (closed r); [exists []; reflexivity|]. apply read_loop_stream.
Qed.

Lemma Read_spec r lenb out err r' :
  closed r = false ->
  Read r lenb = ((out, err), r') ->
  out ++ pending r' = pending r
  /\ (length out <= lenb)%nat
  /\ (err = None \/ (err = Some EOF /\ out = []))
  /\ (err = None -> (0 < lenb)%nat -> out <> [])
  /\ (remaining r' <> [] -> length out = lenb)
  /\ (closed r' = true -> pending r' = [])
  /\ (err = Some EOF -> Forall (fun ev => isEnd ev = false) (Stream r) -> closed r' = true).
Proof.
  intros Hopen Hrun. unfold Read in Hrun. rewrite Hopen in Hrun.
  apply read_loop_spec in Hrun; [|simpl; lia]. exact Hrun.
Qed.

(** A single call: the bytes handed out and the bytes still owed are the
    bytes owed before, for every reader, a closed one included. *)
Lemma Read_pending r lenb :
  fst (fst (Read r lenb)) ++ pending (snd (Read r lenb)) = pending r.
Proof.
  destruct (closed r) eqn:Hclosed.
  - rewrite (Read_closed r lenb Hclosed). reflexivity.
  - destruct (Read r lenb) as [[out err] r'] eqn:Hrun.
    apply (Read_spec r lenb out err r' Hclosed Hrun).
Qed.

(** X1.  No byte is lost, repeated or made up by reading: the bytes that
    successive calls of [Read] hand out, concatenated, followed by what the
    reader still owes after the last call (its buffered remainder and the
    payloads of the records not yet received), are what it owed at the
    start.  This holds for every reader, every sequence of buffer lengths
    and every outcome of the calls, closed readers and calls that end in an
    error included. *)
Theorem X1_reads_hand_out_a_prefix lens : forall r,
  fst (reads r lens) ++ pending (snd (reads r lens)) = pending r.
Proof.
  induction lens as [|lenb lens IH]; intros r; [reflexivity|].
  simpl. destruct (Read r lenb) as [[out err] r1] eqn:Hrun.
  specialize (IH r1). destruct (reads r1 lens) as [more r2]. simpl in *.
  rewrite <- app_assoc, IH.
  pose proof (Read_pending r lenb) as Hc. rewrite Hrun in Hc. exact Hc.
Qed.

(** X2.  What one call of [Read] on an open reader reports: never more
    bytes than the buffer holds; an error only with no byte at all, and
    that error is the end of data; with a buffer of positive length and no
    error, at least one byte; and bytes stay buffered in the reader only
    when the buffer was filled. *)
Theorem X2_Read_count_and_error r lenb out err r' :
  closed r = false ->
  Read r lenb = ((out, err), r') ->
  (length out <= lenb)%nat
  /\ (err = None \/ (err = Some EOF /\ out = []))
  /\ (err = None -> (0 < lenb)%nat -> out <> [])
  /\ (remaining r' <> [] -> length out = lenb).
Proof.
  intros Hopen Hrun.
  destruct (Read_spec r lenb out err r' Hopen Hrun) as (_ & Hl & He & Hp & Hr & _).
  auto.
Qed.

Lemma X2_sample_read :
  (length [Byte.x61; Byte.x2c; Byte.x62] <= 3)%nat
  /\ (@None IOError = None \/ (@None IOError = Some EOF /\ [Byte.x61; Byte.x2c; Byte.x62] = []))
  /\ (@None IOError = None -> (0 < 3)%nat -> [Byte.x61; Byte.x2c; Byte.x62] <> [])
  /\ (remaining {| Stream := [OtherEvent; Records [Byte.x2c; Byte.x64; Byte.x0a]; OtherEvent];
                   remaining := [Byte.x0a; Byte.x63]; closed := false |} <> [] ->
      length [Byte.x61; Byte.x2c; Byte.x62] = 3%nat).
Proof.
  apply (X2_Read_count_and_error (newReader sampleStream) 3); reflexivity.
Defined.

(** X3.  When the stream carries no end marker, the end of data is final:
    a call of [Read] on an open reader that reports the end of data has
    closed the reader with nothing left owed, and every later call, with
    any buffer, reports the closed pipe, hands out nothing and leaves the
    reader as it is. *)
Theorem X3_Read_eof_is_final_without_end_marker r lenb out r' :
  closed r = false ->
  Forall (fun ev => isEnd ev = false) (Stream r) ->
  Read r lenb = ((out, Some EOF), r') ->
  out = [] /\ pending r = [] /\ closed r' = true
  /\ (forall lenb', Read r' lenb' = (([], Some ErrClosedPipe), r'))
  /\ (forall lens, reads r' lens = ([], r')).
Proof.
  intros Hopen Hev Hrun.
  destruct (Read_spec r lenb out (Some EOF) r' Hopen Hrun)
    as (Hc & _ & He & _ & _ & Hp & Hcl).
  specialize (Hcl eq_refl Hev).
  destruct He as [He|[_ Hnil]]; [discriminate He|].
  assert (Hlater : forall lenb', Read r' lenb' = (([], Some ErrClosedPipe), r'))
    by (intros lenb'; apply Read_closed; exact Hcl).
  repeat split; auto.
  - rewrite <- Hc, Hnil, (Hp Hcl). reflexivity.
  - induction lens as [|lenb' lens IH]; [reflexivity|].
    simpl. rewrite Hlater, IH. reflexivity.
Qed.

Lemma X3_sample_end_of_data :
  @nil Byte.byte = [] /\ pending (newReader [OtherEvent; Records []]) = []
  /\ closed {| Stream := []; remaining := []; closed := true |} = true
  /\ (forall lenb',
       Read {| Stream := []; remaining := []; closed := true |} lenb'
       = (([], Some ErrClosedPipe), {| Stream := []; remaining := []; closed := true |}))
  /\ (forall lens,
       reads {| Stream := []; remaining := []; closed := true |} lens
       = ([], {| Stream := []; remaining := []; closed := true |})).
Proof.
  apply (X3_Read_eof_is_final_without_end_marker (newReader [OtherEvent; Records []]) 4);
    [ reflexivity | repeat constructor | reflexivity ].
Defined.

(** X21.  Reading to the end delivers everything: on an open reader whose
    stream carries no end marker, calls of [Read] with a buffer of one
    positive length, more of them than there are bytes owed, hand out all
    the bytes owed (the buffered remainder, then the payloads of the
    records in order) and leave the reader closed. *)
Theorem X21_reading_to_the_end_delivers_everything lenb n : forall r,
  (0 < lenb)%nat ->
  closed r = false ->
  Forall (fun ev => isEnd ev = false) (Stream r) ->
  (length (pending r) < n)%nat ->
  fst (reads r (replicate n lenb)) = pending r
  /\ closed (snd (reads r (replicate n lenb))) = true.
Proof.
  induction n as [|n IH]; intros r Hlenb Hopen Hev Howed; [lia|].
  simpl. destruct (Read r lenb) as [[out err] r1] eqn:Hrun.
  destruct (Read_spec r lenb out err r1 Hopen Hrun)
    as (Hc & _ & He & Hp & _ & Hdone & Hcl).
  assert (Hclosed : closed r1 = true ->
            fst (let '(more, r2) := reads r1 (replicate n lenb) in (out ++ more, r2))
              = pending r
            /\ closed (snd (let '(more, r2) := reads r1 (replicate n lenb) in
                            (out ++ more, r2))) = true).
  { intros Hr1.
    assert (Hlater : reads r1 (replicate n lenb) = ([], r1)).
    { clear -Hr1. induction n as [|n IHn]; [reflexivity|].
      simpl. rewrite (Read_closed r1 lenb Hr1), IHn. reflexivity. }
    rewrite Hlater. simpl. rewrite app_nil_r, <- Hc, (Hdone Hr1), app_nil_r.
    split; [reflexivity | exact Hr1]. }
  destruct (closed r1) eqn:Hr1; [apply Hclosed; reflexivity|].
  destruct He as [->|[-> _]]; [|discriminate (Hcl eq_refl Hev)].
  assert (Hev1 : Forall (fun ev => isEnd ev = false) (Stream r1)).
  { destruct (Read_stream r lenb) as (received & Hreceived). rewrite Hrun in Hreceived.
    simpl in Hreceived. rewrite Hreceived in Hev. apply List.Forall_app in Hev. apply Hev. }
  assert (Hless : (length (pending r1) < n)%nat).
  { specialize (Hp eq_refl Hlenb). rewrite <- Hc, length_app in Howed.
    destruct out; [congruence | simpl in Howed; lia]. }
  destruct (IH r1 Hlenb Hr1 Hev1 Hless) as [Hall Hend].
  destruct (reads r1 (replicate n lenb)) as [more r2]. simpl in *.
  rewrite Hall. split; [exact Hc | exact Hend].
Qed.

Lemma X21_sample_stream_read_to_the_end :
  fst (reads (newReader sampleStream) (replicate 9 3%nat)) = pending (newReader sampleStream)
  /\ closed (snd (reads (newReader sampleStream) (replicate 9 3%nat))) = true.
Proof.
  apply (X21_reading_to_the_end_delivers_everything 3 9 (newReader sampleStream)).
  - lia.
  - reflexivity.
  - repeat constructor.
  - simpl. lia.
Defined.

(** ** The success ratio: which job decides it *)

Lemma threshold_loop_last_counted jobs : forall acc,
  threshold_loop jobs acc =
    match last_counted jobs with
    | Some j => (int32 (NumberOfTasksSucceeded (ProgressSummary j)),
                 int32 (TotalNumberOfTasks (ProgressSummary j)))
    | None => acc
    end.
Proof.
  induction jobs as [|[job|] jobs IH]; intros acc; simpl; [reflexivity| |].
  - unfold counted. rewrite Z.ltb_antisym.
    destruct (1 <=? TotalNumberOfTasks (ProgressSummary job)) eqn:Hcount; simpl;
      rewrite IH; destruct (last_counted jobs); reflexivity.
  - rewrite IH. destruct (last_counted jobs); reflexivity.
Qed.

Lemma last_counted_counted jobs j :
  last_counted jobs = Some j -> 1 <= TotalNumberOfTasks (ProgressSummary j).
Proof.
  induction jobs as [|job jobs IH]; simpl; [discriminate|].
  destruct (last_counted jobs) as [j'|].
  - intros [= <-]. apply IH. reflexivity.
  - destruct job as [j0|]; simpl; [|discriminate].
    destruct (1 <=? TotalNumberOfTasks (ProgressSummary j0)) eqn:Hcount; [|discriminate].
    intros [= <-]. apply Z.leb_le. exact Hcount.
Qed.

Lemma last_counted_In jobs j : last_counted jobs = Some j -> In (Some j) jobs.
Proof.
  induction jobs as [|job jobs IH]; simpl; [discriminate|].
  destruct (last_counted jobs) as [j'|].
  - intros [= <-]. right. apply IH. reflexivity.
  - destruct (counted job); [|discriminate]. intros ->. left. reflexivity.
Qed.

(** X4.  The success ratio of a list of jobs is the ratio of one job: the
    last one in the list that is not [nil] and has at least one task.  The
    jobs before it do not enter the result, whatever their counts, and the
    ratio is zero when no job is counted. *)
Theorem X4_threshold_is_decided_by_last_counted_job {F} `{Float32 F} jobs :
  GetJobSuccessThreshold jobs = GetJobSuccessThreshold [last_counted jobs]
  /\ (last_counted jobs = None -> GetJobSuccessThreshold jobs = f32_zero)
  /\ (forall before, last_counted jobs <> None ->
        GetJobSuccessThreshold (before ++ jobs) = GetJobSuccessThreshold jobs).
Proof.
  unfold GetJobSuccessThreshold. split; [|split].
  - rewrite !threshold_loop_last_counted. simpl.
    destruct (last_counted jobs) as [j|] eqn:Hlast; [|reflexivity].
    unfold counted. apply last_counted_counted, Z.leb_le in Hlast. rewrite Hlast.
    reflexivity.
  - intros Hnone. rewrite threshold_loop_last_counted, Hnone. reflexivity.
  - intros before Hsome. rewrite threshold_loop_app, !threshold_loop_last_counted.
    destruct (last_counted jobs); [reflexivity|congruence].
Qed.

(** X5.  The task counts are narrowed to [int32] after the test for an
    empty job: when the deciding job reports between 2^31 and 2^32 tasks,
    the narrowed total is not positive and the success ratio is zero,
    however many of the tasks succeeded. *)
Theorem X5_threshold_of_a_huge_job_is_zero {F} `{Float32 F} jobs job :
  2 ^ 31 <= TotalNumberOfTasks (ProgressSummary job) <= 2 ^ 32 ->
  GetJobSuccessThreshold (jobs ++ [Some job]) = f32_zero.
Proof.
  intros Hhuge. unfold GetJobSuccessThreshold.
  rewrite threshold_loop_last by lia.
  assert (Hneg : int32 (TotalNumberOfTasks (ProgressSummary job)) <= 0).
  { unfold int32.
    destruct (Z.eq_dec (TotalNumberOfTasks (ProgressSummary job)) (2 ^ 32)) as [->|Hne].
    - reflexivity.
    - rewrite Z.mod_small by lia.
      destruct (TotalNumberOfTasks (ProgressSummary job) <? 2 ^ 31) eqn:Hlt;
        [apply Z.ltb_lt in Hlt|]; lia. }
  destruct (0 <? int32 (TotalNumberOfTasks (ProgressSummary job))) eqn:Hpos;
    [apply Z.ltb_lt in Hpos; lia | reflexivity].
Qed.

Lemma X5_sample_three_billion_tasks :
  GetJobSuccessThreshold (F := Q) ([mkJob 10 10] ++ [Some (sampleJobOutput "job-1" 3000000000 3000000000)])
  = f32_zero.
Proof.
  apply (X5_threshold_of_a_huge_job_is_zero (F := Q)). simpl. lia.
Defined.

(** Counts that fit 32 bits are not changed by the narrowing: the ratio
    computed for one job is its own ratio. *)
Lemma GetJobSuccessThreshold_own_ratio {F} `{Float32 F} r :
  fits_int32 r -> GetJobSuccessThreshold [Some r] = own_ratio r.
Proof.
  intros [Hsucc Htotal]. unfold GetJobSuccessThreshold, own_ratio. simpl.
  destruct (Z.ltb_spec (TotalNumberOfTasks (ProgressSummary r)) 1) as [Hnone|Hsome].
  - destruct (Z.ltb_spec 0 (TotalNumberOfTasks (ProgressSummary r))); [lia | reflexivity].
  - rewrite !int32_small by lia. reflexivity.
Qed.

(** X6.  Within 32 bits the narrowing changes nothing: when the counts of
    the deciding job (the last one that is not [nil] and has a task) fit a
    signed 32-bit integer, the result is that job's own ratio, the
    [float32] of its succeeded count divided by the [float32] of its total;
    this holds for every [float32] arithmetic. *)
Theorem X6_threshold_is_own_ratio_within_int32 {F} `{Float32 F} jobs :
  match last_counted jobs with Some j => fits_int32 j | None => True end ->
  GetJobSuccessThreshold jobs
  = match last_counted jobs with
    | Some j =>
        f32_div (f32_of_int32 (NumberOfTasksSucceeded (ProgressSummary j)))
                (f32_of_int32 (TotalNumberOfTasks (ProgressSummary j)))
    | None => f32_zero
    end.
Proof.
  intros Hfits. unfold GetJobSuccessThreshold. rewrite threshold_loop_last_counted.
  destruct (last_counted jobs) as [j|] eqn:Hlast; [|reflexivity].
  pose proof (last_counted_counted _ _ Hlast) as Hcount. destruct Hfits as [Hsucc Htotal].
  rewrite !int32_small by lia.
  destruct (Z.ltb_spec 0 (TotalNumberOfTasks (ProgressSummary j))); [reflexivity | lia].
Qed.

Lemma X6_sample_ratio :
  GetJobSuccessThreshold (F := Q) [mkJob 8 10; None; mkJob 15 20]
  = match last_counted [mkJob 8 10; None; mkJob 15 20] with
    | Some j =>
        f32_div (f32_of_int32 (NumberOfTasksSucceeded (ProgressSummary j)))
                (f32_of_int32 (TotalNumberOfTasks (ProgressSummary j)))
    | None => f32_zero
    end.
Proof.
  apply (X6_threshold_is_own_ratio_within_int32 (F := Q)).
  unfold fits_int32. simpl. lia.
Defined.

(** ** The file schema: when it is accepted, and what a column is called *)

Lemma last_index_from_absent c l : forall i found,
  ~ In c l -> last_index_from c l i found = found.
Proof.
  induction l as [|a l IH]; intros i found Hnot; simpl; [reflexivity|].
  rewrite IH by (intros Hin; apply Hnot; right; exact Hin).
  destruct (Ascii.eqb a c) eqn:Heq; [|reflexivity].
  apply Ascii.eqb_eq in Heq. exfalso. apply Hnot. left. exact Heq.
Qed.

Lemma last_index_from_bounds c l : forall i found,
  found < i -> found <= last_index_from c l i found < i + Z.of_nat (length l).
Proof.
  induction l as [|a l IH]; intros i found Hlt; simpl length; simpl last_index_from; [lia|].
  destruct (Ascii.eqb a c).
  - specialize (IH (i + 1) i ltac:(lia)). lia.
  - specialize (IH (i + 1) found ltac:(lia)). lia.
Qed.

Lemma last_index_from_present c l : forall i found,
  found < i -> In c l -> i <= last_index_from c l i found.
Proof.
  induction l as [|a l IH]; intros i found Hlt Hin; [destruct Hin|].
  simpl. destruct (Ascii.eqb a c) eqn:Heq.
  - pose proof (last_index_from_bounds c l (i + 1) i ltac:(lia)). lia.
  - destruct Hin as [->|Hin]; [rewrite Ascii.eqb_refl in Heq; discriminate|].
    specialize (IH (i + 1) found ltac:(lia) Hin). lia.
Qed.

(** [strings.LastIndex] is at least one exactly when the separator occurs
    after the first character. *)
Lemma LastIndex_ge_1 s c :
  1 <= LastIndex s c <-> exists a rest, to_list s = a :: rest /\ In c rest.
Proof.
  unfold LastIndex. destruct (to_list s) as [|a rest]; simpl.
  - split; [lia|]. intros (a & rest & Hnil & _). discriminate Hnil.
  - split.
    + intros Hge. exists a, rest. split; [reflexivity|].
      destruct (in_dec ascii_dec c rest) as [Hin|Hnot]; [exact Hin|].
      rewrite last_index_from_absent in Hge by exact Hnot.
      destruct (Ascii.eqb a c); lia.
    + intros (a' & rest' & [= <- <-] & Hin).
      apply last_index_from_present; [destruct (Ascii.eqb a c); lia | exact Hin].
Qed.

(** X7.  A file schema is accepted exactly when a comma occurs after its
    first character, and then the columns are those of the loop over its
    comma-separated parts; otherwise the schema is rejected with the
    message that quotes it.  A schema of one column, and one whose only
    comma comes first, are rejected. *)
Theorem X7_schema_needs_comma_after_first_character fileSchema :
  ((exists a rest, to_list fileSchema = a :: rest /\ In ","%char rest) ->
     parseFileSchema fileSchema = Ok (schema_loop (Split fileSchema ",") 0 ∅))
  /\ (~ (exists a rest, to_list fileSchema = a :: rest /\ In ","%char rest) ->
        parseFileSchema fileSchema
        = Err (PlainError ("invalid input file schema: '" +:+ fileSchema +:+ "'")))
  /\ (forall name,
        parseFileSchema (String ","%char name)
        = (if existsb (Ascii.eqb ","%char) (to_list name)
           then Ok (schema_loop (Split (String ","%char name) ",") 0 ∅)
           else Err (PlainError ("invalid input file schema: '"
                                 +:+ String ","%char name +:+ "'")))).
Proof.
  unfold parseFileSchema. split; [|split].
  - intros Hcomma. apply LastIndex_ge_1 in Hcomma.
    destruct (LastIndex fileSchema "," <? 1) eqn:Hlt; [apply Z.ltb_lt in Hlt; lia|].
    reflexivity.
  - intros Hnone.
    destruct (LastIndex fileSchema "," <? 1) eqn:Hlt; [reflexivity|].
    apply Z.ltb_ge in Hlt. apply LastIndex_ge_1 in Hlt. contradiction.
  - intros name.
    destruct (existsb (Ascii.eqb ","%char) (to_list name)) eqn:Hex.
    + apply existsb_exists in Hex as (x & Hin & Heq). apply Ascii.eqb_eq in Heq. subst x.
      assert (Hge : 1 <= LastIndex (String ","%char name) ",")
        by (apply LastIndex_ge_1; exists ","%char, (to_list name); split; [reflexivity|exact Hin]).
      destruct (LastIndex (String ","%char name) "," <? 1) eqn:Hlt;
        [apply Z.ltb_lt in Hlt; lia | reflexivity].
    + destruct (LastIndex (String ","%char name) "," <? 1) eqn:Hlt; [reflexivity|].
      apply Z.ltb_ge in Hlt. apply LastIndex_ge_1 in Hlt as (a & rest & [= <- <-] & Hin).
      assert (existsb (Ascii.eqb ","%char) (to_list name) = true) as Hyes
        by (apply existsb_exists; exists ","%char; split; [exact Hin | apply Ascii.eqb_refl]).
      congruence.
Qed.

Lemma schema_loop_app pre post : forall i m,
  schema_loop (pre ++ post) i m = schema_loop post (i + length pre)%nat (schema_loop pre i m).
Proof.
  induction pre as [|col pre IH]; intros i m; simpl.
  - rewrite Nat.add_0_r. reflexivity.
  - rewrite IH. f_equal. lia.
Qed.

Lemma schema_loop_absent cols name : forall i m,
  ~ In name (map TrimSpace cols) -> schema_loop cols i m !! name = m !! name.
Proof.
  induction cols as [|col cols IH]; intros i m Hnot; simpl; [reflexivity|].
  rewrite IH by (intros Hin; apply Hnot; right; exact Hin).
  apply lookup_insert_ne. intros Heq. apply Hnot. left. exact Heq.
Qed.

Lemma schema_loop_position pre col post m :
  ~ In (TrimSpace col) (map TrimSpace post) ->
  schema_loop (pre ++ col :: post) 0 m !! TrimSpace col
  = Some ("s._" +:+ itoa (length pre + 1)).
Proof.
  intros Hlast. rewrite schema_loop_app. simpl.
  rewrite schema_loop_absent by exact Hlast.
  apply lookup_insert_eq.
Qed.

(** X8.  What an accepted schema calls its columns: the name of a column is
    its text between the commas without the surrounding white space, and it
    stands for [s._k], [k] being its position counted from one; of several
    columns of one name the last one counts; a name that is no column of the
    schema has no entry. *)
Theorem X8_schema_columns_are_positions fileSchema :
  1 <= LastIndex fileSchema "," ->
  exists columns,
    parseFileSchema fileSchema = Ok columns
    /\ (forall pre col post,
          Split fileSchema "," = pre ++ col :: post ->
          ~ In (TrimSpace col) (map TrimSpace post) ->
          columns !! TrimSpace col = Some ("s._" +:+ itoa (length pre + 1)))
    /\ (forall name,
          ~ In name (map TrimSpace (Split fileSchema ",")) -> columns !! name = None).
Proof.
  intros Hge. exists (schema_loop (Split fileSchema ",") 0 ∅).
  unfold parseFileSchema.
  destruct (LastIndex fileSchema "," <? 1) eqn:Hlt; [apply Z.ltb_lt in Hlt; lia|].
  split; [reflexivity|]. split.
  - intros pre col post -> Hlast. apply schema_loop_position. exact Hlast.
  - intros name Hnot. rewrite schema_loop_absent by exact Hnot. apply lookup_empty.
Qed.

Lemma X8_sample_schema :
  exists columns,
    parseFileSchema (FileSchema sampleManifest) = Ok columns
    /\ (forall pre col post,
          Split (FileSchema sampleManifest) "," = pre ++ col :: post ->
          ~ In (TrimSpace col) (map TrimSpace post) ->
          columns !! TrimSpace col = Some ("s._" +:+ itoa (length pre + 1)))
    /\ (forall name,
          ~ In name (map TrimSpace (Split (FileSchema sampleManifest) ",")) ->
          columns !! name = None).
Proof.
  apply (X8_schema_columns_are_positions (FileSchema sampleManifest)).
  vm_compute. discriminate.
Defined.

(** ** The inventory configuration: when it is written, and what is returned *)

Section ManagerWrites.

Variable R : Remote.

(** Every way through [ensureS3InventoryConfig]. *)
Lemma ensure_cases bucket configName shouldUpdate tr :
  let lookup := GetBucketInventoryConfiguration R tr bucket configName in
  let tr1 := tr ++ [EvGetBucketInventoryConfiguration bucket configName] in
  let created :=
    (Returned (Some {| BucketName := bucket;
                       Prefix := bucket +:+ "/" +:+ configName +:+ "/";
                       DateWindow := -1 |},
               PutBucketInventoryConfiguration R tr1 bucket inventoryConfigName
                 (defaultInventoryConfiguration bucket)),
     tr1 ++ [EvPutBucketInventoryConfiguration bucket inventoryConfigName
               (defaultInventoryConfiguration bucket)]) in
  ensureS3InventoryConfig R bucket configName shouldUpdate tr =
    match inventoryLookupFailure (snd lookup) shouldUpdate with
    | Some e => (Returned (None, Some e), tr1)
    | None =>
        match fst lookup with
        | None => created
        | Some cfg =>
            if IsEnabled cfg then
              (Returned
                 (Some {| BucketName :=
                            slice_from (S3BucketDestination_Bucket cfg)
                              (LastIndex (S3BucketDestination_Bucket cfg) ":" + 1);
                          Prefix :=
                            match S3BucketDestination_Prefix cfg with
                            | Some p => p +:+ "/" +:+ (bucket +:+ "/" +:+ configName +:+ "/")
                            | None => bucket +:+ "/" +:+ configName +:+ "/"
                            end;
                          DateWindow :=
                            if String.eqb (Frequency cfg) InventoryFrequencyWeekly
                            then -8 else -1 |}, None), tr1)
            else if shouldUpdate then created
            else (Returned (None, Some (PlainError ("non-default inventory config "
                                                    +:+ configName +:+ " is disabled"))), tr1)
        end
    end.
Proof.
  cbv zeta. unfold ensureS3InventoryConfig. rewrite bind_call.
  destruct (GetBucketInventoryConfiguration R tr bucket configName) as [out err]. simpl fst. simpl snd.
  destruct (inventoryLookupFailure err shouldUpdate); [reflexivity|].
  destruct out as [cfg|].
  - destruct (IsEnabled cfg); simpl; [reflexivity|].
    destruct shouldUpdate; simpl; [|reflexivity].
    rewrite bind_call. reflexivity.
  - simpl. rewrite bind_call. reflexivity.
Qed.

(** X9.  What [ensureS3InventoryConfig] can add to the history and what
    it can return, whatever the store answers: after the one lookup it
    appends nothing, or one write: of the engine's own configuration, under
    the engine's own name, on the bucket asked for, and after a write it
    returns the bucket itself, the prefix [bucket/configName/], a window of
    one unit, and the error of the write if there is one.  Whenever it
    returns no error it returns search criteria. *)
Theorem X9_ensure_writes_only_its_own bucket configName shouldUpdate tr :
  exists evs,
    snd (ensureS3InventoryConfig R bucket configName shouldUpdate tr)
      = tr ++ EvGetBucketInventoryConfiguration bucket configName :: evs
    /\ (evs = []
        \/ (evs = [EvPutBucketInventoryConfiguration bucket inventoryConfigName
                     (defaultInventoryConfiguration bucket)]
            /\ fst (ensureS3InventoryConfig R bucket configName shouldUpdate tr)
               = Returned
                   (Some {| BucketName := bucket;
                            Prefix := bucket +:+ "/" +:+ configName +:+ "/";
                            DateWindow := -1 |},
                    PutBucketInventoryConfiguration R
                      (tr ++ [EvGetBucketInventoryConfiguration bucket configName])
                      bucket inventoryConfigName (defaultInventoryConfiguration bucket))))
    /\ (forall args,
          fst (ensureS3InventoryConfig R bucket configName shouldUpdate tr)
            = Returned (args, None) ->
          args <> None).
Proof.
  rewrite ensure_cases. cbv zeta.
  destruct (inventoryLookupFailure _ shouldUpdate) as [e|].
  { exists []. split; [reflexivity|]. split; [left; reflexivity | discriminate]. }
  destruct (fst (GetBucketInventoryConfiguration R tr bucket configName)) as [cfg|];
    [destruct (IsEnabled cfg); [|destruct shouldUpdate]|].
  - exists []. split; [reflexivity|]. split; [left; reflexivity|].
    intros args [= <-]. discriminate.
  - eexists [_]. split; [rewrite <- app_assoc; reflexivity|].
    split; [right; split; reflexivity|]. intros args [= <- _]. discriminate.
  - exists []. split; [reflexivity|]. split; [left; reflexivity | discriminate].
  - eexists [_]. split; [rewrite <- app_assoc; reflexivity|].
    split; [right; split; reflexivity|]. intros args [= <- _]. discriminate.
Qed.

(** X10.  A configuration that the engine does not own is never written:
    when the name asked for is not the engine's and the lookup answers with
    a configuration or with an API error, the history gains the lookup and
    nothing else.  The API error is returned as it is; a disabled
    configuration is an error of its own; an enabled one gives search
    criteria. *)
Theorem X10_foreign_configuration_is_not_written bucket configName tr out err :
  GetBucketInventoryConfiguration R tr bucket configName = (out, err) ->
  (out <> None \/ exists code message, err = Some (APIError code message)) ->
  snd (ensureS3InventoryConfig R bucket configName false tr)
    = tr ++ [EvGetBucketInventoryConfiguration bucket configName]
  /\ (forall code message, err = Some (APIError code message) ->
        fst (ensureS3InventoryConfig R bucket configName false tr) = Returned (None, err))
  /\ (forall cfg, out = Some cfg -> IsEnabled cfg = false ->
        exists e, fst (ensureS3InventoryConfig R bucket configName false tr)
                  = Returned (None, Some e)).
Proof.
  intros Hlookup Hforeign. rewrite ensure_cases. cbv zeta. rewrite Hlookup. simpl fst. simpl snd.
  split; [|split].
  - destruct err as [[code message|message]|]; simpl.
    + destruct (negb (String.eqb code "NoSuchConfiguration")); reflexivity.
    + destruct out as [cfg|]; [destruct (IsEnabled cfg); reflexivity|].
      destruct Hforeign as [Hout|(code & msg & Herr)]; [congruence|discriminate].
    + destruct out as [cfg|]; [destruct (IsEnabled cfg); reflexivity|].
      destruct Hforeign as [Hout|(code & msg & Herr)]; [congruence|discriminate].
  - intros code message ->. simpl.
    destruct (negb (String.eqb code "NoSuchConfiguration")); reflexivity.
  - intros cfg -> Hdisabled. rewrite Hdisabled.
    destruct (inventoryLookupFailure err false) as [e|]; eexists; reflexivity.
Qed.

(** X11.  A failure of the lookup that is not an API error is neither
    returned nor reported: with no configuration in hand the engine goes on
    to write its own configuration, under its own name, whatever the name
    asked for, and returns search criteria under the name asked for. *)
Theorem X11_plain_lookup_failure_is_swallowed bucket configName shouldUpdate tr message :
  GetBucketInventoryConfiguration R tr bucket configName = (None, Some (PlainError message)) ->
  ensureS3InventoryConfig R bucket configName shouldUpdate tr
  = (Returned (Some {| BucketName := bucket;
                       Prefix := bucket +:+ "/" +:+ configName +:+ "/";
                       DateWindow := -1 |},
               PutBucketInventoryConfiguration R
                 (tr ++ [EvGetBucketInventoryConfiguration bucket configName])
                 bucket inventoryConfigName (defaultInventoryConfiguration bucket)),
     tr ++ [EvGetBucketInventoryConfiguration bucket configName;
            EvPutBucketInventoryConfiguration bucket inventoryConfigName
              (defaultInventoryConfiguration bucket)]).
Proof.
  intros Hlookup. rewrite ensure_cases. cbv zeta. rewrite Hlookup. simpl.
  rewrite <- app_assoc. reflexivity.
Qed.

(** The bucket name is what follows the last colon of its ARN. *)
Lemma GetArn_bucket bucket :
  ~ In ":"%char (to_list bucket) ->
  slice_from (GetArn bucket) (LastIndex (GetArn bucket) ":" + 1) = bucket.
Proof.
  intros Hcolon. unfold LastIndex, slice_from, GetArn. simpl.
  rewrite last_index_from_absent by exact Hcolon. simpl.
  apply string_of_list_ascii_of_string.
Qed.

(** X12.  The engine finds what it wrote: when the lookup under the
    engine's own name answers with the configuration that the engine
    writes for the bucket (and the bucket name holds no colon, as bucket
    names do), the search criteria are the ones returned after the write:
    the bucket itself, the prefix [bucket/bulk-copy-inventory/], a window
    of one unit; nothing is written again. *)
Theorem X12_own_configuration_round_trip bucket shouldUpdate tr :
  ~ In ":"%char (to_list bucket) ->
  GetBucketInventoryConfiguration R tr bucket inventoryConfigName
    = (Some (defaultInventoryConfiguration bucket), None) ->
  slice_from (GetArn bucket) (LastIndex (GetArn bucket) ":" + 1) = bucket
  /\ ensureS3InventoryConfig R bucket inventoryConfigName shouldUpdate tr
     = (Returned (Some {| BucketName := bucket;
                          Prefix := bucket +:+ "/" +:+ inventoryConfigName +:+ "/";
                          DateWindow := -1 |}, None),
        tr ++ [EvGetBucketInventoryConfiguration bucket inventoryConfigName]).
Proof.
  intros Hcolon Hlookup. split; [apply GetArn_bucket; exact Hcolon|].
  rewrite ensure_cases. cbv zeta. rewrite Hlookup.
  cbn [fst snd inventoryLookupFailure defaultInventoryConfiguration IsEnabled
       S3BucketDestination_Bucket S3BucketDestination_Prefix Frequency].
  rewrite (GetArn_bucket bucket Hcolon). reflexivity.
Qed.

End ManagerWrites.

Lemma X10_sample_missing_foreign_configuration :
  snd (ensureS3InventoryConfig freshRemote "testsurcebucket" "weekly-inventory" false [])
    = [] ++ [EvGetBucketInventoryConfiguration "testsurcebucket" "weekly-inventory"]
  /\ (forall code message,
        Some (APIError "NoSuchConfiguration" "The specified configuration does not exist.")
        = Some (APIError code message) ->
        fst (ensureS3InventoryConfig freshRemote "testsurcebucket" "weekly-inventory" false [])
        = Returned (None, Some (APIError "NoSuchConfiguration"
                                  "The specified configuration does not exist.")))
  /\ (forall cfg, @None InventoryConfiguration = Some cfg -> IsEnabled cfg = false ->
        exists e,
          fst (ensureS3InventoryConfig freshRemote "testsurcebucket" "weekly-inventory" false [])
          = Returned (None, Some e)).
Proof.
  apply (X10_foreign_configuration_is_not_written freshRemote "testsurcebucket"
           "weekly-inventory" [] None
           (Some (APIError "NoSuchConfiguration" "The specified configuration does not exist."))).
  - reflexivity.
  - right. eexists _, _. reflexivity.
Defined.

Lemma X11_sample_offline_lookup :
  ensureS3InventoryConfig offlineRemote "testsurcebucket" "weekly-inventory" false []
  = (Returned (Some {| BucketName := "testsurcebucket";
                       Prefix := "testsurcebucket" +:+ "/" +:+ "weekly-inventory" +:+ "/";
                       DateWindow := -1 |},
               PutBucketInventoryConfiguration offlineRemote
                 ([] ++ [EvGetBucketInventoryConfiguration "testsurcebucket" "weekly-inventory"])
                 "testsurcebucket" inventoryConfigName
                 (defaultInventoryConfiguration "testsurcebucket")),
     [] ++ [EvGetBucketInventoryConfiguration "testsurcebucket" "weekly-inventory";
            EvPutBucketInventoryConfiguration "testsurcebucket" inventoryConfigName
              (defaultInventoryConfiguration "testsurcebucket")]).
Proof.
  apply (X11_plain_lookup_failure_is_swallowed offlineRemote "testsurcebucket"
           "weekly-inventory" false [] "dial tcp: i/o timeout").
  reflexivity.
Defined.

Lemma X12_sample_prepared_bucket :
  slice_from (GetArn "testsurcebucket") (LastIndex (GetArn "testsurcebucket") ":" + 1)
    = "testsurcebucket"
  /\ ensureS3InventoryConfig preparedRemote "testsurcebucket" inventoryConfigName true []
     = (Returned (Some {| BucketName := "testsurcebucket";
                          Prefix := "testsurcebucket" +:+ "/" +:+ inventoryConfigName +:+ "/";
                          DateWindow := -1 |}, None),
        [] ++ [EvGetBucketInventoryConfiguration "testsurcebucket" inventoryConfigName]).
Proof.
  apply (X12_own_configuration_round_trip preparedRemote "testsurcebucket" true []).
  - vm_compute. intuition discriminate.
  - reflexivity.
Defined.

(** ** Manifest discovery: every run of the loop *)

Section DiscoveryShape.

Context `{GoTime} `{GoSlices}.
Variable R : Remote.

(** From a retry counter of [24 - n] on: rounds of one listing and one
    sleep of [duration], at most [n] of them, and then one last listing,
    unless the bound on the rounds stops the loop. *)
Lemma discover_shape finderArgs duration : forall fuel n tr,
  (n <= 24)%nat ->
  exists o rounds last,
    discover R fuel finderArgs duration (24 - Z.of_nat n) tr
      = (o, tr ++ flat_map (fun input => [EvListObjectsV2 input; EvSleep duration]) rounds
               ++ last)
    /\ (length rounds <= n)%nat
    /\ ((o = OutOfFuel /\ last = [] /\ length rounds = fuel)
        \/ (o <> OutOfFuel /\ exists input, last = [EvListObjectsV2 input]))
    /\ (forall m, o = Returned m ->
          fst (getLatestManifest R finderArgs
                 (tr ++ flat_map (fun input => [EvListObjectsV2 input; EvSleep duration])
                          rounds))
          = Returned (Some m, None))
    /\ (o = Exited manifestNotFound -> length rounds = n).
Proof.
  induction fuel as [|fuel IH]; intros n tr Hn.
  { exists OutOfFuel, [], []. simpl. rewrite app_nil_r.
    split; [reflexivity|]. split; [lia|]. split; [left; auto|].
    split; discriminate. }
  simpl discover. unfold bind at 1.
  pose proof (getLatestManifest_unfold R finderArgs tr) as Hlocate. cbv zeta in Hlocate.
  set (input := listInput finderArgs (windowStartOf (now R tr) (DateWindow finderArgs))) in *.
  destruct (getLatestManifest R finderArgs tr) as [out tr1] eqn:Hrun.
  injection Hlocate as Hout ->.
  assert (Hother : forall msg, out = Exited msg -> msg <> manifestNotFound).
  { intros msg -> Hmsg. revert Hout. rewrite Hmsg.
    destruct (ListObjectsV2 R tr input) as [contents|e]; [|discriminate].
    destruct (List.filter _ contents); [discriminate|].
    destruct (SortFunc _ _); discriminate. }
  assert (Hfueled : out <> OutOfFuel).
  { intros ->. revert Hout.
    destruct (ListObjectsV2 R tr input) as [contents|e]; [|discriminate].
    destruct (List.filter _ contents); [discriminate|].
    destruct (SortFunc _ _); discriminate. }
  destruct out as [[manifestFile merr]|msg|msg|].
  - destruct merr as [e|].
    { exfalso. apply (getLatestManifest_no_error R finderArgs tr manifestFile e).
      rewrite Hrun. reflexivity. }
    destruct manifestFile as [m|].
    + exists (Returned m), [], [EvListObjectsV2 input]. simpl.
      split; [reflexivity|]. split; [lia|].
      split; [right; split; [discriminate | eexists; reflexivity]|].
      split; [|discriminate].
      intros m' [= <-]. rewrite app_nil_r, Hrun. reflexivity.
    + destruct (Z.ltb_spec 23 (24 - Z.of_nat n)) as [Hlast|Hmore].
      * exists (Exited manifestNotFound), [], [EvListObjectsV2 input]. simpl.
        split; [reflexivity|]. split; [lia|].
        split; [right; split; [discriminate | eexists; reflexivity]|].
        split; [discriminate|]. intros _. lia.
      * destruct n as [|n]; [lia|].
        unfold Sleep. rewrite bind_call.
        replace (24 - Z.of_nat (S n) + 1) with (24 - Z.of_nat n) by lia.
        destruct (IH n ((tr ++ [EvListObjectsV2 input]) ++ [EvSleep duration]) ltac:(lia))
          as (o & rounds & last & Hrest & Hlen & Hend & Hret & Hexit).
        assert (Hsame : forall rest : list Event,
                   ((tr ++ [EvListObjectsV2 input]) ++ [EvSleep duration]) ++ rest
                   = tr ++ flat_map (fun input => [EvListObjectsV2 input; EvSleep duration])
                             [input] ++ rest)
          by (intros rest; rewrite <- !app_assoc; reflexivity).
        exists o, (input :: rounds), last.
        split.
        { rewrite Hrest, Hsame. simpl. reflexivity. }
        split; [simpl; lia|].
        split.
        { destruct Hend as [(-> & -> & Hfuel)|Hend]; [left | right; exact Hend].
          split; [reflexivity|]. split; [reflexivity | simpl; lia]. }
        split.
        { intros m Ho. rewrite <- (Hret m Ho). rewrite Hsame. reflexivity. }
        intros Ho. simpl. f_equal. exact (Hexit Ho).
  - exists (Exited msg), [], [EvListObjectsV2 input]. simpl.
    split; [reflexivity|]. split; [lia|].
    split; [right; split; [discriminate | eexists; reflexivity]|].
    split; [discriminate|].
    intros [= ->]. exfalso. apply (Hother manifestNotFound); reflexivity.
  - exists (Panicked msg), [], [EvListObjectsV2 input]. simpl.
    split; [reflexivity|]. split; [lia|].
    split; [right; split; [discriminate | eexists; reflexivity]|].
    split; discriminate.
  - exfalso. apply Hfueled. reflexivity.
Qed.

(** X13.  Manifest discovery is bounded and regular, whatever the store
    answers.  Its history is a number of rounds, at most 24, each of one
    listing followed by one sleep of the retry interval, and then one last
    listing; only the bound on the rounds can leave the last listing out,
    and 25 rounds are enough for that not to happen.  A manifest that the
    loop yields is the one that the locator returned at the last listing,
    and the loop gives up only after exactly 24 rounds. *)
Theorem X13_discovery_is_bounded fuel finderArgs duration tr :
  exists o rounds last,
    discover R fuel finderArgs duration 0 tr
      = (o, tr ++ flat_map (fun input => [EvListObjectsV2 input; EvSleep duration]) rounds
               ++ last)
    /\ (length rounds <= 24)%nat
    /\ ((o = OutOfFuel /\ last = [] /\ length rounds = fuel)
        \/ (o <> OutOfFuel /\ exists input, last = [EvListObjectsV2 input]))
    /\ (forall m, o = Returned m ->
          fst (getLatestManifest R finderArgs
                 (tr ++ flat_map (fun input => [EvListObjectsV2 input; EvSleep duration])
                          rounds))
          = Returned (Some m, None))
    /\ (o = Exited manifestNotFound -> length rounds = 24%nat)
    /\ ((25 <= fuel)%nat -> o <> OutOfFuel).
Proof.
  destruct (discover_shape finderArgs duration fuel 24 tr ltac:(lia))
    as (o & rounds & last & Hrun & Hlen & Hend & Hret & Hexit).
  exists o, rounds, last. change (24 - Z.of_nat 24) with 0 in Hrun.
  split; [exact Hrun|]. split; [exact Hlen|]. split; [exact Hend|].
  split; [exact Hret|]. split; [exact Hexit|].
  intros Hfuel Ho. destruct Hend as [(_ & _ & Hrounds)|[Hnot _]]; [lia | contradiction].
Qed.

End DiscoveryShape.

(** ** Polling a job: the schedule and the result *)

Section PollingSchedule.

Variable R : Remote.

Lemma poll_loop_schedule accountID jobId : forall fuel tr,
  exists rs last,
    snd (poll_loop R fuel accountID jobId tr)
      = tr ++ flat_map (fun r => [EvDescribeJob accountID jobId (Ok r);
                                  EvSleep (60 * Second)]) rs
           ++ last
    /\ Forall (fun r => IsTerminal (Status r) = false) rs
    /\ (length rs <= fuel)%nat
    /\ (forall result err,
          fst (poll_loop R fuel accountID jobId tr) = Returned (result, err) ->
          (exists r, result = Some r /\ err = None /\ IsTerminal (Status r) = true
                     /\ last = [EvDescribeJob accountID jobId (Ok r)])
          \/ (exists e, result = None /\ err = Some e
                        /\ last = [EvDescribeJob accountID jobId (Err e)]))
    /\ (fst (poll_loop R fuel accountID jobId tr) = OutOfFuel ->
          last = [] /\ length rs = fuel).
Proof.
  induction fuel as [|fuel IH]; intros tr.
  { exists [], []. simpl. rewrite app_nil_r.
    split; [reflexivity|]. split; [constructor|]. split; [lia|].
    split; [discriminate | auto]. }
  simpl poll_loop. rewrite bind_call.
  destruct (DescribeJob R tr accountID jobId) as [r|e].
  - destruct (IsTerminal (Status r)) eqn:Hterminal.
    + exists [], [EvDescribeJob accountID jobId (Ok r)]. simpl.
      split; [reflexivity|]. split; [constructor|]. split; [lia|].
      split; [|discriminate].
      intros result err [= <- <-]. left. exists r. auto.
    + unfold Sleep. rewrite bind_call.
      destruct (IH ((tr ++ [EvDescribeJob accountID jobId (Ok r)]) ++ [EvSleep (60 * Second)]))
        as (rs & last & Htr & Hrs & Hlen & Hret & Hfuel).
      exists (r :: rs), last.
      split; [rewrite Htr, <- !app_assoc; reflexivity|].
      split; [constructor; assumption|].
      split; [simpl; lia|].
      split; [exact Hret|].
      intros Hout. destruct (Hfuel Hout) as [-> <-]. split; reflexivity.
  - exists [], [EvDescribeJob accountID jobId (Err e)]. simpl.
    split; [reflexivity|]. split; [constructor|]. split; [lia|].
    split; [|discriminate].
    intros result err [= <- <-]. right. exists e. auto.
Qed.

(** X14.  The schedule of [pollJobResult]: one sleep of 15 seconds; then
    rounds of one status request, answered with a state that is not
    terminal, and one sleep of 60 seconds; then one last status request.
    When the call returns a job, that job is the answer to the last
    request, the first one that shows a terminal state, and no error is
    returned; when it returns an error, the last request failed with it and
    no job is returned.  Only the bound on the rounds leaves the last
    request out. *)
Theorem X14_polling_schedule fuel accountID jobId tr :
  exists rs last,
    snd (pollJobResult R fuel accountID jobId tr)
      = tr ++ EvSleep (15 * Second)
           :: flat_map (fun r => [EvDescribeJob accountID jobId (Ok r);
                                  EvSleep (60 * Second)]) rs
           ++ last
    /\ Forall (fun r => IsTerminal (Status r) = false) rs
    /\ (length rs <= fuel)%nat
    /\ (forall result err,
          fst (pollJobResult R fuel accountID jobId tr) = Returned (result, err) ->
          (exists r, result = Some r /\ err = None /\ IsTerminal (Status r) = true
                     /\ last = [EvDescribeJob accountID jobId (Ok r)])
          \/ (exists e, result = None /\ err = Some e
                        /\ last = [EvDescribeJob accountID jobId (Err e)]))
    /\ (fst (pollJobResult R fuel accountID jobId tr) = OutOfFuel ->
          last = [] /\ length rs = fuel).
Proof.
  unfold pollJobResult, Sleep. rewrite bind_call.
  destruct (poll_loop_schedule accountID jobId fuel (tr ++ [EvSleep (15 * Second)]))
    as (rs & last & Htr & Hrs & Hlen & Hret & Hfuel).
  exists rs, last.
  split; [rewrite Htr, <- app_assoc; reflexivity|].
  split; [exact Hrs|]. split; [exact Hlen|]. split; [exact Hret | exact Hfuel].
Qed.

End PollingSchedule.

(** ** The jobs of a run: which are created, and when the run returns *)

Lemma createdSlots_app tr1 tr2 : createdSlots (tr1 ++ tr2) = createdSlots tr1 ++ createdSlots tr2.
Proof. unfold createdSlots. apply omap_app. Qed.

Lemma terminalAnswers_app tr1 tr2 :
  terminalAnswers (tr1 ++ tr2) = terminalAnswers tr1 ++ terminalAnswers tr2.
Proof. unfold terminalAnswers. apply omap_app. Qed.

Lemma createdSlots_none tr :
  Forall (fun ev => isJobEvent ev = false) tr -> createdSlots tr = [].
Proof.
  induction 1 as [|ev tr Hev _ IH]; [reflexivity|].
  destruct ev; simpl in *; try discriminate; exact IH.
Qed.

Lemma terminalAnswers_none tr :
  Forall (fun ev => isJobEvent ev = false) tr -> terminalAnswers tr = [].
Proof.
  induction 1 as [|ev tr Hev _ IH]; [reflexivity|].
  destruct ev; simpl in *; try discriminate; exact IH.
Qed.

Lemma polling_account accountID jobId evs :
  polling accountID jobId evs -> createdSlots evs = [] /\ terminalAnswers evs = [].
Proof.
  induction 1 as [|r evs Hr _ [IHc IHt]]; [split; reflexivity|].
  split; [exact IHc|]. simpl. rewrite Hr. exact IHt.
Qed.

(** What one job leaves in the history: its creation, and its terminal
    answer exactly when it is polled to the end. *)
Lemma job_run_account slot accountID param o evs :
  job_run slot accountID param o evs ->
  createdSlots evs = [slot]
  /\ match o with
     | Returned (Some r) => terminalAnswers evs = [r]
     | Returned None => False
     | _ => terminalAnswers evs = []
     end.
Proof.
  intros [e|jobId polls Hp|jobId polls e Hp|jobId polls r Hp Hr].
  - split; reflexivity.
  - apply polling_account in Hp as [Hc Ht]. simpl. rewrite Hc, Ht. split; reflexivity.
  - apply polling_account in Hp as [Hc Ht]. simpl.
    rewrite createdSlots_app, terminalAnswers_app, Hc, Ht. split; reflexivity.
  - apply polling_account in Hp as [Hc Ht]. simpl.
    rewrite createdSlots_app, terminalAnswers_app, Hc, Ht. simpl. rewrite Hr.
    split; reflexivity.
Qed.

Section RunAccount.

Context {F : Type} `{Float32 F} `{GoTime} `{GoJSON} `{GoSlices}.
Variable R : Remote.

Lemma GetJobSuccessThreshold_nil_job (jobs : list (option DescribeJobOutput)) :
  GetJobSuccessThreshold (F := F) (jobs ++ [None]) = GetJobSuccessThreshold jobs
  /\ GetJobSuccessThreshold (F := F) (None :: jobs) = GetJobSuccessThreshold jobs.
Proof.
  unfold GetJobSuccessThreshold. rewrite threshold_loop_app. split; reflexivity.
Qed.

(** The job part of a run, for any job specifications. *)
Lemma runJobs_account fuel accountID (req : F) jobParams tr :
  exists out evs,
    runJobs R fuel accountID req jobParams tr = (out, tr ++ evs)
    /\ createdSlots evs `prefix_of` slotsOf jobParams
    /\ (length (terminalAnswers evs) <= length (createdSlots evs))%nat
    /\ (forall e, out = Returned e ->
          e = None
          /\ createdSlots evs = slotsOf jobParams
          /\ length (terminalAnswers evs) = length (slotsOf jobParams)
          /\ f32_ltb (GetJobSuccessThreshold (map Some (terminalAnswers evs))) req = false).
Proof.
  destruct jobParams as [[pv|] [pn|]]; unfold runJobs, slotsOf;
    cbn [versionJobParam nonVersionJobParam].
  - (* both jobs *)
    destruct (submitAndPoll_shape R fuel NonVersionJob accountID pn tr)
      as (o1 & evs1 & Hrun1 & Hjob1).
    apply job_run_account in Hjob1 as [Hc1 Ht1].
    unfold bind at 1. rewrite Hrun1.
    destruct o1 as [[r1|]|msg|msg|]; [| destruct Ht1 | | |];
      try solve [ exists (Exited msg), evs1 + exists (Panicked msg), evs1 + exists OutOfFuel, evs1;
                  split; [reflexivity|]; rewrite Hc1, Ht1;
                  split; [exists [VersionJob]; reflexivity|];
                  split; [simpl; lia | discriminate] ].
    unfold bind at 1. unfold bind at 1.
    destruct (f32_ltb (GetJobSuccessThreshold [Some r1]) req) eqn:Hgate.
    { exists (Exited thresholdNotMetAtGate), evs1. split; [reflexivity|]. rewrite Hc1, Ht1.
      split; [exists [VersionJob]; reflexivity|]. split; [simpl; lia | discriminate]. }
    simpl.
    destruct (submitAndPoll_shape R fuel VersionJob accountID pv (tr ++ evs1))
      as (o2 & evs2 & Hrun2 & Hjob2).
    apply job_run_account in Hjob2 as [Hc2 Ht2].
    rewrite Hrun2, <- app_assoc.
    destruct o2 as [[r2|]|msg|msg|]; [| destruct Ht2 | | |];
      try solve [ exists (Exited msg), (evs1 ++ evs2) + exists (Panicked msg), (evs1 ++ evs2)
                  + exists OutOfFuel, (evs1 ++ evs2);
                  split; [reflexivity|];
                  rewrite createdSlots_app, terminalAnswers_app, Hc1, Ht1, Hc2, Ht2;
                  split; [exists []; reflexivity|];
                  split; [simpl; lia | discriminate] ].
    simpl.
    destruct (f32_ltb (GetJobSuccessThreshold [Some r1; Some r2]) req) eqn:Hfinal;
      [exists (Exited thresholdNotMet), (evs1 ++ evs2) | exists (Returned None), (evs1 ++ evs2)];
      (split; [reflexivity|]);
      rewrite createdSlots_app, terminalAnswers_app, Hc1, Ht1, Hc2, Ht2;
      (split; [exists []; reflexivity|]); (split; [simpl; lia|]); [discriminate|].
    intros e [= <-]. repeat split. exact Hfinal.
  - (* the latest-version job alone *)
    rewrite bind_ret. unfold bind at 1. rewrite bind_ret.
    destruct (submitAndPoll_shape R fuel VersionJob accountID pv tr)
      as (o2 & evs2 & Hrun2 & Hjob2).
    apply job_run_account in Hjob2 as [Hc2 Ht2].
    rewrite Hrun2.
    destruct o2 as [[r2|]|msg|msg|]; [| destruct Ht2 | | |];
      try solve [ exists (Exited msg), evs2 + exists (Panicked msg), evs2 + exists OutOfFuel, evs2;
                  split; [reflexivity|]; rewrite Hc2, Ht2;
                  split; [exists []; reflexivity|];
                  split; [simpl; lia | discriminate] ].
    simpl.
    destruct (f32_ltb (GetJobSuccessThreshold [None; Some r2]) req) eqn:Hfinal;
      [exists (Exited thresholdNotMet), evs2 | exists (Returned None), evs2];
      (split; [reflexivity|]); rewrite Hc2, Ht2;
      (split; [exists []; reflexivity|]); (split; [simpl; lia|]); [discriminate|].
    intros e [= <-]. repeat split. exact Hfinal.
  - (* the job for the other versions alone *)
    destruct (submitAndPoll_shape R fuel NonVersionJob accountID pn tr)
      as (o1 & evs1 & Hrun1 & Hjob1).
    apply job_run_account in Hjob1 as [Hc1 Ht1].
    unfold bind at 1. rewrite Hrun1.
    destruct o1 as [[r1|]|msg|msg|]; [| destruct Ht1 | | |];
      try solve [ exists (Exited msg), evs1 + exists (Panicked msg), evs1 + exists OutOfFuel, evs1;
                  split; [reflexivity|]; rewrite Hc1, Ht1;
                  split; [exists []; reflexivity|];
                  split; [simpl; lia | discriminate] ].
    rewrite bind_ret.
    assert (Hsame : GetJobSuccessThreshold (F := F) [Some r1; None]
                    = GetJobSuccessThreshold [Some r1])
      by (apply (GetJobSuccessThreshold_nil_job [Some r1])).
    rewrite Hsame.
    destruct (f32_ltb (GetJobSuccessThreshold [Some r1]) req) eqn:Hfinal;
      [exists (Exited thresholdNotMet), evs1 | exists (Returned None), evs1];
      (split; [reflexivity|]); rewrite Hc1, Ht1;
      (split; [exists []; reflexivity|]); (split; [simpl; lia|]); [discriminate|].
    intros e [= <-]. repeat split. exact Hfinal.
  - (* no job at all *)
    rewrite !bind_ret.
    destruct (f32_ltb (GetJobSuccessThreshold [None; None]) req) eqn:Hfinal;
      [exists (Exited thresholdNotMet), [] | exists (Returned None), []];
      rewrite app_nil_r; (split; [reflexivity|]);
      (split; [exists []; reflexivity|]); (split; [simpl; lia|]); [discriminate|].
    intros e [= <-]. repeat split. exact Hfinal.
Qed.

Lemma getJobParams_plan manifestFile jobArgs filters tr jobParams err tr' :
  getJobParams R manifestFile jobArgs filters tr = (Returned (jobParams, err), tr') ->
  err = None
  /\ slotsOf jobParams = plannedSlots (VersioningDisabled jobArgs) (LatestOnly filters).
Proof.
  unfold getJobParams, plannedSlots.
  destruct (VersioningDisabled jobArgs); [|destruct (String.eqb (LatestOnly filters) "Yes")].
  - unfold bind at 1.
    destruct (createJobInput R manifestFile jobArgs filters tr)
      as [[[p jobArgs1]| | |] tr1]; try discriminate.
    simpl. intros [= <- <- <-]. split; reflexivity.
  - unfold bind at 1.
    destruct (createJobInput R manifestFile jobArgs filters tr)
      as [[[p jobArgs1]| | |] tr1]; try discriminate.
    simpl. intros [= <- <- <-]. split; reflexivity.
  - unfold bind at 1.
    destruct (createJobInput R manifestFile jobArgs (withLatestOnly filters "Yes") tr)
      as [[[pv jobArgs1]| | |] tr1]; try discriminate.
    unfold bind at 1.
    destruct (createJobInput R manifestFile jobArgs1 (withLatestOnly filters "No") tr1)
      as [[[pn jobArgs2]| | |] tr2]; try discriminate.
    simpl. intros [= <- <- <-]. split; reflexivity.
Qed.

(** A run either stops before any job request, or comes to the job part
    with the job specifications that the versioning of the bucket and the
    selector ask for. *)
Lemma Run_reaches_jobs fuel (args : MigrationArgs F) :
  exists out tr,
    Run R fuel args [] = (out, tr)
    /\ ((Forall (fun ev => isJobEvent ev = false) tr /\ forall e, out <> Returned e)
        \/ (exists status jobParams pre,
              LoadDefaultConfig R (SourceRegion args) = None
              /\ GetBucketVersioning R [] (SourceBucket args) = Ok status
              /\ Forall (fun ev => isJobEvent ev = false) pre
              /\ runJobs R fuel (AccountID args) (ReqSuccessThreshold args) jobParams pre
                 = (out, tr)
              /\ slotsOf jobParams
                 = plannedSlots (String.eqb status "") (MigrationLatestOnly args))).
Proof.
  destruct (LoadDefaultConfig R (SourceRegion args)) as [e|] eqn:Hload.
  { unfold Run. rewrite Hload. eexists _, []. split; [reflexivity|].
    left. split; [constructor | discriminate]. }
  rewrite (Run_unfold R fuel args Hload).
  destruct (GetBucketVersioning R [] (SourceBucket args)) as [status|e] eqn:Hversioning.
  2:{ eexists _, _. split; [reflexivity|]. left. split; [repeat constructor | discriminate]. }
  destruct (emits_ensure_no_job R (SourceBucket args) (ConfigName args)
              (String.eqb (ConfigName args) inventoryConfigName)
              [EvGetBucketVersioning (SourceBucket args)]) as (evsE & HtrE & HallE).
  destruct (ensureS3InventoryConfig R _ _ _ _) as [oE trE]. cbn [snd] in HtrE. subst trE.
  assert (Hpre1 : Forall (fun ev => isJobEvent ev = false)
                    ([EvGetBucketVersioning (SourceBucket args)] ++ evsE))
    by (apply List.Forall_app; split; [repeat constructor | assumption]).
  set (tr1 := [EvGetBucketVersioning (SourceBucket args)] ++ evsE) in *.
  destruct oE as [[[manifestArgs|] [e|]]| | |];
    try solve [eexists _, tr1; split; [reflexivity|]; left; split; [assumption|discriminate]].
  destruct (quiet_no_job _ (quiet_discover R fuel manifestArgs
              match ParseDuration (RetryInterval args) with Ok d => d | Err _ => 0 end 0) tr1)
    as (evsD & HtrD & HallD).
  unfold bind at 1.
  destruct (discover R fuel manifestArgs _ 0 tr1) as [oD trD]. cbn [snd] in HtrD. subst trD.
  assert (Hpre2 : Forall (fun ev => isJobEvent ev = false) (tr1 ++ evsD))
    by (apply List.Forall_app; split; assumption).
  set (tr2 := tr1 ++ evsD) in *.
  destruct oD as [manifestFile| | |];
    try solve [eexists _, tr2; split; [reflexivity|]; left; split; [assumption|discriminate]].
  set (jobArgs := {| AccountId := AccountID args; RoleArn := MigrationRoleArn args;
                     SourceBucketName := SourceBucket args;
                     TargetBucketName := DestinationBucket args;
                     ManifestArn := None; ManifestETag := None;
                     VersioningDisabled := String.eqb status "" |}).
  set (filters := {| StartDate := StartDt args; EndDate := EndDt args;
                     LatestOnly := MigrationLatestOnly args; kmsID := KmsID args |}).
  destruct (quiet_no_job _ (quiet_getJobParams R manifestFile jobArgs filters) tr2)
    as (evsG & HtrG & HallG).
  unfold bind at 1.
  destruct (getJobParams R manifestFile jobArgs filters tr2) as [oG trG] eqn:HG.
  cbn [snd] in HtrG. subst trG.
  assert (Hpre3 : Forall (fun ev => isJobEvent ev = false) (tr2 ++ evsG))
    by (apply List.Forall_app; split; assumption).
  set (tr3 := tr2 ++ evsG) in *.
  destruct oG as [[jobParams err]| | |];
    try solve [eexists _, tr3; split; [reflexivity|]; left; split; [assumption|discriminate]].
  destruct (getJobParams_plan manifestFile jobArgs filters tr2 jobParams err _ HG)
    as [-> Hplan].
  destruct (runJobs R fuel (AccountID args) (ReqSuccessThreshold args) jobParams tr3)
    as [out tr] eqn:Hjobs.
  exists out, tr. split; [reflexivity|]. right. exists status, jobParams, tr3.
  split; [reflexivity|]. split; [reflexivity|]. split; [exact Hpre3|].
  split; [exact Hjobs | exact Hplan].
Qed.

(** X15.  The jobs of a run are those that the versioning of the source
    bucket and the selector ask for, in this order: for a bucket without
    versioning the one job for all objects; for a versioned bucket with the
    selector [Yes] the latest-version job alone; otherwise the job for the
    other versions, then the latest-version job.  Every run creates a
    prefix of this list and nothing else, and a run that returns has
    created all of it. *)
Theorem X15_run_creates_the_planned_jobs fuel (args : MigrationArgs F) status :
  GetBucketVersioning R [] (SourceBucket args) = Ok status ->
  createdSlots (snd (Run R fuel args []))
    `prefix_of` plannedSlots (String.eqb status "") (MigrationLatestOnly args)
  /\ (forall e, fst (Run R fuel args []) = Returned e ->
        createdSlots (snd (Run R fuel args []))
        = plannedSlots (String.eqb status "") (MigrationLatestOnly args)).
Proof.
  intros Hversioning.
  destruct (Run_reaches_jobs fuel args)
    as (out & tr & Hrun
        & [[Hquiet Hout]
          |(status' & jobParams & pre & _ & Hversioning' & Hquiet & Hjobs' & Hplan)]);
    rewrite Hrun; cbn [fst snd].
  - rewrite (createdSlots_none tr Hquiet).
    split; [eexists; reflexivity|]. intros e He. destruct (Hout e He).
  - rewrite Hversioning in Hversioning'. injection Hversioning' as <-.
    destruct (runJobs_account fuel (AccountID args) (ReqSuccessThreshold args) jobParams pre)
      as (out' & evs & Hjobs & Hprefix & _ & Hreturned).
    rewrite Hjobs in Hjobs'. injection Hjobs' as <- <-.
    rewrite createdSlots_app, (createdSlots_none pre Hquiet), app_nil_l, <- Hplan.
    split; [exact Hprefix|]. intros e He. apply (Hreturned e He).
Qed.

(** X16.  A run never returns an error: every failure ends the process.
    A run that returns has polled every job it planned to a terminal
    answer, and the success ratio of these answers is not below the
    required threshold. *)
Theorem X16_run_returns_only_success fuel (args : MigrationArgs F) e :
  fst (Run R fuel args []) = Returned e ->
  e = None
  /\ length (terminalAnswers (snd (Run R fuel args [])))
     = length (createdSlots (snd (Run R fuel args [])))
  /\ f32_ltb (GetJobSuccessThreshold (map Some (terminalAnswers (snd (Run R fuel args [])))))
       (ReqSuccessThreshold args) = false.
Proof.
  destruct (Run_reaches_jobs fuel args)
    as (out & tr & Hrun
        & [[Hquiet Hout]
          |(status' & jobParams & pre & _ & _ & Hquiet & Hjobs' & Hplan)]);
    rewrite Hrun; cbn [fst snd].
  - intros He. destruct (Hout e He).
  - destruct (runJobs_account fuel (AccountID args) (ReqSuccessThreshold args) jobParams pre)
      as (out' & evs & Hjobs & _ & _ & Hreturned).
    rewrite Hjobs in Hjobs'. injection Hjobs' as <- <-. intros He.
    destruct (Hreturned e He) as (-> & Hslots & Hanswers & Hratio).
    rewrite createdSlots_app, terminalAnswers_app,
      (createdSlots_none pre Hquiet), (terminalAnswers_none pre Hquiet), !app_nil_l.
    split; [reflexivity|]. split; [congruence | exact Hratio].
Qed.

End RunAccount.

Section RunSamples.

#[local] Existing Instance simpleTime.
#[local] Existing Instance sampleJSON.
#[local] Existing Instance insertionSlices.

Lemma X15_sample_passing_run :
  createdSlots (snd (Run passingRemote 30 sampleArgs []))
    `prefix_of` plannedSlots (String.eqb "Enabled" "") (MigrationLatestOnly sampleArgs)
  /\ (forall e, fst (Run passingRemote 30 sampleArgs []) = Returned e ->
        createdSlots (snd (Run passingRemote 30 sampleArgs []))
        = plannedSlots (String.eqb "Enabled" "") (MigrationLatestOnly sampleArgs)).
Proof.
  apply (@X15_run_creates_the_planned_jobs Q Float32_Q simpleTime sampleJSON insertionSlices
           passingRemote 30 sampleArgs "Enabled").
  reflexivity.
Defined.

Lemma X16_sample_passing_run :
  @None GoError = None
  /\ length (terminalAnswers (snd (Run passingRemote 30 sampleArgs [])))
     = length (createdSlots (snd (Run passingRemote 30 sampleArgs [])))
  /\ f32_ltb (GetJobSuccessThreshold
                (map Some (terminalAnswers (snd (Run passingRemote 30 sampleArgs [])))))
       (ReqSuccessThreshold sampleArgs) = false.
Proof.
  apply (@X16_run_returns_only_success Q Float32_Q simpleTime sampleJSON insertionSlices
           passingRemote 30 sampleArgs None).
  vm_compute. reflexivity.
Defined.

End RunSamples.

(** ** The filtered manifest and the job specification *)

Section FilteredManifest.

Context `{GoTime} `{GoJSON}.
Variable R : Remote.

(** Every way through [filterManifestCsv]. *)
Lemma filterManifestCsv_cases args manifest filters tr :
  let bucket := SourceBucketName args in
  let tr1 := tr ++ [EvGetObject bucket (Key manifest)] in
  filterManifestCsv R args manifest filters tr =
    match GetObject R tr bucket (Key manifest) with
    | Err e => (Returned (Some {| Key := ""; LastModified := 0; ETag := "" |}, Some e), tr1)
    | Ok (Err _) => (Exited "error reading inventory manifest.json", tr1)
    | Ok (Ok body) =>
        match Unmarshal body with
        | Err _ => (Exited "inventory manifest.json is corrupt or malformed", tr1)
        | Ok manifestJson =>
            match Files manifestJson with
            | [] => (Panicked "index out of range [0] with length 0", tr1)
            | csvFile :: _ =>
                match GetQueryExpression (FileSchema manifestJson) (StartDate filters)
                        (EndDate filters) (LatestOnly filters) (VersioningDisabled args) with
                | (_, Some e) => (Returned (None, Some e), tr1)
                | (expression, None) =>
                    let input := {| si_Bucket := bucket; si_Key := csvFile;
                                    si_Expression := expression |} in
                    let tr2 := tr1 ++ [EvSelectObjectContent input] in
                    match SelectObjectContent R tr1 input with
                    | Err _ => (Exited "Error filtering CSV file with S3 Select", tr2)
                    | Ok stream =>
                        let key := filteredKey csvFile in
                        let tr3 := tr2 ++ [EvUpload bucket key (newReader stream)] in
                        match Upload R tr2 bucket key (newReader stream) with
                        | Err _ => (Exited "failed to upload filtered inventory file", tr3)
                        | Ok _ =>
                            let tr4 := tr3 ++ [EvHeadObject bucket key] in
                            match HeadObject R tr3 bucket key with
                            | Err _ => (Exited "failed to get ETag for uploaded file", tr4)
                            | Ok etag =>
                                (Returned (Some {| Key := key; LastModified := 0;
                                                   ETag := etag |}, None), tr4)
                            end
                        end
                    end
                end
            end
        end
    end.
Proof.
  cbv zeta. unfold filterManifestCsv, readInventoryManifest. unfold bind at 1. rewrite bind_call.
  destruct (GetObject R tr (SourceBucketName args) (Key manifest)) as [[body|e]|e];
    try reflexivity.
  destruct (Unmarshal body) as [manifestJson|e]; [|reflexivity].
  cbn [ret]. destruct (Files manifestJson) as [|csvFile rest]; [reflexivity|].
  destruct (GetQueryExpression _ _ _ _ _) as [expression [e|]]; [reflexivity|].
  unfold filterGzippedCsv. unfold bind at 1. rewrite bind_call.
  destruct (SelectObjectContent R _ _) as [stream|e]; [|reflexivity].
  cbn [ret]. unfold uploadS3File. rewrite bind_call.
  change {| Stream := stream; remaining := []; closed := false |} with (newReader stream).
  destruct (Upload R _ _ _ _) as [location|e]; [|reflexivity].
  rewrite bind_call.
  destruct (HeadObject R _ _ _) as [etag|e]; reflexivity.
Qed.

(** X17.  A filtered manifest comes from the first data file alone: when
    [filterManifestCsv] returns an object and no error, it has read the
    manifest, run one query, on the first data file that the manifest
    lists, with the expression that [GetQueryExpression] gives for the
    schema of the manifest and the filters, uploaded one body, a fresh
    reader on the stream of that query, under the key of the data file
    without its [.gz], and asked for the head of that key; the object it
    returns carries this key and the ETag of that answer.  The other data
    files of the manifest are neither queried nor uploaded. *)
Theorem X17_filtered_manifest_of_first_data_file args manifest filters tr obj :
  fst (filterManifestCsv R args manifest filters tr) = Returned (Some obj, None) ->
  exists body manifestJson csvFile rest expression stream,
    GetObject R tr (SourceBucketName args) (Key manifest) = Ok (Ok body)
    /\ Unmarshal body = Ok manifestJson
    /\ Files manifestJson = csvFile :: rest
    /\ GetQueryExpression (FileSchema manifestJson) (StartDate filters) (EndDate filters)
         (LatestOnly filters) (VersioningDisabled args) = (expression, None)
    /\ snd (filterManifestCsv R args manifest filters tr)
       = tr ++ [EvGetObject (SourceBucketName args) (Key manifest);
                EvSelectObjectContent {| si_Bucket := SourceBucketName args;
                                         si_Key := csvFile;
                                         si_Expression := expression |};
                EvUpload (SourceBucketName args) (filteredKey csvFile) (newReader stream);
                EvHeadObject (SourceBucketName args) (filteredKey csvFile)]
    /\ SelectObjectContent R (tr ++ [EvGetObject (SourceBucketName args) (Key manifest)])
         {| si_Bucket := SourceBucketName args; si_Key := csvFile;
            si_Expression := expression |} = Ok stream
    /\ obj = {| Key := filteredKey csvFile; LastModified := 0; ETag := ETag obj |}
    /\ HeadObject R
         (tr ++ [EvGetObject (SourceBucketName args) (Key manifest);
                 EvSelectObjectContent {| si_Bucket := SourceBucketName args;
                                          si_Key := csvFile;
                                          si_Expression := expression |};
                 EvUpload (SourceBucketName args) (filteredKey csvFile) (newReader stream)])
         (SourceBucketName args) (filteredKey csvFile) = Ok (ETag obj).
Proof.
  rewrite filterManifestCsv_cases. cbv zeta.
  destruct (GetObject R tr (SourceBucketName args) (Key manifest)) as [[body|e]|e];
    try discriminate.
  destruct (Unmarshal body) as [manifestJson|e] eqn:Hjson; [|discriminate].
  destruct (Files manifestJson) as [|csvFile rest] eqn:Hfiles; [discriminate|].
  destruct (GetQueryExpression _ _ _ _ _) as [expression [e|]] eqn:Hquery; [discriminate|].
  destruct (SelectObjectContent R _ _) as [stream|e] eqn:Hselect; [|discriminate].
  destruct (Upload R _ _ _ _) as [location|e]; [|discriminate].
  rewrite <- !app_assoc. cbn [app].
  destruct (HeadObject R _ _ _) as [etag|e] eqn:Hhead; [|discriminate].
  cbn [fst snd]. intros [= <-]. cbn [ETag].
  exists body, manifestJson, csvFile, rest, expression, stream.
  repeat split; try reflexivity; assumption.
Qed.

(** Every way through the closure [createJobInput], given the outcome of
    [filterManifestCsv]. *)
Lemma createJobInput_cases manifestFile jobArgs filters tr :
  createJobInput R manifestFile jobArgs filters tr =
    match filterManifestCsv R jobArgs manifestFile filters tr with
    | (Returned (_, Some _), tr1) => (Exited "Failed to create filtered manifest file", tr1)
    | (Returned (None, None), tr1) =>
        (Panicked "invalid memory address or nil pointer dereference", tr1)
    | (Returned (Some manifest, None), tr1) =>
        let jobArgs1 :=
          {| AccountId := AccountId jobArgs; RoleArn := RoleArn jobArgs;
             SourceBucketName := SourceBucketName jobArgs;
             TargetBucketName := TargetBucketName jobArgs;
             ManifestArn := Some (GetArn (SourceBucketName jobArgs +:+ "/" +:+ Key manifest));
             ManifestETag := Some (ETag manifest);
             VersioningDisabled := VersioningDisabled jobArgs |} in
        let jobInputs := NewCreateJobInput jobArgs1 in
        (Returned
           (match GetBucketOwnershipControls R tr1 (TargetBucketName jobArgs) with
            | Ok rules =>
                if existsb (fun rule => String.eqb rule "BucketOwnerEnforced") rules
                then {| cji_AccountId := cji_AccountId jobInputs;
                        cji_RoleArn := cji_RoleArn jobInputs;
                        cji_TargetBucket := cji_TargetBucket jobInputs;
                        cji_ManifestArn := cji_ManifestArn jobInputs;
                        cji_ManifestETag := cji_ManifestETag jobInputs;
                        cji_VersioningDisabled := cji_VersioningDisabled jobInputs;
                        cji_CannedAccessControlList := Some "bucket-owner-full-control" |}
                else jobInputs
            | Err _ => jobInputs
            end, jobArgs1),
         tr1 ++ [EvGetBucketOwnershipControls (TargetBucketName jobArgs)])
    | (Exited msg, tr1) => (Exited msg, tr1)
    | (Panicked msg, tr1) => (Panicked msg, tr1)
    | (OutOfFuel, tr1) => (OutOfFuel, tr1)
    end.
Proof.
  unfold createJobInput. unfold bind at 1.
  destruct (filterManifestCsv R jobArgs manifestFile filters tr)
    as [[[[manifest|] [e|]]|msg|msg|] tr1]; try reflexivity.
  unfold isOwnershipEnforced. cbn [TargetBucketName]. unfold bind at 1. rewrite bind_call.
  destruct (GetBucketOwnershipControls R tr1 (TargetBucketName jobArgs)) as [rules|e];
    [|reflexivity].
  cbn [ret]. destruct (existsb _ rules); reflexivity.
Qed.

(** X18.  A job specification is built only on a filtered manifest, and
    the ownership lookup never stops it: when [createJobInput] returns, the
    manifest was filtered and uploaded, the job arguments carry the ARN of
    the uploaded object in the source bucket and its ETag, the history ends
    with the one ownership lookup on the target bucket, and the
    specification is the one made from these arguments, with the canned
    ACL [bucket-owner-full-control] put over it exactly when the lookup
    succeeded and shows the rule [BucketOwnerEnforced]; a failed lookup
    leaves the specification as made. *)
Theorem X18_job_specification_and_ownership manifestFile jobArgs filters tr p jobArgs1 :
  fst (createJobInput R manifestFile jobArgs filters tr) = Returned (p, jobArgs1) ->
  exists manifest tr1,
    filterManifestCsv R jobArgs manifestFile filters tr = (Returned (Some manifest, None), tr1)
    /\ snd (createJobInput R manifestFile jobArgs filters tr)
       = tr1 ++ [EvGetBucketOwnershipControls (TargetBucketName jobArgs)]
    /\ jobArgs1
       = {| AccountId := AccountId jobArgs; RoleArn := RoleArn jobArgs;
            SourceBucketName := SourceBucketName jobArgs;
            TargetBucketName := TargetBucketName jobArgs;
            ManifestArn := Some (GetArn (SourceBucketName jobArgs +:+ "/" +:+ Key manifest));
            ManifestETag := Some (ETag manifest);
            VersioningDisabled := VersioningDisabled jobArgs |}
    /\ match GetBucketOwnershipControls R tr1 (TargetBucketName jobArgs) with
       | Ok rules =>
           if existsb (fun rule => String.eqb rule "BucketOwnerEnforced") rules
           then cji_CannedAccessControlList p = Some "bucket-owner-full-control"
                /\ cji_ManifestArn p = cji_ManifestArn (NewCreateJobInput jobArgs1)
                /\ cji_ManifestETag p = cji_ManifestETag (NewCreateJobInput jobArgs1)
                /\ cji_AccountId p = cji_AccountId (NewCreateJobInput jobArgs1)
                /\ cji_RoleArn p = cji_RoleArn (NewCreateJobInput jobArgs1)
                /\ cji_TargetBucket p = cji_TargetBucket (NewCreateJobInput jobArgs1)
                /\ cji_VersioningDisabled p
                   = cji_VersioningDisabled (NewCreateJobInput jobArgs1)
           else p = NewCreateJobInput jobArgs1
       | Err _ => p = NewCreateJobInput jobArgs1
       end.
Proof.
  rewrite createJobInput_cases.
  destruct (filterManifestCsv R jobArgs manifestFile filters tr)
    as [[[[manifest|] [e|]]|msg|msg|] tr1]; try discriminate.
  cbv zeta. cbn [fst snd]. intros [= <- <-].
  exists manifest, tr1. split; [reflexivity|]. split; [reflexivity|]. split; [reflexivity|].
  destruct (GetBucketOwnershipControls R tr1 (TargetBucketName jobArgs)) as [rules|e];
    [|reflexivity].
  destruct (existsb _ rules); [|reflexivity]. repeat split.
Qed.

(** X19.  A versioned bucket needs the [IsLatest] column: when versioning
    is on and the schema of the manifest is rejected or has no [IsLatest]
    column, [getJobParams] ends the process with the message of the failed
    filtered manifest, right after reading the manifest, whatever the
    filters are; nothing is queried, uploaded or created. *)
Theorem X19_versioned_bucket_needs_IsLatest manifestFile jobArgs filters tr
    body manifestJson csvFile rest :
  VersioningDisabled jobArgs = false ->
  GetObject R tr (SourceBucketName jobArgs) (Key manifestFile) = Ok (Ok body) ->
  Unmarshal body = Ok manifestJson ->
  Files manifestJson = csvFile :: rest ->
  match parseFileSchema (FileSchema manifestJson) with
  | Ok columns => columns !! IsLatestColumn
  | Err _ => None
  end = None ->
  getJobParams R manifestFile jobArgs filters tr
  = (Exited "Failed to create filtered manifest file",
     tr ++ [EvGetObject (SourceBucketName jobArgs) (Key manifestFile)]).
Proof.
  intros Hversioned Hget Hjson Hfiles Hcolumn.
  assert (Hquery : forall startDt endDt,
             exists q e, GetQueryExpression (FileSchema manifestJson) startDt endDt "Yes" false
                         = (q, Some e)).
  { intros startDt endDt. unfold GetQueryExpression.
    destruct (parseFileSchema (FileSchema manifestJson)) as [columns|e] eqn:Hparse;
      [|eexists _, _; reflexivity].
    unfold addLatestFilter, getColumnName. rewrite Hcolumn.
    eexists _, _. reflexivity. }
  assert (Hstop : forall filters',
             LatestOnly filters' = "Yes" ->
             createJobInput R manifestFile jobArgs filters' tr
             = (Exited "Failed to create filtered manifest file",
                tr ++ [EvGetObject (SourceBucketName jobArgs) (Key manifestFile)])).
  { intros filters' Hyes. rewrite createJobInput_cases, filterManifestCsv_cases. cbv zeta.
    rewrite Hget, Hjson, Hfiles, Hversioned, Hyes.
    destruct (Hquery (StartDate filters') (EndDate filters')) as (q & e & ->). reflexivity. }
  unfold getJobParams. rewrite Hversioned.
  destruct (String.eqb (LatestOnly filters) "Yes") eqn:Hlatest.
  - apply String.eqb_eq in Hlatest. unfold bind. rewrite (Hstop filters Hlatest). reflexivity.
  - unfold bind at 1. rewrite (Hstop (withLatestOnly filters "Yes") eq_refl). reflexivity.
Qed.

End FilteredManifest.

Lemma X17_sample_filtered_manifest :
  exists body manifestJson csvFile rest expression stream,
    GetObject sampleRemote [] (SourceBucketName sampleJobArgs) (Key sampleManifestObject)
      = Ok (Ok body)
    /\ @Unmarshal sampleJSON body = Ok manifestJson
    /\ Files manifestJson = csvFile :: rest
    /\ @GetQueryExpression simpleTime (FileSchema manifestJson) (StartDate sampleFilters)
         (EndDate sampleFilters) (LatestOnly sampleFilters) (VersioningDisabled sampleJobArgs)
       = (expression, None)
    /\ snd (@filterManifestCsv simpleTime sampleJSON sampleRemote sampleJobArgs
              sampleManifestObject sampleFilters [])
       = [] ++ [EvGetObject (SourceBucketName sampleJobArgs) (Key sampleManifestObject);
                EvSelectObjectContent {| si_Bucket := SourceBucketName sampleJobArgs;
                                         si_Key := csvFile;
                                         si_Expression := expression |};
                EvUpload (SourceBucketName sampleJobArgs) (filteredKey csvFile)
                  (newReader stream);
                EvHeadObject (SourceBucketName sampleJobArgs) (filteredKey csvFile)]
    /\ SelectObjectContent sampleRemote
         ([] ++ [EvGetObject (SourceBucketName sampleJobArgs) (Key sampleManifestObject)])
         {| si_Bucket := SourceBucketName sampleJobArgs; si_Key := csvFile;
            si_Expression := expression |} = Ok stream
    /\ sampleFilteredObject
       = {| Key := filteredKey csvFile; LastModified := 0; ETag := ETag sampleFilteredObject |}
    /\ HeadObject sampleRemote
         ([] ++ [EvGetObject (SourceBucketName sampleJobArgs) (Key sampleManifestObject);
                 EvSelectObjectContent {| si_Bucket := SourceBucketName sampleJobArgs;
                                          si_Key := csvFile;
                                          si_Expression := expression |};
                 EvUpload (SourceBucketName sampleJobArgs) (filteredKey csvFile)
                   (newReader stream)])
         (SourceBucketName sampleJobArgs) (filteredKey csvFile)
       = Ok (ETag sampleFilteredObject).
Proof.
  apply (@X17_filtered_manifest_of_first_data_file simpleTime sampleJSON sampleRemote
           sampleJobArgs sampleManifestObject sampleFilters [] sampleFilteredObject).
  vm_compute. reflexivity.
Defined.

Lemma X18_sample_job_specification :
  exists manifest tr1,
    @filterManifestCsv simpleTime sampleJSON sampleRemote sampleJobArgs sampleManifestObject
      sampleFilters [] = (Returned (Some manifest, None), tr1)
    /\ snd (@createJobInput simpleTime sampleJSON sampleRemote sampleManifestObject
              sampleJobArgs sampleFilters [])
       = tr1 ++ [EvGetBucketOwnershipControls (TargetBucketName sampleJobArgs)]
    /\ sampleJobArgsFiltered
       = {| AccountId := AccountId sampleJobArgs; RoleArn := RoleArn sampleJobArgs;
            SourceBucketName := SourceBucketName sampleJobArgs;
            TargetBucketName := TargetBucketName sampleJobArgs;
            ManifestArn :=
              Some (GetArn (SourceBucketName sampleJobArgs +:+ "/" +:+ Key manifest));
            ManifestETag := Some (ETag manifest);
            VersioningDisabled := VersioningDisabled sampleJobArgs |}
    /\ match GetBucketOwnershipControls sampleRemote tr1 (TargetBucketName sampleJobArgs) with
       | Ok rules =>
           if existsb (fun rule => String.eqb rule "BucketOwnerEnforced") rules
           then cji_CannedAccessControlList sampleJobInput = Some "bucket-owner-full-control"
                /\ cji_ManifestArn sampleJobInput
                   = cji_ManifestArn (NewCreateJobInput sampleJobArgsFiltered)
                /\ cji_ManifestETag sampleJobInput
                   = cji_ManifestETag (NewCreateJobInput sampleJobArgsFiltered)
                /\ cji_AccountId sampleJobInput
                   = cji_AccountId (NewCreateJobInput sampleJobArgsFiltered)
                /\ cji_RoleArn sampleJobInput
                   = cji_RoleArn (NewCreateJobInput sampleJobArgsFiltered)
                /\ cji_TargetBucket sampleJobInput
                   = cji_TargetBucket (NewCreateJobInput sampleJobArgsFiltered)
                /\ cji_VersioningDisabled sampleJobInput
                   = cji_VersioningDisabled (NewCreateJobInput sampleJobArgsFiltered)
           else sampleJobInput = NewCreateJobInput sampleJobArgsFiltered
       | Err _ => sampleJobInput = NewCreateJobInput sampleJobArgsFiltered
       end.
Proof.
  apply (@X18_job_specification_and_ownership simpleTime sampleJSON sampleRemote
           sampleManifestObject sampleJobArgs sampleFilters [] sampleJobInput
           sampleJobArgsFiltered).
  vm_compute. reflexivity.
Defined.

Lemma X19_sample_current_only_inventory :
  @getJobParams simpleTime currentOnlyJSON sampleRemote sampleManifestObject sampleJobArgs
    sampleFilters []
  = (Exited "Failed to create filtered manifest file",
     [] ++ [EvGetObject (SourceBucketName sampleJobArgs) (Key sampleManifestObject)]).
Proof.
  apply (@X19_versioned_bucket_needs_IsLatest simpleTime currentOnlyJSON sampleRemote
           sampleManifestObject sampleJobArgs sampleFilters [] sampleManifestBody
           currentOnlyManifest
           "testsurcebucket/current-only/data/0f4f1a0e-5a1c-4f6c-9d54-2b8a5a1f3c77.csv.gz" []).
  - reflexivity.
  - reflexivity.
  - reflexivity.
  - reflexivity.
  - vm_compute. reflexivity.
Defined.

(** ** The key of the filtered data file *)

Lemma to_list_app a b : to_list (a +:+ b) = to_list a ++ to_list b.
Proof. unfold to_list. induction a as [|c a IH]; simpl; [reflexivity|]. rewrite IH. reflexivity. Qed.

Lemma of_list_to_list s : of_list (to_list s) = s.
Proof. apply string_of_list_ascii_of_string. Qed.

Lemma is_prefix_app p l : is_prefix p (p ++ l) = true.
Proof. induction p as [|c p IH]; simpl; [reflexivity|]. rewrite Ascii.eqb_refl. exact IH. Qed.

Lemma is_prefix_split p : forall l, is_prefix p l = true -> exists r, l = p ++ r.
Proof.
  induction p as [|c p IH]; intros l Hp; [exists l; reflexivity|].
  destruct l as [|c' l]; [discriminate|]. simpl in Hp.
  destruct (Ascii.eqb c c') eqn:Hc; [|discriminate]. apply Ascii.eqb_eq in Hc. subst c'.
  destruct (IH l Hp) as (r & ->). exists r. reflexivity.
Qed.

(** X27.  The key of the filtered data file is the key of the data file
    without one trailing [.gz]: a key that ends in [.gz] loses these three
    characters and nothing else, and any other key is kept as it is, so
    that the filtered file is then uploaded under the key of the data file
    itself. *)
Theorem X27_filtered_key_drops_one_gz csvFile :
  filteredKey (csvFile +:+ ".gz") = csvFile
  /\ (HasSuffix csvFile ".gz" = true -> filteredKey csvFile +:+ ".gz" = csvFile)
  /\ (HasSuffix csvFile ".gz" = false -> filteredKey csvFile = csvFile).
Proof.
  unfold filteredKey, TrimSuffix. split; [|split].
  - assert (Hyes : HasSuffix (csvFile +:+ ".gz") ".gz" = true).
    { unfold HasSuffix. rewrite to_list_app, rev_app_distr. apply is_prefix_app. }
    rewrite Hyes, to_list_app, length_app.
    replace (length (to_list csvFile) + length (to_list ".gz") - length (to_list ".gz"))%nat
      with (length (to_list csvFile)) by lia.
    rewrite take_app_length. apply of_list_to_list.
  - intros Hyes. rewrite Hyes. unfold HasSuffix in Hyes.
    apply is_prefix_split in Hyes as (r & Hrev).
    assert (Hlist : to_list csvFile = rev r ++ to_list ".gz").
    { rewrite <- (rev_involutive (to_list csvFile)), Hrev, rev_app_distr, rev_involutive.
      reflexivity. }
    rewrite Hlist, length_app.
    replace (length (rev r) + length (to_list ".gz") - length (to_list ".gz"))%nat
      with (length (rev r)) by lia.
    rewrite take_app_length.
    rewrite <- (of_list_to_list csvFile), Hlist.
    rewrite <- (of_list_to_list (of_list (rev r) +:+ ".gz")), to_list_app.
    unfold to_list at 1, of_list at 2. rewrite list_ascii_of_string_of_list_ascii.
    reflexivity.
  - intros Hno. rewrite Hno. reflexivity.
Qed.

(** ** The phases of a run *)

Section RunPhases.

Context {F : Type} `{Float32 F} `{GoTime} `{GoJSON} `{GoSlices}.
Variable R : Remote.

Lemma setup_ensureS3InventoryConfig bucket configName shouldUpdate :
  emits (fun ev => isSetupEvent ev = true)
        (ensureS3InventoryConfig R bucket configName shouldUpdate).
Proof. unfold ensureS3InventoryConfig. emits_tac. Qed.

Lemma filter_filterManifestCsv args manifest filters :
  emits (fun ev => isFilterEvent ev = true) (filterManifestCsv R args manifest filters).
Proof.
  unfold filterManifestCsv, readInventoryManifest, filterGzippedCsv, uploadS3File.
  emits_tac.
Qed.

Lemma filter_createJobInput manifestFile jobArgs filters :
  emits (fun ev => isFilterEvent ev = true) (createJobInput R manifestFile jobArgs filters).
Proof.
  unfold createJobInput. apply emits_bind; [apply filter_filterManifestCsv|].
  intros [manifest err]. unfold isOwnershipEnforced. emits_tac.
Qed.

Lemma filter_getJobParams manifestFile jobArgs filters :
  emits (fun ev => isFilterEvent ev = true) (getJobParams R manifestFile jobArgs filters).
Proof.
  unfold getJobParams.
  repeat first [ apply filter_createJobInput | emits_step ]; eauto with emits.
Qed.

Lemma jobs_poll_loop fuel accountID jobId :
  emits (fun ev => isJobEvent ev || isSleep ev = true) (poll_loop R fuel accountID jobId).
Proof. induction fuel as [|fuel IH]; simpl; emits_tac. Qed.

Lemma jobs_submitAndPoll fuel slot accountID param :
  emits (fun ev => isJobEvent ev || isSleep ev = true)
        (submitAndPoll R fuel slot accountID param).
Proof.
  unfold submitAndPoll, pollJobResult.
  repeat first [ apply jobs_poll_loop | emits_step ]; eauto with emits.
Qed.

Lemma jobs_runJobs fuel accountID req jobParams :
  emits (fun ev => isJobEvent ev || isSleep ev = true) (runJobs R fuel accountID req jobParams).
Proof.
  unfold runJobs.
  repeat first [ apply jobs_submitAndPoll | emits_step ]; eauto with emits.
Qed.

Lemma discover_in_bucket fuel finderArgs duration : forall ctr,
  emits (discoversIn (BucketName finderArgs)) (discover R fuel finderArgs duration ctr).
Proof.
  induction fuel as [|fuel IH]; intros ctr; simpl; [emits_tac|].
  apply emits_bind.
  - intros tr. eexists. split; [apply getLatestManifest_trace|].
    repeat constructor.
  - intros [manifestFile merr]. emits_tac. split; reflexivity.
Qed.

Lemma createJobInput_in_bucket manifestFile jobArgs filters tr :
  exists evs,
    snd (createJobInput R manifestFile jobArgs filters tr) = tr ++ evs
    /\ Forall (filtersIn (SourceBucketName jobArgs)) evs
    /\ (forall p jobArgs1,
          fst (createJobInput R manifestFile jobArgs filters tr) = Returned (p, jobArgs1) ->
          SourceBucketName jobArgs1 = SourceBucketName jobArgs).
Proof.
  rewrite createJobInput_cases, filterManifestCsv_cases. cbv zeta.
  destruct (GetObject R tr (SourceBucketName jobArgs) (Key manifestFile)) as [[body|e]|e].
  2-3: eexists; (split; [reflexivity|]); split;
    [repeat constructor | intros p jobArgs1; discriminate].
  destruct (Unmarshal body) as [manifestJson|e].
  2: eexists; (split; [reflexivity|]); split;
    [repeat constructor | intros p jobArgs1; discriminate].
  destruct (Files manifestJson) as [|csvFile rest].
  1: eexists; (split; [reflexivity|]); split;
    [repeat constructor | intros p jobArgs1; discriminate].
  destruct (GetQueryExpression _ _ _ _ _) as [expression [e|]].
  1: eexists; (split; [reflexivity|]); split;
    [repeat constructor | intros p jobArgs1; discriminate].
  destruct (SelectObjectContent R _ _) as [stream|e].
  2: eexists; (split; [rewrite <- !app_assoc; reflexivity|]); split;
    [repeat constructor | intros p jobArgs1; discriminate].
  destruct (Upload R _ _ _ _) as [location|e].
  2: eexists; (split; [rewrite <- !app_assoc; reflexivity|]); split;
    [repeat constructor | intros p jobArgs1; discriminate].
  destruct (HeadObject R _ _ _) as [etag|e].
  2: eexists; (split; [rewrite <- !app_assoc; reflexivity|]); split;
    [repeat constructor | intros p jobArgs1; discriminate].
  eexists. split; [cbn [snd]; rewrite <- !app_assoc; reflexivity|]. split.
  - repeat constructor.
  - cbn [fst]. intros p jobArgs1 [= _ <-]. reflexivity.
Qed.

Lemma getJobParams_in_bucket manifestFile jobArgs filters tr :
  exists evs,
    snd (getJobParams R manifestFile jobArgs filters tr) = tr ++ evs
    /\ Forall (filtersIn (SourceBucketName jobArgs)) evs.
Proof.
  assert (Hone : forall filters' (k : CreateJobInput * batchJobArgs -> M (jobInputParams * option GoError)),
             (forall a tr', k a tr' = (fst (k a tr'), tr')) ->
             exists evs,
               snd (bind (createJobInput R manifestFile jobArgs filters') k tr) = tr ++ evs
               /\ Forall (filtersIn (SourceBucketName jobArgs)) evs).
  { intros filters' k Hk.
    destruct (createJobInput_in_bucket manifestFile jobArgs filters' tr)
      as (evs & Htr & Hall & _).
    unfold bind. destruct (createJobInput R manifestFile jobArgs filters' tr) as [o tr1].
    cbn [snd] in Htr. subst tr1. exists evs.
    destruct o as [a| | |]; [rewrite Hk|..]; auto. }
  unfold getJobParams.
  destruct (VersioningDisabled jobArgs); [|destruct (String.eqb (LatestOnly filters) "Yes")].
  - apply Hone. intros [p ja] tr'. reflexivity.
  - apply Hone. intros [p ja] tr'. reflexivity.
  - destruct (createJobInput_in_bucket manifestFile jobArgs (withLatestOnly filters "Yes") tr)
      as (evs1 & Htr1 & Hall1 & Hsame).
    unfold bind at 1.
    destruct (createJobInput R manifestFile jobArgs (withLatestOnly filters "Yes") tr)
      as [o1 tr1].
    cbn [snd] in Htr1. subst tr1.
    destruct o1 as [[pv jobArgs1]| | |]; try solve [exists evs1; auto].
    specialize (Hsame pv jobArgs1 eq_refl).
    destruct (createJobInput_in_bucket manifestFile jobArgs1 (withLatestOnly filters "No")
                (tr ++ evs1)) as (evs2 & Htr2 & Hall2 & _).
    rewrite Hsame in Hall2.
    unfold bind.
    destruct (createJobInput R manifestFile jobArgs1 (withLatestOnly filters "No") (tr ++ evs1))
      as [o2 tr2].
    cbn [snd] in Htr2. subst tr2.
    exists (evs1 ++ evs2). rewrite app_assoc.
    split; [destruct o2 as [[pn ja]| | |]; reflexivity|].
    apply List.Forall_app. auto.
Qed.

(** The history of a run, phase by phase. *)
Lemma Run_phases fuel (args : MigrationArgs F) :
  exists setup discovery filtering jobs,
    snd (Run R fuel args []) = setup ++ discovery ++ filtering ++ jobs
    /\ Forall (fun ev => isSetupEvent ev = true) setup
    /\ match fst (ensureS3InventoryConfig R (SourceBucket args) (ConfigName args)
                    (String.eqb (ConfigName args) inventoryConfigName)
                    [EvGetBucketVersioning (SourceBucket args)]) with
       | Returned (Some manifestArgs, None) =>
           Forall (discoversIn (BucketName manifestArgs)) discovery
       | _ => discovery = []
       end
    /\ Forall (filtersIn (SourceBucket args)) filtering
    /\ Forall (fun ev => isJobEvent ev || isSleep ev = true) jobs.
Proof.
  destruct (LoadDefaultConfig R (SourceRegion args)) as [e|] eqn:Hload.
  { unfold Run. rewrite Hload. exists [], [], [], [].
    split; [reflexivity|]. split; [constructor|]. split; [|split; constructor].
    destruct (fst _) as [[[manifestArgs|] [e'|]]| | |]; solve [reflexivity | constructor]. }
  rewrite (Run_unfold R fuel args Hload).
  destruct (GetBucketVersioning R [] (SourceBucket args)) as [status|e].
  2:{ exists [EvGetBucketVersioning (SourceBucket args)], [], [], [].
      split; [reflexivity|]. split; [repeat constructor|]. split; [|split; constructor].
      destruct (fst _) as [[[manifestArgs|] [e'|]]| | |]; solve [reflexivity | constructor]. }
  destruct (setup_ensureS3InventoryConfig (SourceBucket args) (ConfigName args)
              (String.eqb (ConfigName args) inventoryConfigName)
              [EvGetBucketVersioning (SourceBucket args)]) as (evsE & HtrE & HallE).
  destruct (ensureS3InventoryConfig R _ _ _ _) as [oE trE]. cbn [fst snd] in *. subst trE.
  assert (Hsetup : Forall (fun ev => isSetupEvent ev = true)
                     ([EvGetBucketVersioning (SourceBucket args)] ++ evsE))
    by (apply List.Forall_app; split; [repeat constructor | assumption]).
  set (tr1 := [EvGetBucketVersioning (SourceBucket args)] ++ evsE) in *.
  destruct oE as [[[manifestArgs|] [e|]]| | |];
    try solve [exists tr1, [], [], []; rewrite !app_nil_r;
               repeat split; solve [assumption | constructor]].
  destruct (discover_in_bucket fuel manifestArgs
              match ParseDuration (RetryInterval args) with Ok d => d | Err _ => 0 end 0 tr1)
    as (evsD & HtrD & HallD).
  unfold bind at 1.
  destruct (discover R fuel manifestArgs _ 0 tr1) as [oD trD]. cbn [snd] in HtrD. subst trD.
  destruct oD as [manifestFile| | |];
    try solve [exists tr1, evsD, [], []; rewrite !app_nil_r;
               repeat split; solve [assumption | constructor]].
  set (jobArgs := {| AccountId := AccountID args; RoleArn := MigrationRoleArn args;
                     SourceBucketName := SourceBucket args;
                     TargetBucketName := DestinationBucket args;
                     ManifestArn := None; ManifestETag := None;
                     VersioningDisabled := String.eqb status "" |}).
  set (filters := {| StartDate := StartDt args; EndDate := EndDt args;
                     LatestOnly := MigrationLatestOnly args; kmsID := KmsID args |}).
  destruct (getJobParams_in_bucket manifestFile jobArgs filters (tr1 ++ evsD))
    as (evsG & HtrG & HallG).
  unfold bind at 1.
  destruct (getJobParams R manifestFile jobArgs filters (tr1 ++ evsD)) as [oG trG].
  cbn [snd] in HtrG. subst trG.
  destruct oG as [[jobParams [e|]]| | |];
    try solve [exists tr1, evsD, evsG, []; rewrite !app_nil_r, <- ?app_assoc;
               repeat split; solve [assumption | constructor]].
  destruct (jobs_runJobs fuel (AccountID args) (ReqSuccessThreshold args) jobParams
              ((tr1 ++ evsD) ++ evsG)) as (evsJ & HtrJ & HallJ).
  exists tr1, evsD, evsG, evsJ. rewrite HtrJ, <- !app_assoc.
  repeat split; assumption.
Qed.

Lemma discoversIn_phase bucket evs :
  Forall (discoversIn bucket) evs ->
  Forall (fun ev => isList ev || isSleep ev = true) evs
  /\ Forall (fun b => b = bucket) (listBuckets evs)
  /\ objectBuckets evs = [].
Proof.
  induction 1 as [|ev evs [Hphase Hbucket] _ (IH1 & IH2 & IH3)];
    [repeat split; constructor|].
  split; [constructor; assumption|].
  destruct ev; simpl in *; try discriminate; auto.
Qed.

Lemma filtersIn_phase bucket evs :
  Forall (filtersIn bucket) evs ->
  Forall (fun ev => isFilterEvent ev = true) evs
  /\ Forall (fun b => b = bucket) (objectBuckets evs)
  /\ listBuckets evs = [].
Proof.
  induction 1 as [|ev evs [Hphase Hbucket] _ (IH1 & IH2 & IH3)];
    [repeat split; constructor|].
  split; [constructor; assumption|].
  destruct ev; simpl in *; try discriminate; auto.
Qed.

Lemma setup_phase_buckets evs :
  Forall (fun ev => isSetupEvent ev = true) evs -> objectBuckets evs = [] /\ listBuckets evs = [].
Proof.
  induction 1 as [|ev evs Hev _ [IH1 IH2]]; [split; reflexivity|].
  destruct ev; simpl in *; try discriminate; auto.
Qed.

Lemma jobs_phase_buckets evs :
  Forall (fun ev => isJobEvent ev || isSleep ev = true) evs ->
  objectBuckets evs = [] /\ listBuckets evs = [].
Proof.
  induction 1 as [|ev evs Hev _ [IH1 IH2]]; [split; reflexivity|].
  destruct ev; simpl in *; try discriminate; auto.
Qed.

Lemma objectBuckets_app tr1 tr2 :
  objectBuckets (tr1 ++ tr2) = objectBuckets tr1 ++ objectBuckets tr2.
Proof. unfold objectBuckets. apply omap_app. Qed.

Lemma listBuckets_app tr1 tr2 : listBuckets (tr1 ++ tr2) = listBuckets tr1 ++ listBuckets tr2.
Proof. unfold listBuckets. apply omap_app. Qed.

(** X20.  The phases of a run follow one another and do not mix: the
    history of every run is the set-up (versioning and inventory
    configuration), then the discovery of the manifest (listings and
    sleeps), then the reading and filtering of the manifest with the
    ownership lookups, then the jobs (creations, status requests and
    sleeps).  No inventory configuration is touched once discovery has
    begun, nothing is listed once the manifest is read, and no data file is
    filtered once a job is created. *)
Theorem X20_run_phases_in_order fuel (args : MigrationArgs F) :
  exists setup discovery filtering jobs,
    snd (Run R fuel args []) = setup ++ discovery ++ filtering ++ jobs
    /\ Forall (fun ev => isSetupEvent ev = true) setup
    /\ Forall (fun ev => isList ev || isSleep ev = true) discovery
    /\ Forall (fun ev => isFilterEvent ev = true) filtering
    /\ Forall (fun ev => isJobEvent ev || isSleep ev = true) jobs.
Proof.
  destruct (Run_phases fuel args)
    as (setup & discovery & filtering & jobs & Htr & Hsetup & Hdiscovery & Hfiltering & Hjobs).
  exists setup, discovery, filtering, jobs.
  split; [exact Htr|]. split; [exact Hsetup|]. split; [|split; [|exact Hjobs]].
  - destruct (fst _) as [[[manifestArgs|] [e|]]| | |]; try (subst discovery; constructor).
    apply (discoversIn_phase _ _ Hdiscovery).
  - apply (filtersIn_phase _ _ Hfiltering).
Qed.

(** X28.  Where a run looks: the manifest is listed in the bucket of the
    search criteria, which for an enabled configuration is the bucket of
    the inventory destination; the manifest and the data file are read
    from the source bucket, and the filtered file is uploaded to the source
    bucket, whatever the inventory destination is. *)
Theorem X28_run_lists_destination_and_reads_source fuel (args : MigrationArgs F) :
  Forall (fun bucket => bucket = SourceBucket args)
    (objectBuckets (snd (Run R fuel args [])))
  /\ match fst (ensureS3InventoryConfig R (SourceBucket args) (ConfigName args)
                  (String.eqb (ConfigName args) inventoryConfigName)
                  [EvGetBucketVersioning (SourceBucket args)]) with
     | Returned (Some manifestArgs, None) =>
         Forall (fun bucket => bucket = BucketName manifestArgs)
           (listBuckets (snd (Run R fuel args [])))
     | _ => listBuckets (snd (Run R fuel args [])) = []
     end.
Proof.
  destruct (Run_phases fuel args)
    as (setup & discovery & filtering & jobs & Htr & Hsetup & Hdiscovery & Hfiltering & Hjobs).
  rewrite Htr. rewrite !objectBuckets_app, !listBuckets_app.
  destruct (setup_phase_buckets _ Hsetup) as [-> ->].
  destruct (jobs_phase_buckets _ Hjobs) as [-> ->].
  destruct (filtersIn_phase _ _ Hfiltering) as (_ & Hobjects & ->).
  rewrite !app_nil_r, !app_nil_l.
  assert (Hquiet : forall bucket, Forall (discoversIn bucket) discovery ->
                                  objectBuckets discovery = [])
    by (intros bucket Hd; apply (discoversIn_phase _ _ Hd)).
  destruct (fst _) as [[[manifestArgs|] [e|]]| | |];
    try (subst discovery; split; [exact Hobjects | reflexivity]).
  rewrite (Hquiet _ Hdiscovery), app_nil_l. split; [exact Hobjects|].
  apply (discoversIn_phase _ _ Hdiscovery).
Qed.

End RunPhases.

Section PhaseSamples.

#[local] Existing Instance simpleTime.
#[local] Existing Instance sampleJSON.
#[local] Existing Instance insertionSlices.

Example sample_run_buckets :
  listBuckets (snd (Run sampleRemote 30 sampleArgs [])) = ["inventorybucket-test1"]
  /\ SourceBucket sampleArgs = "testsurcebucket"
  /\ objectBuckets (snd (Run sampleRemote 30 sampleArgs []))
     = replicate 8 "testsurcebucket".
Proof. repeat split; vm_compute; reflexivity. Qed.

End PhaseSamples.

(** ** The checks of the [run] command *)

(** *** The matcher and the texts of an expression *)

Lemma matchK_spec re : forall l k,
  matchK re l k = true <-> exists l1 l2, l = l1 ++ l2 /\ lang re l1 /\ k l2 = true.
Proof.
  induction re as [|p|a IHa b IHb|a IHa b IHb]; intros l k; simpl.
  - split.
    + intros Hk. exists [], l. auto.
    + intros (l1 & l2 & -> & -> & Hk). exact Hk.
  - split.
    + destruct l as [|c l']; [discriminate|]. intros Hm.
      apply andb_true_iff in Hm as [Hp Hk]. exists [c], l'. split; [reflexivity|].
      split; [exists c; auto | exact Hk].
    + intros (l1 & l2 & -> & (c & -> & Hp) & Hk). simpl. rewrite Hp, Hk. reflexivity.
  - rewrite IHa. split.
    + intros (l1 & l2 & -> & Ha & Hb). apply IHb in Hb as (l3 & l4 & -> & Hb & Hk).
      exists (l1 ++ l3), l4. split; [apply app_assoc|]. split; [|exact Hk].
      exists l1, l3. auto.
    + intros (l12 & l4 & -> & (l1 & l3 & -> & Ha & Hb) & Hk).
      exists l1, (l3 ++ l4). split; [symmetry; apply app_assoc|]. split; [exact Ha|].
      apply IHb. exists l3, l4. auto.
  - rewrite orb_true_iff, IHa, IHb. split.
    + intros [(l1 & l2 & -> & Ha & Hk)|(l1 & l2 & -> & Hb & Hk)];
        exists l1, l2; auto.
    + intros (l1 & l2 & -> & [Ha|Hb] & Hk); [left|right]; exists l1, l2; auto.
Qed.

Lemma MatchWhole_spec re s : MatchWhole re s = true <-> lang re (to_list s).
Proof.
  unfold MatchWhole. rewrite matchK_spec. split.
  - intros (l1 & l2 & -> & Hre & Hk). destruct l2; [|discriminate].
    rewrite app_nil_r. exact Hre.
  - intros Hre. exists (to_list s), []. rewrite app_nil_r. auto.
Qed.

Lemma match_from_spec re l :
  match_from re l = true <-> exists pre m post, l = pre ++ m ++ post /\ lang re m.
Proof.
  induction l as [|c l IH]; simpl; rewrite orb_true_iff, matchK_spec.
  - split.
    + intros [(l1 & l2 & Hl & Hre & _)|Hf]; [|discriminate]. exists [], l1, l2. auto.
    + intros (pre & m & post & Hl & Hre). left.
      destruct pre; [|discriminate]. exists m, post. auto.
  - rewrite IH. split.
    + intros [(l1 & l2 & Hl & Hre & _)|(pre & m & post & -> & Hre)].
      * exists [], l1, l2. auto.
      * exists (c :: pre), m, post. auto.
    + intros (pre & m & post & Hl & Hre). destruct pre as [|c' pre].
      * left. exists m, post. auto.
      * right. injection Hl as <- ->. exists pre, m, post. auto.
Qed.

Lemma lang_Literal l0 l : lang (Literal l0) l <-> l = l0.
Proof.
  revert l. induction l0 as [|c l0 IH]; intros l; simpl; [reflexivity|]. split.
  - intros (l1 & l2 & -> & (c' & -> & Hc) & Hl2). apply Ascii.eqb_eq in Hc. subst c'.
    apply IH in Hl2. subst l2. reflexivity.
  - intros ->. exists [c], l0. split; [reflexivity|]. split.
    + exists c. split; [reflexivity | apply Ascii.eqb_refl].
    + apply IH. reflexivity.
Qed.

Lemma lang_Times p n : forall l,
  lang (Times n (Chr p)) l <-> length l = n /\ Forall (fun c => p c = true) l.
Proof.
  induction n as [|n IH]; intros l; simpl.
  - split.
    + intros ->. split; [reflexivity | constructor].
    + intros [Hlen _]. destruct l; [reflexivity | discriminate].
  - split.
    + intros (l1 & l2 & -> & (c & -> & Hc) & Hl2). apply IH in Hl2 as [Hlen Hall].
      simpl. split; [congruence | constructor; assumption].
    + intros [Hlen Hall]. destruct l as [|c l]; [discriminate|].
      injection Hlen as Hlen. apply Forall_cons in Hall as [Hc Hall].
      exists [c], l. split; [reflexivity|]. split; [exists c; auto|].
      apply IH. auto.
Qed.

Lemma lang_UpTo p n : forall l,
  lang (UpTo n (Chr p)) l <-> (length l <= n)%nat /\ Forall (fun c => p c = true) l.
Proof.
  induction n as [|n IH]; intros l; simpl.
  - split.
    + intros ->. split; [reflexivity | constructor].
    + intros [Hlen _]. destruct l; [reflexivity | simpl in Hlen; lia].
  - split.
    + intros [->|(l1 & l2 & -> & (c & -> & Hc) & Hl2)].
      * split; [simpl; lia | constructor].
      * apply IH in Hl2 as [Hlen Hall]. simpl. split; [lia | constructor; assumption].
    + intros [Hlen Hall]. destruct l as [|c l]; [left; reflexivity|]. right.
      simpl in Hlen. apply Forall_cons in Hall as [Hc Hall].
      exists [c], l. split; [reflexivity|]. split; [exists c; auto|].
      apply IH. split; [lia | exact Hall].
Qed.

Lemma lang_Range p lo hi l :
  (lo <= hi)%nat ->
  lang (Range lo hi (Chr p)) l
  <-> (lo <= length l <= hi)%nat /\ Forall (fun c => p c = true) l.
Proof.
  intros Hle. unfold Range. simpl. split.
  - intros (l1 & l2 & -> & H1 & H2). apply lang_Times in H1 as [Hlen1 Hall1].
    apply lang_UpTo in H2 as [Hlen2 Hall2]. rewrite length_app.
    split; [lia | apply List.Forall_app; auto].
  - intros [Hlen Hall]. exists (take lo l), (drop lo l).
    split; [symmetry; apply take_drop|].
    rewrite <- (take_drop lo l) in Hall. apply List.Forall_app in Hall as [Hall1 Hall2].
    split.
    + apply lang_Times. split; [rewrite length_take; lia | exact Hall1].
    + apply lang_UpTo. split; [rewrite length_drop; lia | exact Hall2].
Qed.

(** X22.  The account check of the [run] command looks for twelve digits
    anywhere: an account value is accepted exactly when it contains twelve
    ASCII digits in a row.  A value of twelve digits passes, and so does any
    longer text around twelve digits. *)
Theorem X22_account_check_is_unanchored s :
  MatchString cmd.accountPattern s = true
  <-> exists before digits after,
        to_list s = before ++ digits ++ after
        /\ length digits = 12%nat
        /\ Forall (fun c => isDigit c = true) digits.
Proof.
  unfold MatchString, cmd.accountPattern. rewrite match_from_spec. split.
  - intros (pre & m & post & Hs & Hm). apply lang_Times in Hm. eauto.
  - intros (pre & m & post & Hs & Hm). exists pre, m, post.
    split; [exact Hs | apply lang_Times; exact Hm].
Qed.

(** X23.  The role check of the [run] command accepts exactly three
    shapes: twelve digits; [arn:], one of the partitions [aws],
    [aws-us-gov], [aws-cn], [:iam::] and twelve digits; or that followed by
    [:role/] and a name of 1 to 64 characters out of letters, digits and
    [+.@_,-].  So a bare account number passes as a role, and a role with a
    path (a [/] in its name) does not. *)
Theorem X23_role_check_shapes s :
  MatchWhole cmd.rolePattern s = true
  <-> (length (to_list s) = 12%nat /\ Forall (fun c => isDigit c = true) (to_list s))
      \/ exists partition account tail,
           to_list s = to_list "arn:" ++ to_list partition ++ to_list ":iam::"
                         ++ account ++ tail
           /\ (partition = "aws" \/ partition = "aws-us-gov" \/ partition = "aws-cn")
           /\ length account = 12%nat
           /\ Forall (fun c => isDigit c = true) account
           /\ (tail = []
               \/ exists name,
                    tail = to_list ":role/" ++ name
                    /\ (1 <= length name <= 64)%nat
                    /\ Forall (fun c => cmd.isRoleNameChar c = true) name).
Proof.
  rewrite MatchWhole_spec. unfold cmd.rolePattern.
  change (lang (Alt ?a ?b) ?l) with (lang a l \/ lang b l).
  rewrite lang_Times. apply or_iff_compat_l. split.
  - intros (l1 & r1 & Hs & H1 & (l2 & r2 & -> & H2 & (l3 & r3 & -> & H3
              & (l4 & r4 & -> & H4 & H5)))).
    apply lang_Literal in H1, H3. apply lang_Times in H4 as [Hlen Hdigits]. subst l1 l3.
    assert (Hpartition : exists partition,
               l2 = to_list partition
               /\ (partition = "aws" \/ partition = "aws-us-gov" \/ partition = "aws-cn")).
    { destruct H2 as [H2|[H2|H2]]; apply lang_Literal in H2; subst l2;
        [exists "aws" | exists "aws-us-gov" | exists "aws-cn"]; auto. }
    destruct Hpartition as (partition & -> & Hpartition).
    exists partition, l4, r4. split; [exact Hs|]. split; [exact Hpartition|].
    split; [exact Hlen|]. split; [exact Hdigits|].
    destruct H5 as [->|(l5 & name & -> & H5 & Hname)]; [left; reflexivity|].
    right. apply lang_Literal in H5. subst l5.
    apply lang_Range in Hname; [|lia]. exists name. split; [reflexivity | exact Hname].
  - intros (partition & account & tail & Hs & Hpartition & Hlen & Hdigits & Htail).
    exists (to_list "arn:"), (to_list partition ++ to_list ":iam::" ++ account ++ tail).
    split; [exact Hs|]. split; [apply lang_Literal; reflexivity|].
    exists (to_list partition), (to_list ":iam::" ++ account ++ tail).
    split; [reflexivity|]. split.
    { destruct Hpartition as [ -> | [ -> | -> ] ];
        [left | right; left | right; right]; apply lang_Literal; reflexivity. }
    exists (to_list ":iam::"), (account ++ tail).
    split; [reflexivity|]. split; [apply lang_Literal; reflexivity|].
    exists account, tail. split; [reflexivity|].
    split; [apply lang_Times; auto|].
    destruct Htail as [->|(name & -> & Hname)]; [left; reflexivity|]. right.
    exists (to_list ":role/"), name. split; [reflexivity|].
    split; [apply lang_Literal; reflexivity|]. apply lang_Range; [lia | exact Hname].
Qed.

Example account_check_samples :
  MatchString cmd.accountPattern "111111111111" = true
  /\ MatchString cmd.accountPattern "12345678901" = false
  /\ MatchString cmd.accountPattern "1234567890123" = true
  /\ MatchString cmd.accountPattern "account-123456789012-prod" = true
  /\ MatchString cmd.accountPattern "1234-5678-9012" = false.
Proof. repeat split; vm_compute; reflexivity. Qed.

Example role_check_samples :
  MatchWhole cmd.rolePattern "arn:aws:iam::111111111111:role/S3BatchCopyAdmin" = true
  /\ MatchWhole cmd.rolePattern "arn:aws-cn:iam::111111111111" = true
  /\ MatchWhole cmd.rolePattern "111111111111" = true
  /\ MatchWhole cmd.rolePattern "arn:aws:iam::111111111111:role/service-role/Copy" = false
  /\ MatchWhole cmd.rolePattern "arn:aws:iam::111111111111:role/" = false
  /\ MatchWhole cmd.rolePattern "arn:aws:iam::111111111111:user/copy" = false.
Proof. repeat split; vm_compute; reflexivity. Qed.

Example parse_date_time_sample :
  @ParseTime asciiText DateTime "2023-09-30 12:00:00" = Ok ((738792 * 24 + 12) * Hour)
  /\ @Format simpleTime "2006-01-02T15:04:05" ((738792 * 24 + 12) * Hour)
     = "2023-09-30T12:00:00".
Proof. split; vm_compute; reflexivity. Qed.

Section Command.

Context `{GoText}.

Lemma TrimSpace_blank s :
  String.eqb (TrimSpace s) "" = true -> latest_requested s = false.
Proof.
  intros Hblank. apply String.eqb_eq in Hblank. unfold latest_requested.
  rewrite Hblank. reflexivity.
Qed.

Lemma TrimSpace_not_blank s :
  String.eqb (TrimSpace s) "" = false -> (String.length (TrimSpace s) <? 1)%nat = false.
Proof.
  intros Hblank. destruct (TrimSpace s); [discriminate | reflexivity].
Qed.

(** X24.  The date flags of the [run] command: a blank flag gives the zero
    time and no error, which is how the engine reads "no bound"; any other
    flag gives what [time.Parse] makes of it with the layout
    [time.DateTime], and the zero time with the error of the parser when it
    fails.  The test of [ParseDateTime] for a blank text never decides. *)
Theorem X24_date_flag dtstr :
  validateDateFlag dtstr
  = (if String.eqb (TrimSpace dtstr) "" then (0, None)
     else match ParseTime DateTime dtstr with
          | Ok t => (t, None)
          | Err e => (0, Some e)
          end)
  /\ (String.eqb (TrimSpace dtstr) "" = true ->
        IsZero (fst (validateDateFlag dtstr)) = true /\ snd (validateDateFlag dtstr) = None)
  /\ (forall e, snd (validateDateFlag dtstr) = Some e -> fst (validateDateFlag dtstr) = 0).
Proof.
  unfold validateDateFlag, ParseDateTime.
  destruct (String.eqb (TrimSpace dtstr) "") eqn:Hblank; simpl.
  - split; [reflexivity|]. split; [split; reflexivity | discriminate].
  - rewrite (TrimSpace_not_blank dtstr Hblank).
    split; [reflexivity|]. split; [discriminate|].
    destruct (ParseTime DateTime dtstr); [discriminate | reflexivity].
Qed.

(** X25.  What the [run] command hands to the engine once [validateArgs]
    returns no error: a selector that is [Yes] or [No], or the blank text
    that was given; so whenever the filter builder finds the selector set,
    it is one of the two values for which it adds a predicate.  The times
    are those of the two date flags, the zero time for a blank flag; the
    account and the role passed their checks; the flags themselves are as
    they were. *)
Theorem X25_validated_arguments v v' :
  validateArgs v = (v', None) ->
  (cmd.latestOnly v' = IsLatestYes \/ cmd.latestOnly v' = IsLatestNo
   \/ (String.eqb (TrimSpace (cmd.latestOnly v)) "" = true
       /\ cmd.latestOnly v' = cmd.latestOnly v))
  /\ (latest_requested (cmd.latestOnly v') = true ->
        cmd.latestOnly v' = IsLatestYes \/ cmd.latestOnly v' = IsLatestNo)
  /\ validateDateFlag (cmd.startAt v) = (cmd.startDt v', None)
  /\ validateDateFlag (cmd.endAt v) = (cmd.endDt v', None)
  /\ MatchString cmd.accountPattern (cmd.migrationAcctId v') = true
  /\ MatchWhole cmd.rolePattern (cmd.migrationRole v') = true
  /\ (cmd.startAt v', cmd.endAt v', cmd.migrationAcctId v', cmd.migrationRole v')
     = (cmd.startAt v, cmd.endAt v, cmd.migrationAcctId v, cmd.migrationRole v).
Proof.
  unfold validateArgs.
  set (selector := if negb (String.eqb (TrimSpace (cmd.latestOnly v)) "") then _ else _).
  assert (Hselector : match selector with
                      | Ok v1 =>
                          (cmd.latestOnly v1 = IsLatestYes \/ cmd.latestOnly v1 = IsLatestNo
                           \/ (String.eqb (TrimSpace (cmd.latestOnly v)) "" = true
                               /\ cmd.latestOnly v1 = cmd.latestOnly v))
                          /\ (cmd.startAt v1, cmd.endAt v1, cmd.migrationAcctId v1,
                              cmd.migrationRole v1)
                             = (cmd.startAt v, cmd.endAt v, cmd.migrationAcctId v,
                                cmd.migrationRole v)
                      | Err _ => True
                      end).
  { subst selector. destruct (String.eqb (TrimSpace (cmd.latestOnly v)) "") eqn:Hblank; simpl.
    - split; [right; right; split; reflexivity | reflexivity].
    - destruct (String.eqb (ToUpper (cmd.latestOnly v)) "YES");
        [simpl; split; [left; reflexivity | reflexivity]|].
      destruct (String.eqb (ToUpper (cmd.latestOnly v)) "NO");
        [simpl; split; [right; left; reflexivity | reflexivity] | exact I]. }
  destruct selector as [v1|e]; [|discriminate].
  destruct Hselector as [Hlatest Hflags]. injection Hflags as Hstart Hend Hacct Hrole.
  destruct (validateDateFlag (cmd.startAt v1)) as [t1 [e1|]] eqn:Hdate1; [discriminate|].
  cbn [cmd.endAt cmd.latestOnly cmd.startAt cmd.startDt cmd.endDt cmd.migrationAcctId
       cmd.migrationRole].
  destruct (validateDateFlag (cmd.endAt v1)) as [t2 [e2|]] eqn:Hdate2; [discriminate|].
  destruct (MatchString cmd.accountPattern (cmd.migrationAcctId v1)) eqn:Haccount;
    [|discriminate].
  destruct (MatchWhole cmd.rolePattern (cmd.migrationRole v1)) eqn:Hrolecheck;
    [|discriminate].
  simpl. intros [= <-]. simpl.
  rewrite <- Hstart, <- Hend, Hdate1, Hdate2.
  split; [exact Hlatest|]. split.
  { intros Hrequested. destruct Hlatest as [Hy|[Hn|[Hblank Hsame]]]; [auto | auto |].
    rewrite Hsame, (TrimSpace_blank _ Hblank) in Hrequested. discriminate. }
  repeat split; try assumption; congruence.
Qed.

End Command.

Lemma X25_sample_flags :
  (cmd.latestOnly sampleVarsValidated = IsLatestYes
   \/ cmd.latestOnly sampleVarsValidated = IsLatestNo
   \/ (String.eqb (TrimSpace (cmd.latestOnly sampleVars)) "" = true
       /\ cmd.latestOnly sampleVarsValidated = cmd.latestOnly sampleVars))
  /\ (latest_requested (cmd.latestOnly sampleVarsValidated) = true ->
        cmd.latestOnly sampleVarsValidated = IsLatestYes
        \/ cmd.latestOnly sampleVarsValidated = IsLatestNo)
  /\ @validateDateFlag asciiText (cmd.startAt sampleVars)
     = (cmd.startDt sampleVarsValidated, None)
  /\ @validateDateFlag asciiText (cmd.endAt sampleVars)
     = (cmd.endDt sampleVarsValidated, None)
  /\ MatchString cmd.accountPattern (cmd.migrationAcctId sampleVarsValidated) = true
  /\ MatchWhole cmd.rolePattern (cmd.migrationRole sampleVarsValidated) = true
  /\ (cmd.startAt sampleVarsValidated, cmd.endAt sampleVarsValidated,
      cmd.migrationAcctId sampleVarsValidated, cmd.migrationRole sampleVarsValidated)
     = (cmd.startAt sampleVars, cmd.endAt sampleVars, cmd.migrationAcctId sampleVars,
        cmd.migrationRole sampleVars).
Proof.
  apply (@X25_validated_arguments asciiText sampleVars sampleVarsValidated).
  vm_compute. reflexivity.
Defined.

Example sample_flags_validated :
  sampleVarsValidated
  = {| cmd.latestOnly := "Yes";
       cmd.startAt := "2023-09-30 12:00:00";
       cmd.endAt := "";
       cmd.startDt := (738792 * 24 + 12) * Hour;
       cmd.endDt := 0;
       cmd.migrationAcctId := "111111111111";
       cmd.migrationRole := "arn:aws:iam::111111111111:role/S3BatchCopyAdmin" |}.
Proof. vm_compute. reflexivity. Qed.

(** ** The comparison of the manifest locator *)

(** X26.  [objectDateDescending] puts the newer object first and is a
    comparison as [slices.SortFunc] asks for: it is negative exactly when
    its first argument was modified later, zero exactly when both were
    modified at the same time, it changes sign when its arguments are
    exchanged, and it is transitive. *)
Theorem X26_objectDateDescending_newest_first a b c :
  (objectDateDescending a b < 0 <-> LastModified b < LastModified a)
  /\ (objectDateDescending a b = 0 <-> LastModified a = LastModified b)
  /\ objectDateDescending a b = - objectDateDescending b a
  /\ (objectDateDescending a b <= 0 -> objectDateDescending b c <= 0 ->
      objectDateDescending a c <= 0).
Proof.
  unfold objectDateDescending, Compare.
  destruct (Z.ltb_spec (LastModified b) (LastModified a));
    destruct (Z.ltb_spec (LastModified a) (LastModified b));
    destruct (Z.ltb_spec (LastModified c) (LastModified b));
    destruct (Z.ltb_spec (LastModified b) (LastModified c));
    destruct (Z.ltb_spec (LastModified c) (LastModified a));
    destruct (Z.ltb_spec (LastModified a) (LastModified c));
    repeat split; intros; lia.
Qed.

(** * Properties stated in the specification's own words *)

(** ** The manifest locator returns the newest candidate *)

Lemma of_list_app a b : of_list (a ++ b) = of_list a +:+ of_list b.
Proof. unfold of_list. induction a as [|c a IH]; simpl; [reflexivity|]. rewrite IH. reflexivity. Qed.

(** [strings.HasSuffix] holds exactly of the texts that end in the
    suffix. *)
Lemma HasSuffix_spec s suffix :
  HasSuffix s suffix = true <-> exists stem, s = stem +:+ suffix.
Proof.
  unfold HasSuffix. split.
  - intros Hp. apply is_prefix_split in Hp as (r & Hrev).
    exists (of_list (rev r)).
    rewrite <- (of_list_to_list s), <- (rev_involutive (to_list s)), Hrev.
    rewrite rev_app_distr, rev_involutive, of_list_app, of_list_to_list. reflexivity.
  - intros (stem & ->). rewrite to_list_app, rev_app_distr. apply is_prefix_app.
Qed.

(** The filter of the locator keeps exactly the candidates. *)
Lemma isCandidate_spec windowStart obj :
  isCandidate windowStart obj = true <-> spec_candidate windowStart obj.
Proof.
  unfold isCandidate, spec_candidate, After.
  rewrite andb_true_iff, HasSuffix_spec, Z.ltb_lt. reflexivity.
Qed.

Section LocatorStated.

Context `{GoTime} `{GoSlices}.
Variable R : Remote.

(** C9: on any listing that the store returns, the locator returns an
    object of the listing whose key ends in [manifest.json] and that was
    modified strictly after the window start, with the greatest
    modification time among all such objects of the listing; and it
    returns the nil result, without error, exactly when the listing holds
    no such object. *)
Theorem C9_locator_returns_newest_candidate finderArgs tr contents :
  SortFunc_permutes -> SortFunc_sorts ->
  let windowStart := windowStartOf (now R tr) (DateWindow finderArgs) in
  ListObjectsV2 R tr (listInput finderArgs windowStart) = Ok contents ->
  exists result,
    fst (getLatestManifest R finderArgs tr) = Returned (result, None)
    /\ match result with
       | Some m =>
           In m contents
           /\ (exists stem, Key m = stem +:+ "manifest.json")
           /\ windowStart < LastModified m
           /\ forall o, In o contents -> spec_candidate windowStart o ->
                        LastModified o <= LastModified m
       | None =>
           forall o, In o contents -> ~ spec_candidate windowStart o
       end.
Proof.
  intros Hperm Hsort windowStart Hlist.
  destruct (getLatestManifest_newest R finderArgs tr contents Hperm Hsort Hlist)
    as (result & Hrun & Hresult).
  exists result. split; [exact Hrun|]. fold windowStart in Hresult.
  destruct result as [m|].
  - destruct Hresult as (Hin & Hcandidate & Hnewest).
    apply isCandidate_spec in Hcandidate as [Hsuffix Hafter].
    split; [exact Hin|]. split; [exact Hsuffix|]. split; [exact Hafter|].
    intros o Ho Hspec. apply Hnewest; [exact Ho | apply isCandidate_spec; exact Hspec].
  - intros o Ho Hspec. apply isCandidate_spec in Hspec.
    rewrite (Hresult o Ho) in Hspec. discriminate.
Qed.

End LocatorStated.

(** ** The filter expression matches the table *)

Lemma comma_free_spec cell : comma_free cell = true -> ~ In ","%char (to_list cell).
Proof.
  unfold comma_free. intros Hfree Hin. apply negb_true_iff in Hfree.
  assert (Hyes : existsb (Ascii.eqb ",") (to_list cell) = true)
    by (apply existsb_exists; exists ","%char; split; [exact Hin | apply Ascii.eqb_refl]).
  congruence.
Qed.

Lemma split_acc_app c l1 : forall l2 cur,
  ~ In c l1 -> split_acc c (l1 ++ l2) cur = split_acc c l2 (rev l1 ++ cur).
Proof.
  induction l1 as [|a l1 IH]; intros l2 cur Hnot; [reflexivity|].
  simpl. destruct (Ascii.eqb a c) eqn:Hac.
  - apply Ascii.eqb_eq in Hac. exfalso. apply Hnot. left. exact Hac.
  - rewrite IH by (intros Hin; apply Hnot; right; exact Hin).
    rewrite <- app_assoc. reflexivity.
Qed.

Lemma split_acc_sep c l cur :
  split_acc c (c :: l) cur = of_list (rev cur) :: split_acc c l [].
Proof. simpl. rewrite Ascii.eqb_refl. reflexivity. Qed.

Lemma Join_cons cell cell' rest sep :
  Join (cell :: cell' :: rest) sep = cell +:+ sep +:+ Join (cell' :: rest) sep.
Proof. reflexivity. Qed.

(** Cells without commas, joined by commas, are split into themselves. *)
Lemma Split_Join cells :
  cells <> [] -> forallb comma_free cells = true -> Split (Join cells ",") "," = cells.
Proof.
  unfold Split. induction cells as [|cell rest IH]; intros Hsome Hfree; [congruence|].
  simpl in Hfree. apply andb_true_iff in Hfree as [Hcell Hrest].
  apply comma_free_spec in Hcell.
  destruct rest as [|cell' rest].
  - simpl Join. rewrite <- (app_nil_r (to_list cell)), split_acc_app by exact Hcell.
    simpl. rewrite app_nil_r, rev_involutive, of_list_to_list. reflexivity.
  - rewrite Join_cons, !to_list_app, split_acc_app by exact Hcell.
    change (to_list "," ++ to_list (Join (cell' :: rest) ","))
      with (","%char :: to_list (Join (cell' :: rest) ",")).
    rewrite split_acc_sep, app_nil_r, rev_involutive, of_list_to_list.
    rewrite IH by (exact Hrest || discriminate). reflexivity.
Qed.

(** Two cells or more, and either the first of them is not empty or there
    are three: the schema has a comma after its first character, so it is
    accepted, and its columns come from the cells in their order. *)
Lemma parseFileSchema_Join cells :
  (2 <= length cells)%nat -> hd "" cells <> "" \/ (3 <= length cells)%nat ->
  forallb comma_free cells = true ->
  parseFileSchema (Join cells ",") = Ok (schema_loop cells 0 ∅).
Proof.
  intros Hlen Hfirst Hfree. unfold parseFileSchema.
  assert (Hge : 1 <= LastIndex (Join cells ",") ",").
  { apply LastIndex_ge_1.
    destruct cells as [|cell [|cell' rest]]; [simpl in Hlen; lia | simpl in Hlen; lia|].
    rewrite Join_cons, !to_list_app.
    destruct cell as [|a cell].
    - destruct Hfirst as [Hfirst|Hthree]; [simpl in Hfirst; congruence|].
      destruct rest as [|cell'' rest]; [simpl in Hthree; lia|].
      rewrite Join_cons, !to_list_app.
      exists ","%char,
        (to_list cell' ++ to_list "," ++ to_list (Join (cell'' :: rest) ",")).
      split; [reflexivity|]. apply in_or_app. right. left. reflexivity.
    - exists a, (to_list cell ++ to_list "," ++ to_list (Join (cell' :: rest) ",")).
      split; [reflexivity|]. apply in_or_app. right. left. reflexivity. }
  destruct (LastIndex (Join cells ",") "," <? 1) eqn:Hlt; [apply Z.ltb_lt in Hlt; lia|].
  rewrite Split_Join; [reflexivity | | exact Hfree].
  destruct cells; [simpl in Hlen; lia | discriminate].
Qed.

Lemma spec_position_absent name cells : forall k,
  ~ In name (map TrimSpace cells) -> spec_position name cells k = None.
Proof.
  induction cells as [|cell rest IH]; intros k Hnot; [reflexivity|]. simpl.
  destruct (String.eqb (TrimSpace cell) name) eqn:Hcell.
  - apply String.eqb_eq in Hcell. exfalso. apply Hnot. left. exact Hcell.
  - apply IH. intros Hin. apply Hnot. right. exact Hin.
Qed.

(** The column that the loop of [parseFileSchema] records for a name is
    the one at the position of the name. *)
Lemma schema_loop_spec_position name cells : forall i m,
  NoDup (map TrimSpace cells) ->
  schema_loop cells i m !! name
  = match spec_position name cells (S i) with
    | Some k => Some (spec_column k)
    | None => m !! name
    end.
Proof.
  induction cells as [|cell rest IH]; intros i m Hdistinct; [reflexivity|].
  simpl in Hdistinct. inversion Hdistinct as [|? ? Hfresh Hrest]; subst.
  simpl. rewrite (IH (S i) _ Hrest).
  destruct (String.eqb (TrimSpace cell) name) eqn:Hcell.
  - apply String.eqb_eq in Hcell. subst name.
    rewrite spec_position_absent
      by (intros Hin; apply Hfresh, list_elem_of_In; exact Hin).
    rewrite lookup_insert_eq, Nat.add_1_r. reflexivity.
  - apply String.eqb_neq in Hcell.
    destruct (spec_position name rest (S (S i))); [reflexivity|].
    apply lookup_insert_ne. exact Hcell.
Qed.

Section FilterStated.

Context `{GoTime}.

(** C4: for a schema of two or more cells without commas, joined by
    commas, of distinct column names (the first cell not empty, unless
    there are three cells or more); for all dates and each of the three
    values of the selector: the expression
    returned is the text that the table of the specification asks for: the
    projection of the two key columns alone when versioning is disabled;
    else with the equality predicate on the position of the latest column
    for Yes and for No, and with the predicate on the position of the
    last-updated column that the bounds present choose, a predicate on a
    column that the schema lacks being left out; and an error is returned
    instead exactly when the selector is set and the schema lacks the
    latest column. *)
Theorem C4_filter_expression_matches_table cells startDt endDt selector versioningDisabled :
  (2 <= length cells)%nat ->
  hd "" cells <> "" \/ (3 <= length cells)%nat ->
  forallb comma_free cells = true ->
  NoDup (map TrimSpace cells) ->
  (forall text,
     spec_expression cells startDt endDt selector versioningDisabled = Some text ->
     GetQueryExpression (Join cells ",") startDt endDt (selector_text selector)
       versioningDisabled = (text, None))
  /\ (spec_expression cells startDt endDt selector versioningDisabled = None ->
      exists e,
        GetQueryExpression (Join cells ",") startDt endDt (selector_text selector)
          versioningDisabled = ("", Some e)).
Proof.
  intros Hlen Hfirst Hfree Hdistinct.
  rewrite GetQueryExpression_table. unfold spec_expression.
  destruct versioningDisabled.
  { split; [intros text [= <-]; reflexivity | discriminate]. }
  rewrite (parseFileSchema_Join cells Hlen Hfirst Hfree).
  unfold table_predicates, IsLatestColumn, LastUpdatedColumn.
  rewrite !(schema_loop_spec_position _ cells 0 ∅ Hdistinct), !lookup_empty.
  unfold date_predicate, IsZero, spec_date_text, expression_of.
  destruct (spec_position "IsLatest" cells 1) as [latest|];
    destruct (spec_position "LastUpdated" cells 1) as [updated|];
    destruct selector; destruct (startDt =? 0); destruct (endDt =? 0);
    (split; [intros text [= <-]; reflexivity
            | intros Herror; try discriminate Herror; eexists; reflexivity]).
Qed.

End FilterStated.

(** ** The latest-version job waits for the other one *)

Lemma split_after_quiet {A} (P : A -> bool) pre0 : forall evs pre x post,
  pre0 ++ evs = pre ++ x :: post ->
  Forall (fun ev => P ev = false) pre0 -> P x = true ->
  exists a, pre = pre0 ++ a /\ evs = a ++ x :: post.
Proof.
  induction pre0 as [|y pre0 IH]; intros evs pre x post Heq Hquiet Hx.
  - exists pre. split; [reflexivity | exact Heq].
  - apply Forall_cons_iff in Hquiet as [Hy Hquiet].
    destruct pre as [|z pre]; simpl in Heq.
    + injection Heq as -> _. congruence.
    + injection Heq as -> Heq.
      destruct (IH _ _ _ _ Heq Hquiet Hx) as (a & -> & ->).
      exists a. split; reflexivity.
Qed.

(** The jobs that the job part of a dual run creates are the two of its
    plan, each in its own slot. *)
Lemma dual_run_creates {F} `{Float32 F} accountID (req : F) pv pn out evs :
  dual_run accountID req pv pn out evs ->
  forall slot p resp, In (EvCreateJob slot p resp) evs ->
    (slot = NonVersionJob /\ p = pn) \/ (slot = VersionJob /\ p = pv).
Proof.
  assert (Hone : forall slot0 param o evs0 slot p resp,
             job_run slot0 accountID param o evs0 -> In (EvCreateJob slot p resp) evs0 ->
             slot = slot0 /\ p = param).
  { intros slot0 param o evs0 slot p resp Hjob Hin.
    apply job_run_events in Hjob as (resp0 & rest & -> & Hrest).
    destruct Hin as [[= <- <- _]|Hin]; [split; reflexivity|].
    rewrite List.Forall_forall in Hrest. specialize (Hrest _ Hin). discriminate. }
  intros Hdual slot p resp Hin.
  destruct Hdual as [o out evs1 Hjob _ _|r evs1 Hjob _|r evs1 o evs2 out Hjob1 _ Hjob2].
  - left. eapply Hone; eassumption.
  - left. eapply Hone; eassumption.
  - apply in_app_or in Hin as [Hin|Hin]; [left | right]; eapply Hone; eassumption.
Qed.

Section GateStated.

Context {F : Type} `{Float32 F} `{GoTime} `{GoJSON} `{GoSlices}.
Variable R : Remote.

(** What [createJobInput] has done when it returns. *)
Lemma createJobInput_built manifestFile jobArgs filters tr p jobArgs1 tr' :
  createJobInput R manifestFile jobArgs filters tr = (Returned (p, jobArgs1), tr') ->
  exists evs body manifestJson,
    tr' = tr ++ evs
    /\ SourceBucketName jobArgs1 = SourceBucketName jobArgs
    /\ VersioningDisabled jobArgs1 = VersioningDisabled jobArgs
    /\ GetObject R tr (SourceBucketName jobArgs) (Key manifestFile) = Ok (Ok body)
    /\ Unmarshal body = Ok manifestJson
    /\ selectExpressions evs
       = [fst (GetQueryExpression (FileSchema manifestJson) (StartDate filters)
                 (EndDate filters) (LatestOnly filters) (VersioningDisabled jobArgs))].
Proof.
  rewrite createJobInput_cases, filterManifestCsv_cases. cbv zeta.
  destruct (GetObject R tr (SourceBucketName jobArgs) (Key manifestFile))
    as [[body|e]|e] eqn:Hget; try discriminate.
  destruct (Unmarshal body) as [manifestJson|e] eqn:Hjson; [|discriminate].
  destruct (Files manifestJson) as [|csvFile rest]; [discriminate|].
  destruct (GetQueryExpression _ _ _ _ _) as [expression [e|]] eqn:Hquery; [discriminate|].
  destruct (SelectObjectContent R _ _) as [stream|e]; [|discriminate].
  destruct (Upload R _ _ _ _) as [location|e]; [|discriminate].
  destruct (HeadObject R _ _ _) as [etag|e]; [|discriminate].
  intros [= <- <- <-].
  eexists _, body, manifestJson.
  split; [rewrite <- !app_assoc; cbn [app]; reflexivity|].
  split; [reflexivity|]. split; [reflexivity|]. split; [reflexivity|].
  split; [exact Hjson|]. rewrite Hquery. reflexivity.
Qed.

(** The two job specifications of a dual run and the filters behind them. *)
Lemma getJobParams_dual_built manifestFile jobArgs filters tr jobParams err tr' :
  VersioningDisabled jobArgs = false ->
  String.eqb (LatestOnly filters) "Yes" = false ->
  getJobParams R manifestFile jobArgs filters tr = (Returned (jobParams, err), tr') ->
  exists pv pn jobArgs1 jobArgs2 tr1,
    err = None
    /\ jobParams = {| versionJobParam := Some pv; nonVersionJobParam := Some pn |}
    /\ createJobInput R manifestFile jobArgs (withLatestOnly filters "Yes") tr
       = (Returned (pv, jobArgs1), tr1)
    /\ createJobInput R manifestFile jobArgs1 (withLatestOnly filters "No") tr1
       = (Returned (pn, jobArgs2), tr').
Proof.
  intros Hversioned Hlatest. rewrite (getJobParams_dual_filters R _ _ _ Hversioned Hlatest).
  unfold bind at 1.
  destruct (createJobInput R manifestFile jobArgs (withLatestOnly filters "Yes") tr)
    as [[[pv jobArgs1]| | |] tr1] eqn:HbuiltY; try discriminate.
  unfold bind at 1.
  destruct (createJobInput R manifestFile jobArgs1 (withLatestOnly filters "No") tr1)
    as [[[pn jobArgs2]| | |] tr2] eqn:HbuiltN; try discriminate.
  simpl. intros [= <- <- <-]. exists pv, pn, jobArgs1, jobArgs2, tr1. auto.
Qed.

Lemma filtered_with_later (args : MigrationArgs F) selector p pre later :
  filtered_with R args selector p pre -> filtered_with R args selector p (pre ++ later).
Proof.
  intros (manifestFile & jobArgs & jobArgs1 & tr0 & evs & rest & body & manifestJson
          & -> & Hbucket & Hversioned & Hbuilt & Hget & Hjson & Hquery).
  exists manifestFile, jobArgs, jobArgs1, tr0, evs, (rest ++ later), body, manifestJson.
  split; [rewrite <- !app_assoc; reflexivity|]. auto 10.
Qed.

(** The history of a versioned run without the latest-only filter, with
    the filters behind the two job specifications. *)
Lemma Run_dual_built fuel (args : MigrationArgs F) status :
  GetBucketVersioning R [] (SourceBucket args) = Ok status ->
  String.eqb status "" = false ->
  String.eqb (MigrationLatestOnly args) "Yes" = false ->
  exists out pre evs,
    Run R fuel args [] = (out, pre ++ evs)
    /\ Forall (fun ev => isJobEvent ev = false) pre
    /\ (evs = []
        \/ exists pv pn,
             dual_run (AccountID args) (ReqSuccessThreshold args) pv pn out evs
             /\ filtered_with R args OnlyLatest pv pre
             /\ filtered_with R args OnlyOthers pn pre).
Proof.
  intros Hversioning Hstatus Hlatest.
  destruct (LoadDefaultConfig R (SourceRegion args)) as [e|] eqn:Hload.
  { unfold Run. rewrite Hload. eexists _, [], []. simpl. auto. }
  rewrite (Run_unfold R fuel args Hload), Hversioning, Hstatus.
  destruct (emits_ensure_no_job R (SourceBucket args) (ConfigName args)
              (String.eqb (ConfigName args) inventoryConfigName)
              [EvGetBucketVersioning (SourceBucket args)]) as (evsE & HtrE & HallE).
  destruct (ensureS3InventoryConfig R _ _ _ _) as [oE trE]. cbn [snd] in HtrE. subst trE.
  assert (Hpre1 : Forall (fun ev => isJobEvent ev = false)
                    ([EvGetBucketVersioning (SourceBucket args)] ++ evsE))
    by (apply List.Forall_app; split; [repeat constructor | assumption]).
  set (tr1 := [EvGetBucketVersioning (SourceBucket args)] ++ evsE) in *.
  destruct oE as [[[manifestArgs|] [e|]]| | |];
    try solve [eexists _, tr1, []; rewrite app_nil_r; simpl; auto].
  destruct (quiet_no_job _ (quiet_discover R fuel manifestArgs
              match ParseDuration (RetryInterval args) with Ok d => d | Err _ => 0 end 0) tr1)
    as (evsD & HtrD & HallD).
  unfold bind at 1.
  destruct (discover R fuel manifestArgs _ 0 tr1) as [oD trD]. cbn [snd] in HtrD. subst trD.
  assert (Hpre2 : Forall (fun ev => isJobEvent ev = false) (tr1 ++ evsD))
    by (apply List.Forall_app; split; assumption).
  set (tr2 := tr1 ++ evsD) in *.
  destruct oD as [manifestFile| | |];
    try solve [eexists _, tr2, []; rewrite app_nil_r; simpl; auto].
  set (jobArgs := {| AccountId := AccountID args; RoleArn := MigrationRoleArn args;
                     SourceBucketName := SourceBucket args;
                     TargetBucketName := DestinationBucket args;
                     ManifestArn := None; ManifestETag := None;
                     VersioningDisabled := false |}).
  set (filters := {| StartDate := StartDt args; EndDate := EndDt args;
                     LatestOnly := MigrationLatestOnly args; kmsID := KmsID args |}).
  destruct (quiet_no_job _ (quiet_getJobParams R manifestFile jobArgs filters) tr2)
    as (evsG & HtrG & HallG).
  unfold bind at 1.
  destruct (getJobParams R manifestFile jobArgs filters tr2) as [oG trG] eqn:HG.
  cbn [snd] in HtrG. subst trG.
  assert (Hpre3 : Forall (fun ev => isJobEvent ev = false) (tr2 ++ evsG))
    by (apply List.Forall_app; split; assumption).
  destruct oG as [[jobParams err]| | |];
    try solve [eexists _, (tr2 ++ evsG), []; rewrite app_nil_r; simpl; auto].
  destruct (getJobParams_dual_built manifestFile jobArgs filters tr2 jobParams err _
              eq_refl Hlatest HG)
    as (pv & pn & jobArgs1 & jobArgs2 & trY & -> & -> & HbuiltY & HbuiltN).
  destruct (createJobInput_built _ _ _ _ _ _ _ HbuiltY)
    as (evsY & bodyY & jsonY & -> & HbucketY & HversionedY & HgetY & HjsonY & HqueryY).
  destruct (createJobInput_built _ _ _ _ _ _ _ HbuiltN)
    as (evsN & bodyN & jsonN & HtrN & _ & _ & HgetN & HjsonN & HqueryN).
  rewrite <- app_assoc in HtrN. apply app_inv_head in HtrN. subst evsG.
  rewrite HbucketY in HgetN. rewrite HversionedY in HqueryN.
  destruct (runJobs_dual R fuel (AccountID args) (ReqSuccessThreshold args) pv pn
              (tr2 ++ evsY ++ evsN)) as (out & evs & Hrun & Hdual).
  rewrite Hrun. exists out, (tr2 ++ evsY ++ evsN), evs.
  split; [reflexivity|]. split; [assumption|]. right. exists pv, pn.
  split; [exact Hdual|]. split.
  - exists manifestFile, jobArgs, jobArgs1, tr2, evsY, evsN, bodyY, jsonY.
    split; [reflexivity|]. split; [reflexivity|]. split; [reflexivity|].
    split; [exact HbuiltY|]. split; [exact HgetY|]. split; [exact HjsonY | exact HqueryY].
  - exists manifestFile, jobArgs1, jobArgs2, (tr2 ++ evsY), evsN, [], bodyN, jsonN.
    split; [rewrite app_nil_r, app_assoc; reflexivity|].
    split; [exact HbucketY|]. split; [exact HversionedY|].
    split; [rewrite (app_assoc tr2 evsY evsN) in HbuiltN; exact HbuiltN|].
    split; [exact HgetN|]. split; [exact HjsonN | exact HqueryN].
Qed.


End GateStated.

(** ** The three theorems at work on the sample store *)

Section StatedSamples.

#[local] Existing Instance simpleTime.
#[local] Existing Instance sampleJSON.
#[local] Existing Instance insertionSlices.

Lemma C9_sample_listing :
  exists result,
    fst (getLatestManifest sampleRemote sampleFinder []) = Returned (result, None)
    /\ match result with
       | Some m =>
           In m sampleListing
           /\ (exists stem, Key m = stem +:+ "manifest.json")
           /\ windowStartOf (now sampleRemote []) (DateWindow sampleFinder) < LastModified m
           /\ forall o, In o sampleListing ->
                        spec_candidate
                          (windowStartOf (now sampleRemote []) (DateWindow sampleFinder)) o ->
                        LastModified o <= LastModified m
       | None =>
           forall o, In o sampleListing ->
                     ~ spec_candidate
                         (windowStartOf (now sampleRemote []) (DateWindow sampleFinder)) o
       end.
Proof.
  apply (C9_locator_returns_newest_candidate sampleRemote sampleFinder [] sampleListing);
    [ apply insertionSlices_permutes | apply insertionSlices_sorts | reflexivity ].
Defined.

Lemma C4_sample_expression :
  (forall text,
     spec_expression sampleCells (sampleNow + 24 * Hour) sampleNow OnlyLatest false
       = Some text ->
     GetQueryExpression (Join sampleCells ",") (sampleNow + 24 * Hour) sampleNow
       (selector_text OnlyLatest) false = (text, None))
  /\ (spec_expression sampleCells (sampleNow + 24 * Hour) sampleNow OnlyLatest false = None ->
      exists e,
        GetQueryExpression (Join sampleCells ",") (sampleNow + 24 * Hour) sampleNow
          (selector_text OnlyLatest) false = ("", Some e)).
Proof.
  apply (C4_filter_expression_matches_table sampleCells (sampleNow + 24 * Hour) sampleNow
           OnlyLatest false).
  - simpl. lia.
  - left. discriminate.
  - reflexivity.
  - apply (bool_decide_unpack _). vm_compute. reflexivity.
Defined.

Example sample_table_expression :
  spec_expression sampleCells (sampleNow + 24 * Hour) sampleNow OnlyLatest false
  = Some "SELECT s._1, s._2 FROM s3object s WHERE s._4 = 'true' AND s._6 BETWEEN '2024-04-27T12:00:00' AND '2024-04-26T12:00:00'".
Proof. vm_compute. reflexivity. Qed.



Example passing_run_jobs_by_filter :
  selectExpressions (snd (Run passingRemote 30 sampleArgs []))
  = ["SELECT s._1, s._2 FROM s3object s WHERE s._4 = 'true'";
     "SELECT s._1, s._2 FROM s3object s WHERE s._4 = 'false'"]
  /\ createdSlots (snd (Run passingRemote 30 sampleArgs [])) = [NonVersionJob; VersionJob].
Proof. vm_compute. split; reflexivity. Qed.

End StatedSamples.
